(** * Ghost Wheel: the plane-anchor state machine and the vehicle motion model

    A shallow embedding of the two browser programs of the repository:

    - [Wasd]: the keyboard variant (main_wasd.js): the car physics integrator
      [updateCarPhysics], the marker handler [handleMarkerDetection] with
      [updatePlaneReference] and [fixMatrix], [resetCarPosition],
      [updateContainerTransform] and one frame of [renderLoop];
    - [Gesture]: the hand-tracking variant (class GhostWheelAR):
      [handleMarkerDetection], [handleHandTrackingData], [updateCarMovement]
      and one frame of the loop started by [startRenderLoop].

    JavaScript numbers are kept abstract: the programs are written once over
    an interface [JSNumber] of the operations they use, and instantiated at
    the real numbers (exact arithmetic, for the laws of the integrator) and at
    the binary64 floating-point numbers of the kernel (to run the code). *)

From Stdlib Require Import Bool List ZArith QArith Qreals Reals Lra Lia.
From Stdlib Require PrimFloat Uint63 String.
Import ListNotations.

Set Implicit Arguments.

(** ** JavaScript numbers *)

Declare Scope js_scope.
Delimit Scope js_scope with js.

(** The arithmetic the two programs use.  [lit q] is the numeric literal
    written [q] in the source; [sqr a] is [a ** 2]; [truthy a] is the
    truth value of the number [a] (false for zero and not-a-number), as
    [a || 0] tests it. *)
Class JSNumber (F : Type) := {
  lit : Q -> F;
  add : F -> F -> F;
  sub : F -> F -> F;
  mul : F -> F -> F;
  div : F -> F -> F;
  neg : F -> F;
  sqr : F -> F;
  gtb : F -> F -> bool;
  geb : F -> F -> bool;
  truthy : F -> bool;
  Math_abs : F -> F;
  Math_sign : F -> F;
  Math_sqrt : F -> F;
  Math_sin : F -> F;
  Math_cos : F -> F;
  Math_PI : F
}.

Infix "+" := add : js_scope.
Infix "-" := sub : js_scope.
Infix "*" := mul : js_scope.
Infix "/" := div : js_scope.
Notation "- a" := (neg a) : js_scope.
Infix ">?" := gtb (at level 70, no associativity) : js_scope.
Infix ">=?" := geb (at level 70, no associativity) : js_scope.

(** A completed call: it returns, or it throws (a TypeError); either way the
    state the mutations have reached so far is what the caller is left with. *)
Inductive Completion (S : Type) : Type :=
| Normal (s : S)
| Throw (s : S).

Definition stateOf {S : Type} (c : Completion S) : S :=
  match c with Normal s => s | Throw s => s end.

(** [n] applications of a step function. *)
Fixpoint iterate {S : Type} (n : nat) (step : S -> S) (s : S) : S :=
  match n with
  | O => s
  | Datatypes.S k => iterate k step (step s)
  end.

(** ** The libraries the programs call

    three.js and the marker recogniser are not part of the repository; what
    the programs use of them is modelled here after their documented
    behaviour. *)

Module Three.
Section Library.
Context {F : Type} {num : JSNumber F}.
Local Open Scope js_scope.

(** What an array read or a matrix element can hold: a number, [undefined]
    (a read past the end of an array) or not-a-number. *)
Inductive JSValue : Type :=
| Num (v : F)
| Undefined
| NaN.

(** [m[i]] on an array of numbers. *)
Definition index (m : list F) (i : nat) : JSValue :=
  match nth_error m i with
  | Some v => Num v
  | None => Undefined
  end.

(** Unary minus: [-undefined] is not-a-number. *)
Definition negate (v : JSValue) : JSValue :=
  match v with
  | Num a => Num (- a)
  | Undefined => NaN
  | NaN => NaN
  end.

(** A [THREE.Matrix4] is its [elements] array, sixteen values in
    column-major order. *)
Definition Matrix4 : Type := list JSValue.

(** [new THREE.Matrix4()]: the identity. *)
Definition Matrix4_new : Matrix4 :=
  let o := Num (lit 0) in
  let i := Num (lit 1) in
  [i; o; o; o;  o; i; o; o;  o; o; i; o;  o; o; o; i].

(** [Matrix4.set] takes its sixteen arguments in row-major order and stores
    them as they are. *)
Definition Matrix4_set
  (n11 n12 n13 n14 n21 n22 n23 n24 n31 n32 n33 n34 n41 n42 n43 n44 : JSValue)
  : Matrix4 :=
  [n11; n21; n31; n41;  n12; n22; n32; n42;
   n13; n23; n33; n43;  n14; n24; n34; n44].

(** A [THREE.Object3D], as far as the programs use it. *)
Record Object3D := mkObject3D {
  visible : bool;
  matrix : Matrix4
}.

(** A getMarker event of the recogniser: [event.data.marker.idMatrix] and
    [event.data.matrixGL_RH].  The pose is an array of numbers of any length,
    or [None] when the property is missing ([undefined]). *)
Record MarkerEvent := mkMarkerEvent {
  idMatrix : Z;
  matrixGL_RH : option (list F)
}.

(** One call of [arController.process]: the getMarker events it dispatches to
    the registered handler, each with the value [performance.now()] returns
    inside the handler, and whether the call itself then fails. *)
Record ProcessRun := mkProcessRun {
  detections : list (F * MarkerEvent);
  processFails : bool
}.

End Library.

Arguments JSValue : clear implicits.
Arguments Matrix4 : clear implicits.
Arguments Object3D : clear implicits.
Arguments MarkerEvent : clear implicits.
Arguments ProcessRun : clear implicits.

End Three.

(** ** The keyboard variant (main_wasd.js) *)

Module Wasd.
Import Three.
Section Program.
Context {F : Type} {num : JSNumber F}.
Local Open Scope js_scope.

(** *** carSystem *)

Record XZ := mkXZ { x : F; z : F }.

Record Keys := mkKeys {
  forward : bool;
  backward : bool;
  left : bool;
  right : bool;
  brake : bool
}.

Record CarSystem := mkCarSystem {
  position : XZ;
  velocity : XZ;
  rotation : F;
  speed : F;
  acceleration : F;
  maxSpeed : F;
  turnSpeed : F;
  friction : F;
  brakeForce : F;
  keys : Keys
}.

Definition noKeys : Keys := mkKeys false false false false false.

(** The object literal [carSystem] of the source. *)
Definition carSystem : CarSystem :=
  {| position := mkXZ (lit 0) (lit 0);
     velocity := mkXZ (lit 0) (lit 0);
     rotation := lit 0;
     speed := lit 0;
     acceleration := lit 0.012;
     maxSpeed := lit 0.40;
     turnSpeed := lit 0.05;
     friction := lit 0.95;
     brakeForce := lit 0.85;
     keys := noKeys |}.

Definition set_keys (k : Keys) (cs : CarSystem) : CarSystem :=
  mkCarSystem cs.(position) cs.(velocity) cs.(rotation) cs.(speed)
    cs.(acceleration) cs.(maxSpeed) cs.(turnSpeed) cs.(friction)
    cs.(brakeForce) k.

Definition set_position (p : XZ) (cs : CarSystem) : CarSystem :=
  mkCarSystem p cs.(velocity) cs.(rotation) cs.(speed)
    cs.(acceleration) cs.(maxSpeed) cs.(turnSpeed) cs.(friction)
    cs.(brakeForce) cs.(keys).

Definition set_velocity (v : XZ) (cs : CarSystem) : CarSystem :=
  mkCarSystem cs.(position) v cs.(rotation) cs.(speed)
    cs.(acceleration) cs.(maxSpeed) cs.(turnSpeed) cs.(friction)
    cs.(brakeForce) cs.(keys).

Definition set_rotation (r : F) (cs : CarSystem) : CarSystem :=
  mkCarSystem cs.(position) cs.(velocity) r cs.(speed)
    cs.(acceleration) cs.(maxSpeed) cs.(turnSpeed) cs.(friction)
    cs.(brakeForce) cs.(keys).

Definition set_speed (s : F) (cs : CarSystem) : CarSystem :=
  mkCarSystem cs.(position) cs.(velocity) cs.(rotation) s
    cs.(acceleration) cs.(maxSpeed) cs.(turnSpeed) cs.(friction)
    cs.(brakeForce) cs.(keys).

(** *** updateCarPhysics

    The body of the source function, statement by statement, on the fields
    of [carSystem].  Its two trailing calls ([updateCarVisualPosition] and
    [updateUI]) copy the result to the 3D model and to the page and write no
    field of [carSystem]; they are not part of the embedding. *)
Definition updateCarPhysics (cs : CarSystem) : CarSystem :=
  let keys := cs.(keys) in
  (* Calculate acceleration based on input *)
  let accel :=
    if keys.(forward) then cs.(acceleration)
    else if keys.(backward) then - cs.(acceleration)
    else lit 0 in
  (* Apply braking *)
  let vx := cs.(velocity).(x) in
  let vz := cs.(velocity).(z) in
  let vx := if keys.(brake) then vx * cs.(brakeForce) else vx in
  let vz := if keys.(brake) then vz * cs.(brakeForce) else vz in
  (* Update rotation based on turning input and current speed *)
  let rot := cs.(rotation) in
  let rot :=
    if keys.(left) && (Math_abs cs.(speed) >? lit 0.01)
    then rot + cs.(turnSpeed) * Math_sign cs.(speed) else rot in
  let rot :=
    if keys.(right) && (Math_abs cs.(speed) >? lit 0.01)
    then rot - cs.(turnSpeed) * Math_sign cs.(speed) else rot in
  (* Calculate velocity based on acceleration and rotation *)
  let cos := Math_cos rot in
  let sin := Math_sin rot in
  let vx := vx + accel * sin in
  let vz := vz + accel * cos in
  (* Apply friction *)
  let vx := vx * cs.(friction) in
  let vz := vz * cs.(friction) in
  (* Calculate speed and limit maximum *)
  let spd := Math_sqrt (sqr vx + sqr vz) in
  let clamp := spd >? cs.(maxSpeed) in
  let ratio := cs.(maxSpeed) / spd in
  let vx := if clamp then vx * ratio else vx in
  let vz := if clamp then vz * ratio else vz in
  let spd := if clamp then cs.(maxSpeed) else spd in
  (* Update position *)
  let px := cs.(position).(x) + vx in
  let pz := cs.(position).(z) + vz in
  {| position := mkXZ px pz;
     velocity := mkXZ vx vz;
     rotation := rot;
     speed := spd;
     acceleration := cs.(acceleration);
     maxSpeed := cs.(maxSpeed);
     turnSpeed := cs.(turnSpeed);
     friction := cs.(friction);
     brakeForce := cs.(brakeForce);
     keys := keys |}.

(** *** The integration step as the specification words it

    Seven updates, each a function of its own, to be compared with
    [updateCarPhysics]. *)

(** The magnitude of a vector. *)
Definition magnitude (v : XZ) : F := Math_sqrt (sqr v.(x) + sqr v.(z)).

(** Both components multiplied by one factor. *)
Definition scale (k : F) (v : XZ) : XZ := mkXZ (v.(x) * k) (v.(z) * k).

(** (1) the scalar acceleration: forward wins over backward. *)
Definition step1_accel (cs : CarSystem) : F :=
  if cs.(keys).(forward) then cs.(acceleration)
  else if cs.(keys).(backward) then - cs.(acceleration)
  else lit 0.

(** (2) braking scales the velocity by [brakeForce]. *)
Definition step2_brake (cs : CarSystem) : CarSystem :=
  if cs.(keys).(brake) then set_velocity (scale cs.(brakeForce) cs.(velocity)) cs
  else cs.

(** The steering guard: the stored speed is outside the turn dead zone. *)
Definition canTurn (cs : CarSystem) : bool := Math_abs cs.(speed) >? lit 0.01.

(** (3) steering: left adds and right subtracts [turnSpeed * sign speed]. *)
Definition step3_steer (cs : CarSystem) : CarSystem :=
  let cs :=
    if cs.(keys).(left) && canTurn cs
    then set_rotation (cs.(rotation) + cs.(turnSpeed) * Math_sign cs.(speed)) cs
    else cs in
  if cs.(keys).(right) && canTurn cs
  then set_rotation (cs.(rotation) - cs.(turnSpeed) * Math_sign cs.(speed)) cs
  else cs.

(** (4) the velocity gains [(accel * sin heading, accel * cos heading)]. *)
Definition step4_thrust (accel : F) (cs : CarSystem) : CarSystem :=
  set_velocity
    (mkXZ (cs.(velocity).(x) + accel * Math_sin cs.(rotation))
          (cs.(velocity).(z) + accel * Math_cos cs.(rotation))) cs.

(** (5) friction, unconditionally. *)
Definition step5_friction (cs : CarSystem) : CarSystem :=
  set_velocity (scale cs.(friction) cs.(velocity)) cs.

(** (6) the speed is recomputed; above [maxSpeed] both components are
    rescaled by [maxSpeed / speed]. *)
Definition step6_clamp (cs : CarSystem) : CarSystem :=
  let spd := magnitude cs.(velocity) in
  if spd >? cs.(maxSpeed)
  then set_speed cs.(maxSpeed)
         (set_velocity (scale (cs.(maxSpeed) / spd) cs.(velocity)) cs)
  else set_speed spd cs.

(** (7) the position advances by the velocity. *)
Definition step7_move (cs : CarSystem) : CarSystem :=
  set_position
    (mkXZ (cs.(position).(x) + cs.(velocity).(x))
          (cs.(position).(z) + cs.(velocity).(z))) cs.

(** The heading the two steering statements of [updateCarPhysics] leave. *)
Definition steeredRotation (cs : CarSystem) : F :=
  let rot := cs.(rotation) in
  let rot :=
    if cs.(keys).(left) && (Math_abs cs.(speed) >? lit 0.01)
    then rot + cs.(turnSpeed) * Math_sign cs.(speed) else rot in
  if cs.(keys).(right) && (Math_abs cs.(speed) >? lit 0.01)
  then rot - cs.(turnSpeed) * Math_sign cs.(speed) else rot.

(** The state just before the clamp: updates (1) to (5). *)
Definition beforeClamp (cs : CarSystem) : CarSystem :=
  step5_friction (step4_thrust (step1_accel cs) (step3_steer (step2_brake cs))).

Definition integrate (cs : CarSystem) : CarSystem :=
  step7_move (step6_clamp (beforeClamp cs)).

(** The test of the speed limit in [updateCarPhysics]. *)
Definition clampFires (cs : CarSystem) : bool :=
  magnitude (velocity (beforeClamp cs)) >? cs.(maxSpeed).

(** The numeric scenario: the initial car with only the forward key held. *)
Definition forwardOnly : Keys := mkKeys true false false false false.
Definition fromRest : CarSystem := set_keys forwardOnly carSystem.

(** *** arSystem

    [planePosition] and [planeRotation] are recomputed from [planeMatrix] by
    three.js in [updatePlaneReference] and read nowhere; they are left out. *)

Record ArSystem := mkArSystem {
  markerDetected : bool;
  lastDetectionTime : F;
  planeMatrix : Matrix4 F;
  initialized : bool;
  planeEstablished : bool;
  searchingForMarker : bool
}.

(** The object literal [arSystem] of the source. *)
Definition arSystem : ArSystem :=
  {| markerDetected := false;
     lastDetectionTime := lit 0;
     planeMatrix := Matrix4_new;
     initialized := false;
     planeEstablished := false;
     searchingForMarker := true |}.

(** The phase the two flags encode; [None] when they contradict each other. *)
Inductive Phase : Type := Searching | Anchored.

Definition phase (ar : ArSystem) : option Phase :=
  match ar.(planeEstablished), ar.(searchingForMarker) with
  | false, true => Some Searching
  | true, false => Some Anchored
  | _, _ => None
  end.

(** *** fixMatrix, updatePlaneReference, handleMarkerDetection *)

(** Reading [m[0]] of a missing pose throws before [set] is called. *)
Definition fixMatrix (three_mat : Matrix4 F) (m : option (list F))
  : Completion (Matrix4 F) :=
  match m with
  | None => Throw three_mat
  | Some m =>
      Normal (Matrix4_set
        (index m 0) (index m 8) (negate (index m 4)) (index m 12)
        (index m 1) (index m 9) (negate (index m 5)) (index m 13)
        (index m 2) (index m 10) (negate (index m 6)) (index m 14)
        (index m 3) (index m 11) (negate (index m 7)) (index m 15))
  end.

Definition updatePlaneReference (markerMatrix : option (list F)) (ar : ArSystem)
  : Completion ArSystem :=
  (* Store the plane transformation matrix *)
  match fixMatrix ar.(planeMatrix) markerMatrix with
  | Throw _ => Throw ar
  | Normal pm =>
      (* Mark as initialized *)
      Normal {| markerDetected := ar.(markerDetected);
                lastDetectionTime := ar.(lastDetectionTime);
                planeMatrix := pm;
                initialized := if negb ar.(initialized) then true
                               else ar.(initialized);
                planeEstablished := ar.(planeEstablished);
                searchingForMarker := ar.(searchingForMarker) |}
  end.

(** [now] is the value of [performance.now()] in the handler. *)
Definition handleMarkerDetection (now : F) (event : MarkerEvent F)
  (ar : ArSystem) : Completion ArSystem :=
  if negb (event.(idMatrix) =? -1)%Z && ar.(searchingForMarker) then
    (* Update plane reference from marker *)
    match updatePlaneReference event.(matrixGL_RH) ar with
    | Throw ar => Throw ar
    | Normal ar =>
        Normal {| markerDetected := true;
                  lastDetectionTime := now;
                  planeMatrix := ar.(planeMatrix);
                  initialized := ar.(initialized);
                  planeEstablished := true;
                  searchingForMarker := false |}
    end
  else Normal ar.

(** *** setupFallbackCamera (its writes to arSystem) *)
Definition setupFallbackCamera (ar : ArSystem) : ArSystem :=
  {| markerDetected := false;
     lastDetectionTime := ar.(lastDetectionTime);
     planeMatrix := ar.(planeMatrix);
     initialized := true;
     planeEstablished := ar.(planeEstablished);
     searchingForMarker := ar.(searchingForMarker) |}.

(** *** resetCarPosition *)
Definition resetCarPosition (st : CarSystem * ArSystem)
  : CarSystem * ArSystem :=
  let (cs, ar) := st in
  (* Reset car physics *)
  let cs :=
    {| position := mkXZ (lit 0) (lit 0);
       velocity := mkXZ (lit 0) (lit 0);
       rotation := lit 0;
       speed := lit 0;
       acceleration := cs.(acceleration);
       maxSpeed := cs.(maxSpeed);
       turnSpeed := cs.(turnSpeed);
       friction := cs.(friction);
       brakeForce := cs.(brakeForce);
       keys := cs.(keys) |} in
  (* Reset AR system to search for marker again *)
  let ar :=
    {| markerDetected := false;
       lastDetectionTime := ar.(lastDetectionTime);
       planeMatrix := ar.(planeMatrix);
       initialized := false;
       planeEstablished := false;
       searchingForMarker := true |} in
  (cs, ar).

(** *** The page: the global variables one frame reads and writes *)

Record Page := mkPage {
  car : CarSystem;
  ar : ArSystem;
  container : Object3D F;
  arLoaded : bool;
  arController : bool;     (* whether the controller object exists *)
  lastProcessTime : F
}.

Definition processingInterval : F := lit 1000 / lit 30.

(** *** updateContainerTransform *)
Definition updateContainerTransform (arLoaded : bool) (ar : ArSystem)
  (container : Object3D F) : Object3D F :=
  if ar.(planeEstablished) || (negb arLoaded && ar.(initialized)) then
    (* the stored matrix object is always truthy *)
    {| visible := true; matrix := ar.(planeMatrix) |}
  else
    {| visible := false; matrix := container.(matrix) |}.

(** *** arController.process

    The recogniser calls the registered handler once per detection; a throw
    of the handler leaves [process] at once. *)
Fixpoint dispatch (events : list (F * MarkerEvent F)) (ar : ArSystem)
  : Completion ArSystem :=
  match events with
  | [] => Normal ar
  | (now, event) :: rest =>
      match handleMarkerDetection now event ar with
      | Normal ar => dispatch rest ar
      | Throw ar => Throw ar
      end
  end.

Definition process (run : ProcessRun F) (ar : ArSystem)
  : Completion ArSystem :=
  match dispatch run.(detections) ar with
  | Normal ar => if run.(processFails) then Throw ar else Normal ar
  | Throw ar => Throw ar
  end.

(** *** renderLoop *)

(** The part of the frame's recognition test that reads the phase. *)
Definition shouldRunRecognition (ar : ArSystem) : bool :=
  ar.(searchingForMarker) && negb ar.(planeEstablished).

(** The whole test [shouldProcessAR]. *)
Definition shouldProcessAR (currentTime : F) (pg : Page) : bool :=
  pg.(arLoaded) && pg.(arController) &&
  pg.(ar).(searchingForMarker) && negb pg.(ar).(planeEstablished) &&
  (currentTime - pg.(lastProcessTime) >=? processingInterval).

(** One frame.  [run] is what [arController.process] does if it is called.
    The result says whether it was called. *)
Definition renderLoop (currentTime : F) (run : ProcessRun F) (pg : Page)
  : bool * Page :=
  (* Process AR tracking ONLY if searching for marker and not yet established *)
  let called := shouldProcessAR currentTime pg in
  let '(ar, lastProcessTime) :=
    if called then
      match process run pg.(ar) with
      | Normal ar => (ar, currentTime)
      | Throw ar => (ar, pg.(lastProcessTime))      (* catch: warn only *)
      end
    else (pg.(ar), pg.(lastProcessTime)) in
  (* Update car physics every frame *)
  let car := updateCarPhysics pg.(car) in
  (* Update container visibility and position *)
  let container := updateContainerTransform pg.(arLoaded) ar pg.(container) in
  (called,
   {| car := car; ar := ar; container := container;
      arLoaded := pg.(arLoaded); arController := pg.(arController);
      lastProcessTime := lastProcessTime |}).

(** *** The states of arSystem the program can reach *)
Inductive Reachable : ArSystem -> Prop :=
| reach_start : Reachable arSystem
| reach_detect now event ar :
    Reachable ar -> Reachable (stateOf (handleMarkerDetection now event ar))
| reach_fallback ar :
    Reachable ar -> Reachable (setupFallbackCamera ar)
| reach_reset cs ar :
    Reachable ar -> Reachable (snd (resetCarPosition (cs, ar))).

End Program.

Arguments XZ : clear implicits.
Arguments CarSystem : clear implicits.
Arguments ArSystem : clear implicits.
Arguments Page : clear implicits.

End Wasd.

(** ** The hand-tracking variant (class GhostWheelAR) *)

Module Gesture.
Import Three.
Section Program.
Context {F : Type} {num : JSNumber F}.
Local Open Scope js_scope.

Record XZ := mkXZ { x : F; z : F }.

(** The loaded car model: its [position] and [rotation.y]. *)
Record CarModel := mkCarModel {
  position_x : F;
  position_y : F;
  position_z : F;
  rotation_y : F
}.

(** The fields of the class the modelled methods read or write; [car] is
    [None] until a model is loaded. *)
Record GhostWheelAR := mkGhostWheelAR {
  container : Object3D F;
  car : option CarModel;
  carPosition : XZ;
  carRotation : F;
  arLoaded : bool;
  lastMarkerTime : F;
  markerVisible : bool;
  currentSteeringAngle : F;
  handConfidence : F;
  carSpeed : F;
  maxSteeringAngle : F;
  steeringSmoothing : F;
  smoothedSteering : F
}.

(** The state the constructor and [setupThreeJS] leave: the container is
    created invisible. *)
Definition constructed : GhostWheelAR :=
  {| container := mkObject3D false Matrix4_new;
     car := None;
     carPosition := mkXZ (lit 0) (lit 0);
     carRotation := lit 0;
     arLoaded := false;
     lastMarkerTime := lit 0;
     markerVisible := false;
     currentSteeringAngle := lit 0;
     handConfidence := lit 0;
     carSpeed := lit 0.002;
     maxSteeringAngle := lit 45;
     steeringSmoothing := lit 0.1;
     smoothedSteering := lit 0 |}.

(** An inbound message after [JSON.parse]: the two fields the handler reads,
    [None] when the message lacks the field. *)
Record SteeringData := mkSteeringData {
  steering_angle : option F;
  confidence : option F
}.

(** [v || 0] on a field that is a number or missing. *)
Definition orZero (v : option F) : F :=
  match v with
  | Some a => if truthy a then a else lit 0
  | None => lit 0
  end.

(** [THREE.MathUtils.lerp] and [THREE.MathUtils.degToRad]. *)
Definition lerp (a b t : F) : F := (lit 1 - t) * a + t * b.
Definition degToRad (degrees : F) : F := degrees * (Math_PI / lit 180).

(** *** fixMatrix, updateMarkerMatrix, handleMarkerDetection *)

Definition fixMatrix (threeMatrix : Matrix4 F) (jsarMatrix : option (list F))
  : Completion (Matrix4 F) :=
  match jsarMatrix with
  | None => Throw threeMatrix
  | Some m =>
      Normal (Matrix4_set
        (index m 0) (index m 8) (negate (index m 4)) (index m 12)
        (index m 1) (index m 9) (negate (index m 5)) (index m 13)
        (index m 2) (index m 10) (negate (index m 6)) (index m 14)
        (index m 3) (index m 11) (negate (index m 7)) (index m 15))
  end.

Definition with_marker (c : Object3D F) (t : F) (v : bool) (g : GhostWheelAR)
  : GhostWheelAR :=
  mkGhostWheelAR c g.(car) g.(carPosition) g.(carRotation) g.(arLoaded)
    t v g.(currentSteeringAngle) g.(handConfidence) g.(carSpeed)
    g.(maxSteeringAngle) g.(steeringSmoothing) g.(smoothedSteering).

Definition updateMarkerMatrix (markerMatrix : option (list F))
  (g : GhostWheelAR) : Completion GhostWheelAR :=
  match fixMatrix g.(container).(matrix) markerMatrix with
  | Throw _ => Throw g
  | Normal m =>
      Normal (with_marker (mkObject3D true m)
                g.(lastMarkerTime) g.(markerVisible) g)
  end.

Definition handleMarkerDetection (now : F) (event : MarkerEvent F)
  (g : GhostWheelAR) : Completion GhostWheelAR :=
  if negb (event.(idMatrix) =? -1)%Z then
    (* Marker detected *)
    match updateMarkerMatrix event.(matrixGL_RH) g with
    | Throw g => Throw g
    | Normal g => Normal (with_marker g.(container) now true g)
    end
  else Normal g.

(** *** updateCarMovement, handleHandTrackingData *)

Definition with_car (m : option CarModel) (p : XZ) (r : F) (g : GhostWheelAR)
  : GhostWheelAR :=
  mkGhostWheelAR g.(container) m p r g.(arLoaded)
    g.(lastMarkerTime) g.(markerVisible) g.(currentSteeringAngle)
    g.(handConfidence) g.(carSpeed) g.(maxSteeringAngle)
    g.(steeringSmoothing) g.(smoothedSteering).

Definition with_steering (angle conf smoothed : F) (g : GhostWheelAR)
  : GhostWheelAR :=
  mkGhostWheelAR g.(container) g.(car) g.(carPosition) g.(carRotation)
    g.(arLoaded) g.(lastMarkerTime) g.(markerVisible) angle conf
    g.(carSpeed) g.(maxSteeringAngle) g.(steeringSmoothing) smoothed.

Definition updateCarMovement (g : GhostWheelAR) : GhostWheelAR :=
  (* Convert steering angle to radians *)
  let steeringRad := degToRad g.(smoothedSteering) in
  (* Update car rotation *)
  let rot := g.(carRotation) + steeringRad * lit 0.02 in
  (* Calculate movement direction *)
  let moveX := Math_sin rot * g.(carSpeed) in
  let moveZ := Math_cos rot * g.(carSpeed) in
  (* Update car position *)
  let px := g.(carPosition).(x) + moveX in
  let pz := g.(carPosition).(z) + moveZ in
  (* Apply transforms to car *)
  let model :=
    match g.(car) with
    | Some _ => Some (mkCarModel px (lit 0) pz rot)
    | None => None
    end in
  with_car model (mkXZ px pz) rot g.

Definition handleHandTrackingData (data : SteeringData) (g : GhostWheelAR)
  : GhostWheelAR :=
  (* Update steering angle *)
  let angle := orZero data.(steering_angle) in
  let conf := orZero data.(confidence) in
  (* Apply steering smoothing *)
  let smoothed := lerp g.(smoothedSteering) angle g.(steeringSmoothing) in
  let g := with_steering angle conf smoothed g in
  (* Update car movement if confidence is sufficient *)
  if (g.(handConfidence) >? lit 0.7)
     && (match g.(car) with Some _ => true | None => false end)
     && g.(markerVisible)
  then updateCarMovement g
  else g.

(** *** One frame of the loop of startRenderLoop

    [videoReady] says whether [video.readyState] is [HAVE_ENOUGH_DATA]; [run]
    is what [arController.process] does if it is called; [now] is the value
    of [performance.now()] in the timeout test.  Nothing catches a throw of
    [process] here: the frame ends before the timeout test and the render
    call. *)
Fixpoint dispatch (events : list (F * MarkerEvent F)) (g : GhostWheelAR)
  : Completion GhostWheelAR :=
  match events with
  | [] => Normal g
  | (t, event) :: rest =>
      match handleMarkerDetection t event g with
      | Normal g => dispatch rest g
      | Throw g => Throw g
      end
  end.

Definition process (run : ProcessRun F) (g : GhostWheelAR)
  : Completion GhostWheelAR :=
  match dispatch run.(detections) g with
  | Normal g => if run.(processFails) then Throw g else Normal g
  | Throw g => Throw g
  end.

Definition checkTimeout (now : F) (g : GhostWheelAR) : GhostWheelAR :=
  if now - g.(lastMarkerTime) >? lit 200
  then with_marker (mkObject3D false g.(container).(matrix))
         g.(lastMarkerTime) false g
  else g.

Definition renderLoop (videoReady : bool) (run : ProcessRun F) (now : F)
  (g : GhostWheelAR) : Completion GhostWheelAR :=
  (* Process AR markers *)
  let processed :=
    if g.(arLoaded) && videoReady then process run g else Normal g in
  match processed with
  | Throw g => Throw g
  | Normal g =>
      (* Check marker visibility timeout; then render the scene *)
      Normal (checkTimeout now g)
  end.

(** *** The states the program reaches

    Every run interleaves calls of the marker handler (inside [process]),
    timeout tests (one per frame) and hand-tracking messages.  [Trace h g]:
    the run has reached [g], and [h] lists the times of the detections the
    handler has accepted so far, latest first.  A run starts with the
    container hidden, as [setupThreeJS] leaves it. *)
Definition accepted (now : F) (event : MarkerEvent F) (g : GhostWheelAR)
  (h : list F) : list F :=
  match handleMarkerDetection now event g with
  | Normal _ => if negb (event.(idMatrix) =? -1)%Z then now :: h else h
  | Throw _ => h
  end.

Inductive Trace : list F -> GhostWheelAR -> Prop :=
| trace_start g :
    g.(container).(visible) = false -> Trace [] g
| trace_marker now event h g :
    Trace h g ->
    Trace (accepted now event g h) (stateOf (handleMarkerDetection now event g))
| trace_timeout now h g :
    Trace h g -> Trace h (checkTimeout now g)
| trace_hand data h g :
    Trace h g -> Trace h (handleHandTrackingData data g).

End Program.

Arguments XZ : clear implicits.
Arguments CarModel : clear implicits.
Arguments GhostWheelAR : clear implicits.
Arguments SteeringData : clear implicits.

End Gesture.

(** ** Runs of the keyboard variant *)

Module Runs.
Import Three Wasd.
Section Program.
Context {F : Type} {num : JSNumber F}.
Local Open Scope js_scope.

(** The car over a sequence of frames, given the keys held at each of them:
    key events set [carSystem.keys] between frames, every frame calls
    [updateCarPhysics]. *)
Fixpoint drive (held : list Keys) (cs : CarSystem F) : CarSystem F :=
  match held with
  | [] => cs
  | k :: rest => drive rest (updateCarPhysics (set_keys k cs))
  end.

(** A sequence of frames, each with its time stamp and with what
    [arController.process] does if the frame calls it. *)
Fixpoint frames (fs : list (F * ProcessRun F)) (pg : Page F) : Page F :=
  match fs with
  | [] => pg
  | (currentTime, run) :: rest => frames rest (snd (renderLoop currentTime run pg))
  end.

(** The matrix [fixMatrix] stores for a pose array. *)
Definition converted (m : list F) : Matrix4 F :=
  stateOf (fixMatrix Matrix4_new (Some m)).

End Program.
End Runs.

(** ** The keyboard variant with its page elements

    The globals of [Wasd.Page] together with the grid, the car model and the
    page elements the functions write: the marker status, the grid status and
    the instruction overlay with its pending timers.  The elements are taken
    to exist, so that writing them does not throw.  The speed and position
    read-outs of [updateUI] (formatted with [toFixed]) are left out. *)

Module Session.
Import String.
Import Three Wasd.
Section Program.
Context {F : Type} {num : JSNumber F}.
Local Open Scope js_scope.

(** The texts the program writes to the element [marker-status];
    [StatusInitial] stands for what the page's markup holds. *)
Inductive StatusText : Type :=
| StatusInitial
| Searching_                 (* 'Searching...' *)
| SearchingForMarker         (* 'Searching for Marker...' *)
| PlaneSet (id : Z)          (* `Plane Set (ID: ${id}) - Marker Removed` *)
| PlaneActive                (* 'Plane Active (Marker Removed)' *)
| ARDisabled.                (* 'AR Disabled (Files Missing)' *)

Inductive StatusClass : Type :=
| ClassInitial
| status_good
| status_warning
| status_error.

(** The two messages passed to [showInstructions]. *)
Inductive Instruction : Type :=
| PlaneSetHelp               (* 'Plane Set! Remove marker, use WASD ...' *)
| PlaceMarkerHelp.           (* 'Place matrix marker in front of camera ...' *)

(** The overlay element: its text, and whether its display is 'block'. *)
Record Overlay := mkOverlay {
  textContent : Instruction;
  displayed : bool
}.

(** [gridStatus] is [None] for the markup's text, else 'Visible' ([true])
    or 'Hidden'; [overlay] is [None] until the element is created;
    [timeouts] counts the timers of [showInstructions] that have not fired. *)
Record Dom := mkDom {
  markerStatus : StatusText;
  markerClass : StatusClass;
  gridStatus : option bool;
  overlay : option Overlay;
  timeouts : nat
}.

(** The car model's [position] and [rotation.y]. *)
Record CarModel := mkCarModel {
  position_x : F;
  position_y : F;
  position_z : F;
  rotation_y : F
}.

(** [gridPlane] holds the grid's [visible] flag once the grid exists;
    [carModel] is [None] until a model is loaded or built. *)
Record World := mkWorld {
  page : Page F;
  gridPlane : option bool;
  carModel : option CarModel;
  dom : Dom
}.

Definition setStatus (t : StatusText) (c : StatusClass) (d : Dom) : Dom :=
  mkDom t c d.(gridStatus) d.(overlay) d.(timeouts).

Definition with_page (pg : Page F) (w : World) : World :=
  mkWorld pg w.(gridPlane) w.(carModel) w.(dom).

Definition with_dom (d : Dom) (w : World) : World :=
  mkWorld w.(page) w.(gridPlane) w.(carModel) d.

Definition with_ar (a : ArSystem F) (pg : Page F) : Page F :=
  mkPage pg.(car) a pg.(container) pg.(arLoaded) pg.(arController)
    pg.(lastProcessTime).

(** *** showInstructions

    The overlay is created on the first call; each call sets the text,
    shows the overlay and starts one more timer of 4000 ms. *)
Definition showInstructions (message : Instruction) (d : Dom) : Dom :=
  mkDom d.(markerStatus) d.(markerClass) d.(gridStatus)
    (Some (mkOverlay message true))
    (S d.(timeouts)).

(** The callback of a pending timer: it hides the overlay. *)
Definition overlayTimeout (d : Dom) : Dom :=
  match d.(timeouts) with
  | O => d
  | S pending =>
      mkDom d.(markerStatus) d.(markerClass) d.(gridStatus)
        (match d.(overlay) with
         | Some o => Some (mkOverlay o.(textContent) false)
         | None => None
         end)
        pending
  end.

(** *** updateUI (the marker status) *)
Definition updateUI (arLoaded : bool) (a : ArSystem F) (d : Dom) : Dom :=
  if a.(planeEstablished) then
    (* Plane is established, marker can be removed *)
    setStatus PlaneActive status_good d
  else if a.(searchingForMarker) then
    (* Currently searching for marker *)
    setStatus SearchingForMarker status_warning d
  else if negb arLoaded then
    (* AR disabled *)
    setStatus ARDisabled status_error d
  else d.

(** *** updateCarVisualPosition *)
Definition updateCarVisualPosition (cs : CarSystem F) (m : option CarModel)
  : option CarModel :=
  match m with
  | None => None
  | Some _ =>
      Some (mkCarModel cs.(position).(x) (lit 0.1) cs.(position).(z)
              cs.(rotation))
  end.

(** *** handleMarkerDetection, with the page elements it writes *)
Definition handleMarkerDetection (now : F) (event : MarkerEvent F)
  (st : ArSystem F * Dom) : Completion (ArSystem F * Dom) :=
  let (a, d) := st in
  if negb (event.(idMatrix) =? -1)%Z && a.(searchingForMarker) then
    match updatePlaneReference event.(matrixGL_RH) a with
    | Throw a => Throw (a, d)
    | Normal a =>
        Normal
          (mkArSystem true now a.(planeMatrix) a.(initialized) true false,
           (* Update UI, then show instructions in UI briefly *)
           showInstructions PlaneSetHelp
             (setStatus (PlaneSet event.(idMatrix)) status_good d))
    end
  else Normal (a, d).

Fixpoint dispatch (events : list (F * MarkerEvent F)) (st : ArSystem F * Dom)
  : Completion (ArSystem F * Dom) :=
  match events with
  | [] => Normal st
  | (now, event) :: rest =>
      match handleMarkerDetection now event st with
      | Normal st => dispatch rest st
      | Throw st => Throw st
      end
  end.

Definition process (run : ProcessRun F) (st : ArSystem F * Dom)
  : Completion (ArSystem F * Dom) :=
  match dispatch run.(detections) st with
  | Normal st => if run.(processFails) then Throw st else Normal st
  | Throw st => Throw st
  end.

(** *** setupFallbackCamera, with the page element it writes *)
Definition setupFallbackCamera (w : World) : World :=
  mkWorld (with_ar (Wasd.setupFallbackCamera w.(page).(ar)) w.(page))
    w.(gridPlane) w.(carModel)
    (* Show warning in UI *)
    (setStatus ARDisabled status_error w.(dom)).

(** *** resetCarPosition, with the page elements it writes *)
Definition resetCarPosition (w : World) : World :=
  let pg := w.(page) in
  let (cs, a) := Wasd.resetCarPosition (pg.(car), pg.(ar)) in
  mkWorld
    (mkPage cs a pg.(container) pg.(arLoaded) pg.(arController)
       pg.(lastProcessTime))
    w.(gridPlane) w.(carModel)
    (* Update UI, then show instructions *)
    (showInstructions PlaceMarkerHelp
       (setStatus SearchingForMarker status_warning w.(dom))).

(** *** toggleGrid *)
Definition toggleGrid (w : World) : World :=
  match w.(gridPlane) with
  | Some v =>
      mkWorld w.(page) (Some (negb v)) w.(carModel)
        (mkDom w.(dom).(markerStatus) w.(dom).(markerClass) (Some (negb v))
           w.(dom).(overlay) w.(dom).(timeouts))
  | None => w
  end.

(** *** setupKeyboardControls: the two listeners *)

Inductive Control : Type := forward_ | backward_ | left_ | right_ | brake_.

Definition KeyW : string := "KeyW".
Definition KeyS : string := "KeyS".
Definition KeyA : string := "KeyA".
Definition KeyD : string := "KeyD".
Definition Space : string := "Space".
Definition KeyR : string := "KeyR".
Definition KeyG : string := "KeyG".

Definition keyMap : list (string * Control) :=
  [(KeyW, forward_); (KeyS, backward_); (KeyA, left_); (KeyD, right_);
   (Space, brake_)].

(** [keyMap[code]], for the string [code] of a keyboard event.  The codes
    a keyboard produces ('KeyA', 'Space', ...) never name a property that
    every object inherits, so a code outside the five is not found. *)
Fixpoint lookup (map : list (string * Control)) (code : string)
  : option Control :=
  match map with
  | [] => None
  | (k, c) :: rest => if String.eqb k code then Some c else lookup rest code
  end.

(** [carSystem.keys[control] = value]. *)
Definition setKey (c : Control) (value : bool) (k : Keys) : Keys :=
  match c with
  | forward_ => mkKeys value k.(backward) k.(left) k.(right) k.(brake)
  | backward_ => mkKeys k.(forward) value k.(left) k.(right) k.(brake)
  | left_ => mkKeys k.(forward) k.(backward) value k.(right) k.(brake)
  | right_ => mkKeys k.(forward) k.(backward) k.(left) value k.(brake)
  | brake_ => mkKeys k.(forward) k.(backward) k.(left) k.(right) value
  end.

Definition heldKeys (w : World) : Keys := w.(page).(car).(keys).

Definition with_keys (k : Keys) (w : World) : World :=
  let pg := w.(page) in
  with_page
    (mkPage (set_keys k pg.(car)) pg.(ar) pg.(container) pg.(arLoaded)
       pg.(arController) pg.(lastProcessTime)) w.

Definition keydown (code : string) (w : World) : World :=
  let w :=
    match lookup keyMap code with
    | Some c => with_keys (setKey c true (heldKeys w)) w
    | None => w
    end in
  (* Special keys *)
  if String.eqb code KeyR then resetCarPosition w
  else if String.eqb code KeyG then toggleGrid w
  else w.

Definition keyup (code : string) (w : World) : World :=
  match lookup keyMap code with
  | Some c => with_keys (setKey c false (heldKeys w)) w
  | None => w
  end.

(** *** setupARTracking

    How the synchronous part can end, and the two callbacks it registers on
    the controller. *)
Inductive Construction : Type :=
| ControllerUndefined        (* typeof ARController === 'undefined' *)
| ConstructorThrows          (* new ARController(...) throws *)
| Constructed.

Definition with_arController (w : World) : World :=
  let pg := w.(page) in
  with_page
    (mkPage pg.(car) pg.(ar) pg.(container) pg.(arLoaded) true
       pg.(lastProcessTime)) w.

Definition with_arLoaded (w : World) : World :=
  let pg := w.(page) in
  with_page
    (mkPage pg.(car) pg.(ar) pg.(container) true pg.(arController)
       pg.(lastProcessTime)) w.

Definition setupARTracking (outcome : Construction) (w : World) : World :=
  match outcome with
  | ControllerUndefined => setupFallbackCamera w
  | ConstructorThrows => setupFallbackCamera w
  | Constructed => with_arController w
  end.

(** [cameraMatrix] is the result of [getCameraMatrix()]; [configures] says
    whether the calls that configure the detection return rather than
    throw. *)
Definition onload (cameraMatrix : option (list F)) (configures : bool)
  (w : World) : World :=
  match cameraMatrix with
  | Some m =>
      if (List.length m =? 16)%nat then
        if configures then
          (* Update UI to show AR is active *)
          with_dom (setStatus Searching_ status_warning w.(dom))
            (with_arLoaded w)
        else setupFallbackCamera w
      else setupFallbackCamera w
  | None => setupFallbackCamera w
  end.

Definition onerror (w : World) : World := setupFallbackCamera w.

(** *** loadCarModel and createFallbackCar

    [rotation] is the [rotation.y] the loaded scene comes with. *)
Definition modelLoaded (rotation : F) : CarModel :=
  mkCarModel (lit 0) (lit 0.1) (lit 0) rotation.

Definition createFallbackCar : CarModel :=
  mkCarModel (lit 0) (lit 0.04) (lit 0) (lit 0).

(** *** One frame of renderLoop, with the page elements and the car model *)
Definition frame (currentTime : F) (run : ProcessRun F) (w : World) : World :=
  let pg := w.(page) in
  let '(a, d, lastProcessTime) :=
    if shouldProcessAR currentTime pg then
      match process run (pg.(ar), w.(dom)) with
      | Normal (a, d) => (a, d, currentTime)
      | Throw (a, d) => (a, d, pg.(lastProcessTime))
      end
    else (pg.(ar), w.(dom), pg.(lastProcessTime)) in
  (* updateCarPhysics, which ends with updateCarVisualPosition and updateUI *)
  let cs := updateCarPhysics pg.(car) in
  let model :=
    if (match w.(carModel) with Some _ => true | None => false end)
       && a.(initialized)
    then updateCarVisualPosition cs w.(carModel) else w.(carModel) in
  let d := updateUI pg.(arLoaded) a d in
  let c := updateContainerTransform pg.(arLoaded) a pg.(container) in
  mkWorld
    (mkPage cs a c pg.(arLoaded) pg.(arController) lastProcessTime)
    w.(gridPlane) model d.

(** *** The page after start_processing, and what happens to it then *)

(** The globals as declared, the container and the grid as [setupThreeJS]
    makes them. *)
Definition declared : World :=
  mkWorld
    (mkPage carSystem arSystem (mkObject3D true Matrix4_new) false false
       (lit 0))
    (Some true) None
    (mkDom StatusInitial ClassInitial None None 0).

Definition start_processing (outcome : Construction) : World :=
  setupARTracking outcome declared.

Inductive Event : Type :=
| Frame (currentTime : F) (run : ProcessRun F)
| KeyDown (code : string)
| KeyUp (code : string)
| OverlayTimeout
| GltfLoaded (rotation : F)
| GltfError
| Onload (cameraMatrix : option (list F)) (configures : bool)
| Onerror.

(** The callbacks of the controller exist only once it is constructed. *)
Definition step (e : Event) (w : World) : World :=
  match e with
  | Frame currentTime run => frame currentTime run w
  | KeyDown code => keydown code w
  | KeyUp code => keyup code w
  | OverlayTimeout => with_dom (overlayTimeout w.(dom)) w
  | GltfLoaded rotation =>
      mkWorld w.(page) w.(gridPlane) (Some (modelLoaded rotation)) w.(dom)
  | GltfError =>
      mkWorld w.(page) w.(gridPlane) (Some createFallbackCar) w.(dom)
  | Onload cameraMatrix configures =>
      if w.(page).(arController) then onload cameraMatrix configures w else w
  | Onerror =>
      if w.(page).(arController) then onerror w else w
  end.

Fixpoint run (events : list Event) (w : World) : World :=
  match events with
  | [] => w
  | e :: rest => run rest (step e w)
  end.

(** The callbacks of the controller's set-up. *)
Definition isSetup (e : Event) : bool :=
  match e with
  | Onload _ _ => true
  | Onerror => true
  | _ => false
  end.

End Program.

Arguments Dom : clear implicits.
Arguments CarModel : clear implicits.
Arguments World : clear implicits.
Arguments Event : clear implicits.

End Session.

(** ** Runs of the hand-tracking variant *)

Module GestureRuns.
Import Three Gesture.
Section Program.
Context {F : Type} {num : JSNumber F}.
Local Open Scope js_scope.

(** The messages of the socket, handled one after the other. *)
Fixpoint receive (msgs : list (SteeringData F)) (g : GhostWheelAR F)
  : GhostWheelAR F :=
  match msgs with
  | [] => g
  | data :: rest => receive rest (handleHandTrackingData data g)
  end.

(** The pose array as [fixMatrix] stores it. *)
Definition converted (m : list F) : Matrix4 F :=
  stateOf (fixMatrix Matrix4_new (Some m)).

(** *** resizeCanvases

    The style a canvas gets: size and offsets in pixels, as numbers (the
    source appends 'px'). *)
Record Layout := mkLayout {
  canvasWidth : F;
  canvasHeight : F;
  offsetX : F;
  offsetY : F
}.

(** The fields the function reads and writes.  [videoCanvas] is the element
    of the page, with its pixel size and its style ([None]: as the markup
    has them).  [arCanvas] is [None] while the field is null, as the
    constructor leaves it until [setupThreeJS] runs, else the style of the
    element; [renderer] likewise, with the size it was last given. *)
Record Canvases := mkCanvases {
  videoCanvasSize : option (F * F);
  videoCanvas : option Layout;
  arCanvas : option (option Layout);
  renderer : option (option (F * F))
}.

(** The fields as the constructor leaves them. *)
Definition unset : Canvases := mkCanvases None None None None.

(** [forEach] styles the video canvas first; [canvas.style] of a null
    [arCanvas] then throws, before the renderer is reached. *)
Definition resizeCanvases (videoWidth videoHeight innerWidth innerHeight : F)
  (c : Canvases) : Completion Canvases :=
  let aspectRatio := videoWidth / videoHeight in
  let windowAspectRatio := innerWidth / innerHeight in
  let '(canvasWidth, canvasHeight) :=
    if windowAspectRatio >? aspectRatio
    then (innerHeight * aspectRatio, innerHeight)
    else (innerWidth, innerWidth / aspectRatio) in
  (* Center the canvases *)
  let offsetX := (innerWidth - canvasWidth) / lit 2 in
  let offsetY := (innerHeight - canvasHeight) / lit 2 in
  let style := mkLayout canvasWidth canvasHeight offsetX offsetY in
  match c.(arCanvas) with
  | None =>
      Throw (mkCanvases c.(videoCanvasSize) (Some style) None c.(renderer))
  | Some _ =>
      Normal (mkCanvases c.(videoCanvasSize) (Some style) (Some (Some style))
                (match c.(renderer) with
                 | Some _ => Some (Some (canvasWidth, canvasHeight))
                 | None => None
                 end))
  end.

(** *** setupVideo

    The sizes of the video and of the window when [loadedmetadata] fires. *)
Record Sizes := mkSizes {
  videoWidth : F;
  videoHeight : F;
  innerWidth : F;
  innerHeight : F
}.

(** How an awaited promise ends: it resolves, it rejects, or it stays
    pending for good. *)
Inductive Settled (A : Type) : Type :=
| Resolves (a : A)
| Rejects
| Pends (a : A).

Arguments Resolves {A} a.
Arguments Rejects {A}.
Arguments Pends {A} a.

(** [granted] says whether [getUserMedia] resolves; [metadata] is [None]
    when [loadedmetadata] never fires.  The handler sizes the video canvas,
    calls [resizeCanvases], adds the resize listener and only then calls
    [resolve]: a throw of [resizeCanvases] leaves the promise pending. *)
Definition setupVideo (granted : bool) (metadata : option Sizes)
  (c : Canvases) : Settled Canvases :=
  if granted then
    match metadata with
    | Some s =>
        let c := mkCanvases (Some (s.(videoWidth), s.(videoHeight)))
                   c.(videoCanvas) c.(arCanvas) c.(renderer) in
        match resizeCanvases s.(videoWidth) s.(videoHeight)
                s.(innerWidth) s.(innerHeight) c with
        | Normal c => Resolves c
        | Throw c => Pends c
        end
    | None => Pends c
    end
  else Rejects.

(** [setupThreeJS], on these fields: the AR canvas is looked up and the
    renderer made. *)
Definition setupThreeJS (c : Canvases) : Canvases :=
  mkCanvases c.(videoCanvasSize) c.(videoCanvas) (Some None) (Some None).

(** *** init

    What decides how [init] goes: the camera and the metadata event, whether
    [setupJSARToolKit] resolves, the messages the socket delivers while the
    model loads, and the model [loadCarModel] ends with (the loaded scene or
    the fallback box; it resolves in both cases). *)
Record Boot := mkBoot {
  cameraGranted : bool;
  metadata : option Sizes;
  toolkitResolves : bool;
  early : list (SteeringData F);
  model : CarModel F
}.

(** The scene of the loaded file, with the [rotation.y] it comes with, and
    the box of [createFallbackCar]. *)
Definition loadedCar (rotation : F) : CarModel F :=
  mkCarModel (lit 0) (lit 0) (lit 0) rotation.

Definition createFallbackCar : CarModel F :=
  mkCarModel (lit 0) (lit 0.05) (lit 0) (lit 0).

Definition with_arLoaded (g : GhostWheelAR F) : GhostWheelAR F :=
  mkGhostWheelAR g.(container) g.(car) g.(carPosition) g.(carRotation) true
    g.(lastMarkerTime) g.(markerVisible) g.(currentSteeringAngle)
    g.(handConfidence) g.(carSpeed) g.(maxSteeringAngle)
    g.(steeringSmoothing) g.(smoothedSteering).

Definition with_model (m : CarModel F) (g : GhostWheelAR F) : GhostWheelAR F :=
  mkGhostWheelAR g.(container) (Some m) g.(carPosition) g.(carRotation)
    g.(arLoaded) g.(lastMarkerTime) g.(markerVisible)
    g.(currentSteeringAngle) g.(handConfidence) g.(carSpeed)
    g.(maxSteeringAngle) g.(steeringSmoothing) g.(smoothedSteering).

(** How [init] ends: in its catch clause, at an await that never returns,
    or with the call of [startRenderLoop]. *)
Inductive Outcome : Type :=
| CaughtError
| Awaiting (c : Canvases)
| LoopStarted (g : GhostWheelAR F) (c : Canvases).

Definition init (b : Boot) : Outcome :=
  match setupVideo b.(cameraGranted) b.(metadata) unset with
  | Rejects => CaughtError
  | Pends c => Awaiting c
  | Resolves c =>
      let c := setupThreeJS c in
      (* setupJSARToolKit *)
      if negb b.(toolkitResolves) then CaughtError
      else
        let g := with_arLoaded constructed in
        (* setupWebSocket; then loadCarModel, while messages may arrive *)
        let g := receive b.(early) g in
        LoopStarted (with_model b.(model) g) c
  end.

End Program.

Arguments Layout : clear implicits.
Arguments Canvases : clear implicits.
Arguments Sizes : clear implicits.
Arguments Boot : clear implicits.
Arguments Outcome : clear implicits.

End GestureRuns.

(** ** The socket of the hand-tracking variant (setupWebSocket)

    The browser's part is the life of a socket: it is created connecting,
    may open once, and closes once, from either state; its handlers run on
    these events only.  A retry timer is what [onclose] starts. *)

Module Socket.
Import Three Gesture.
Section Program.
Context {F : Type} {num : JSNumber F}.

Inductive ReadyState : Type := CONNECTING | OPEN | CLOSED.

(** The texts of [updateHandTrackingStatus]. *)
Inductive StatusText : Type :=
| StatusInitial | Connected | Disconnected | Error_ | Failed.

(** [sockets] holds the state of every socket created so far, in the order
    of creation; [websocket] is the index of the one the field refers to;
    [retries] counts the timers of [onclose] that have not fired. *)
Record Net := mkNet {
  object : GhostWheelAR F;
  handTrackingConnected : bool;
  sockets : list ReadyState;
  websocket : option nat;
  retries : nat;
  handStatus : StatusText;
  handStatusConnected : bool
}.

(** [constructs] says whether [new WebSocket(...)] returns rather than
    throws. *)
Definition setupWebSocket (constructs : bool) (n : Net) : Net :=
  if constructs then
    mkNet n.(object) n.(handTrackingConnected)
      (n.(sockets) ++ [CONNECTING]) (Some (List.length n.(sockets)))
      n.(retries) n.(handStatus) n.(handStatusConnected)
  else
    mkNet n.(object) n.(handTrackingConnected) n.(sockets) n.(websocket)
      n.(retries) Failed false.

Fixpoint setState (i : nat) (s : ReadyState) (l : list ReadyState)
  : list ReadyState :=
  match l, i with
  | [], _ => []
  | _ :: rest, O => s :: rest
  | r :: rest, S i => r :: setState i s rest
  end.

Definition onopen (n : Net) : Net :=
  mkNet n.(object) true n.(sockets) n.(websocket) n.(retries)
    Connected true.

(** [data] is the parsed message, [None] when [JSON.parse] throws. *)
Definition onmessage (data : option (SteeringData F)) (n : Net) : Net :=
  match data with
  | Some data =>
      mkNet (handleHandTrackingData data n.(object))
        n.(handTrackingConnected) n.(sockets) n.(websocket) n.(retries)
        n.(handStatus) n.(handStatusConnected)
  | None => n
  end.

Definition onclose (n : Net) : Net :=
  mkNet n.(object) false n.(sockets) n.(websocket)
    (* Attempt to reconnect after 3 seconds *)
    (S n.(retries)) Disconnected false.

Definition onerror (n : Net) : Net :=
  mkNet n.(object) n.(handTrackingConnected) n.(sockets) n.(websocket)
    n.(retries) Error_ false.

(** The callback of a retry timer. *)
Definition retry (constructs : bool) (n : Net) : Net :=
  match n.(retries) with
  | O => n
  | S pending =>
      let n := mkNet n.(object) n.(handTrackingConnected) n.(sockets)
                 n.(websocket) pending n.(handStatus)
                 n.(handStatusConnected) in
      if negb n.(handTrackingConnected) then setupWebSocket constructs n
      else n
  end.

(** What the browser does to socket [i], and the timers. *)
Inductive Event : Type :=
| Opens (i : nat)
| Delivers (i : nat) (data : option (SteeringData F))
| Errors (i : nat)
| Closes (i : nat)
| Retry (constructs : bool).

Definition step (e : Event) (n : Net) : Net :=
  match e with
  | Opens i =>
      match nth_error n.(sockets) i with
      | Some CONNECTING =>
          let n := onopen n in
          mkNet n.(object) n.(handTrackingConnected)
            (setState i OPEN n.(sockets)) n.(websocket) n.(retries)
            n.(handStatus) n.(handStatusConnected)
      | _ => n
      end
  | Delivers i data =>
      match nth_error n.(sockets) i with
      | Some OPEN => onmessage data n
      | _ => n
      end
  | Errors i =>
      match nth_error n.(sockets) i with
      | Some CLOSED => n
      | Some _ => onerror n
      | None => n
      end
  | Closes i =>
      match nth_error n.(sockets) i with
      | Some CLOSED => n
      | Some _ =>
          let n := onclose n in
          mkNet n.(object) n.(handTrackingConnected)
            (setState i CLOSED n.(sockets)) n.(websocket) n.(retries)
            n.(handStatus) n.(handStatusConnected)
      | None => n
      end
  | Retry constructs => retry constructs n
  end.

Fixpoint run (events : list Event) (n : Net) : Net :=
  match events with
  | [] => n
  | e :: rest => run rest (step e n)
  end.

(** The object before [init] calls [setupWebSocket], and after. *)
Definition offline (g : GhostWheelAR F) : Net :=
  mkNet g false [] None 0 StatusInitial false.

Definition connect (constructs : bool) (g : GhostWheelAR F) : Net :=
  setupWebSocket constructs (offline g).

(** The sockets that are not closed, and those that are open. *)
Definition isLive (s : ReadyState) : bool :=
  match s with CLOSED => false | _ => true end.

Definition isOpen (s : ReadyState) : bool :=
  match s with OPEN => true | _ => false end.

Definition live (n : Net) : nat := List.length (filter isLive n.(sockets)).

Definition open (n : Net) : nat := List.length (filter isOpen n.(sockets)).

End Program.

Arguments Net : clear implicits.
Arguments Event : clear implicits.

End Socket.

(** ** The camera of the keyboard variant

    [initializeCameraSelection], [enumerateAndPopulateCameras],
    [startCameraStream] and [cleanup].  The two asynchronous functions are
    cut at their [await]s: a call runs up to its next [await] and is then a
    task in flight, which the browser resumes when the awaited promise
    settles; calls and resumptions of different tasks interleave freely.
    Of the dropdown the list of options is kept, not which one is selected;
    the text of the refresh button is left out. *)

Module Camera.
Import String.
Section Program.

Inductive Kind : Type := videoinput | audioinput | audiooutput.

Record Device := mkDevice {
  kind : Kind;
  deviceId : string;
  label : string
}.

(** The text of an option: [camera.label || `Camera ${index + 1}`]. *)
Inductive OptionText : Type :=
| Label (s : string)
| CameraNumber (n : nat).

(** [cameraSelect.innerHTML]: the page's markup, one of the three single
    messages, or the placeholder 'Select a camera...' followed by the
    options listed, each with its value and text. *)
Inductive Select : Type :=
| Markup
| Detecting
| NoCamerasFound
| AccessDenied
| Choices (options : list (string * OptionText)).

Inductive Caller : Type := FromChange | FromEnumerate.

(** A call in flight, by the promise it awaits. *)
Inductive Task : Type :=
| Finished
| AwaitsTempStream                (* enumerate: the first getUserMedia *)
| AwaitsDevices                   (* enumerate: enumerateDevices *)
| AwaitsStream (c : Caller)       (* startCameraStream: getUserMedia *)
| AwaitsFallback (c : Caller).    (* startCameraStream: the fallback *)

(** Streams are numbered as [getUserMedia] hands them out; [running] lists
    those with a track that has not been stopped.  [videoFile] says whether
    [video.src] was set to 'marker.webm'.  [changeTimeout] is the pending
    timer of the change handler with the device it will start.
    [startTimers] counts the pending timers of [onloadedmetadata], [starts]
    the calls of [start_processing]. *)
Record State := mkState {
  currentStream : option nat;
  running : list nat;
  created : nat;
  srcObject : option nat;
  videoFile : bool;
  availableCameras : list Device;
  isEnumerating : bool;
  isProcessingStarted : bool;
  select : Select;
  selectDisabled : bool;
  changeTimeout : option string;
  startTimers : nat;
  starts : nat;
  tasks : list Task
}.

(** The globals as declared, on the page as loaded. *)
Definition loaded : State :=
  mkState None [] 0 None false [] false false Markup false None 0 0 [].

Definition with_streams (cur : option nat) (run : list nat) (n : nat)
  (obj : option nat) (file : bool) (s : State) : State :=
  mkState cur run n obj file s.(availableCameras) s.(isEnumerating)
    s.(isProcessingStarted) s.(select) s.(selectDisabled) s.(changeTimeout)
    s.(startTimers) s.(starts) s.(tasks).

Definition with_enumeration (cams : list Device) (busy : bool) (sel : Select)
  (s : State) : State :=
  mkState s.(currentStream) s.(running) s.(created) s.(srcObject)
    s.(videoFile) cams busy s.(isProcessingStarted) sel s.(selectDisabled)
    s.(changeTimeout) s.(startTimers) s.(starts) s.(tasks).

Definition with_tasks (ts : list Task) (s : State) : State :=
  mkState s.(currentStream) s.(running) s.(created) s.(srcObject)
    s.(videoFile) s.(availableCameras) s.(isEnumerating)
    s.(isProcessingStarted) s.(select) s.(selectDisabled) s.(changeTimeout)
    s.(startTimers) s.(starts) ts.

Definition with_change (disabled : bool) (pending : option string)
  (s : State) : State :=
  mkState s.(currentStream) s.(running) s.(created) s.(srcObject)
    s.(videoFile) s.(availableCameras) s.(isEnumerating)
    s.(isProcessingStarted) s.(select) disabled pending
    s.(startTimers) s.(starts) s.(tasks).

Definition with_start (started : bool) (timers count : nat) (s : State)
  : State :=
  mkState s.(currentStream) s.(running) s.(created) s.(srcObject)
    s.(videoFile) s.(availableCameras) s.(isEnumerating) started s.(select)
    s.(selectDisabled) s.(changeTimeout) timers count s.(tasks).

Fixpoint setTask (k : nat) (t : Task) (l : list Task) : list Task :=
  match l, k with
  | [], _ => []
  | _ :: rest, O => t :: rest
  | r :: rest, S k => r :: setTask k t rest
  end.

(** [stream.getTracks().forEach(track => track.stop())]. *)
Definition stop (stream : nat) (run : list nat) : list nat :=
  filter (fun s => negb (Nat.eqb s stream)) run.

(** *** startCameraStream *)

(** Up to the first [await]: the current stream is stopped and forgotten. *)
Definition startCameraStream (c : Caller) (s : State) : State :=
  let s :=
    match s.(currentStream) with
    | Some cur =>
        with_streams None (stop cur s.(running)) s.(created) s.(srcObject)
          s.(videoFile) s
    | None => s
    end in
  with_tasks (s.(tasks) ++ [AwaitsStream c]) s.

(** A stream handed out by [getUserMedia] becomes the current one. *)
Definition adopt (s : State) : State :=
  with_streams (Some s.(created)) (s.(created) :: s.(running))
    (S s.(created)) (Some s.(created)) s.(videoFile) s.

(** What the caller does when [startCameraStream] has returned. *)
Definition returned (c : Caller) (s : State) : State :=
  match c with
  | FromChange => with_change false s.(changeTimeout) s
  | FromEnumerate =>
      (* finally *)
      with_enumeration s.(availableCameras) false s.(select) s
  end.

(** *** enumerateAndPopulateCameras *)

(** Up to the first [await]. *)
Definition enumerateAndPopulateCameras (s : State) : State :=
  if s.(isEnumerating) then s  (* prevent multiple simultaneous enumerations *)
  else
    let s := with_enumeration s.(availableCameras) true Detecting s in
    with_tasks (s.(tasks) ++ [AwaitsTempStream]) s.

Definition isVideoInput (d : Device) : bool :=
  match d.(kind) with videoinput => true | _ => false end.

Fixpoint options (index : nat) (cameras : list Device)
  : list (string * OptionText) :=
  match cameras with
  | [] => []
  | camera :: rest =>
      (camera.(deviceId),
       if String.eqb camera.(label) EmptyString
       then CameraNumber (index + 1) else Label camera.(label))
      :: options (S index) rest
  end.

(** After [enumerateDevices] has resolved with [devices], for task [k]. *)
Definition populate (k : nat) (devices : list Device) (s : State) : State :=
  let cameras := filter isVideoInput devices in
  match cameras with
  | [] =>
      (* return, through finally *)
      with_tasks (setTask k Finished s.(tasks))
        (with_enumeration cameras false NoCamerasFound s)
  | [camera] =>
      (* Auto-select and start first camera if only one available *)
      let s := with_enumeration cameras true (Choices (options 0 cameras)) s in
      startCameraStream FromEnumerate
        (with_tasks (setTask k Finished s.(tasks)) s)
  | _ =>
      with_tasks (setTask k Finished s.(tasks))
        (with_enumeration cameras false (Choices (options 0 cameras)) s)
  end.

(** The catch clause and finally. *)
Definition denied (k : nat) (s : State) : State :=
  with_tasks (setTask k Finished s.(tasks))
    (with_enumeration s.(availableCameras) false AccessDenied s).

(** *** cleanup *)
Definition cleanup (s : State) : State :=
  match s.(currentStream) with
  | Some cur =>
      with_streams None (stop cur s.(running)) s.(created) s.(srcObject)
        s.(videoFile) s
  | None => s
  end.

(** *** What happens to the page *)
Inductive Event : Type :=
| Enumerate                          (* the timers of init and of Refresh *)
| Change (value : string)            (* the dropdown's change event *)
| ChangeTimer                        (* the debounce timer fires *)
| StreamSettles (k : nat) (ok : bool)           (* a getUserMedia promise *)
| DevicesSettle (k : nat) (devices : option (list Device))
| LoadedMetadata
| StartTimer
| Cleanup.

Definition step (e : Event) (s : State) : State :=
  match e with
  | Enumerate => enumerateAndPopulateCameras s
  | Change value =>
      if negb (String.eqb value EmptyString) && negb s.(isEnumerating)
      then with_change s.(selectDisabled) (Some value) s
      else s
  | ChangeTimer =>
      match s.(changeTimeout) with
      | Some _ =>
          startCameraStream FromChange (with_change true None s)
      | None => s
      end
  | StreamSettles k ok =>
      match nth_error s.(tasks) k with
      | Some AwaitsTempStream =>
          if ok then
            (* the temporary stream is stopped at once *)
            with_tasks (setTask k AwaitsDevices s.(tasks))
              (with_streams s.(currentStream) s.(running) (S s.(created))
                 s.(srcObject) s.(videoFile) s)
          else denied k s
      | Some (AwaitsStream c) =>
          if ok then
            returned c (with_tasks (setTask k Finished s.(tasks)) (adopt s))
          else with_tasks (setTask k (AwaitsFallback c) s.(tasks)) s
      | Some (AwaitsFallback c) =>
          let s := with_tasks (setTask k Finished s.(tasks)) s in
          if ok then returned c (adopt s)
          else
            returned c
              (with_streams s.(currentStream) s.(running) s.(created)
                 s.(srcObject) true s)
      | _ => s
      end
  | DevicesSettle k devices =>
      match nth_error s.(tasks) k with
      | Some AwaitsDevices =>
          match devices with
          | Some devices => populate k devices s
          | None => denied k s
          end
      | _ => s
      end
  | LoadedMetadata =>
      if negb s.(isProcessingStarted)
      then with_start s.(isProcessingStarted) (S s.(startTimers)) s.(starts) s
      else s
  | StartTimer =>
      match s.(startTimers) with
      | O => s
      | S pending => with_start true pending (S s.(starts)) s
      end
  | Cleanup => cleanup s
  end.

Fixpoint run (events : list Event) (s : State) : State :=
  match events with
  | [] => s
  | e :: rest => run rest (step e s)
  end.

(** The tasks of [enumerateAndPopulateCameras] in flight (its call of
    [startCameraStream] included), and those of [startCameraStream]. *)
Definition isEnumeration (t : Task) : bool :=
  match t with
  | AwaitsTempStream | AwaitsDevices => true
  | AwaitsStream FromEnumerate | AwaitsFallback FromEnumerate => true
  | _ => false
  end.

Definition isStart (t : Task) : bool :=
  match t with
  | AwaitsStream _ | AwaitsFallback _ => true
  | _ => false
  end.

Definition enumerations (s : State) : nat :=
  List.length (filter isEnumeration s.(tasks)).

Definition startsInFlight (s : State) : nat :=
  List.length (filter isStart s.(tasks)).

(** No call of [startCameraStream] begins while another is in flight, all
    along the run. *)
Fixpoint oneStartAtATime (events : list Event) (s : State) : Prop :=
  (startsInFlight s <= 1)%nat /\
  match events with
  | [] => True
  | e :: rest => oneStartAtATime rest (step e s)
  end.

End Program.
End Camera.

(** ** Real numbers as JavaScript numbers (exact arithmetic) *)

Definition Rgtb (a b : R) : bool := if Rlt_dec b a then true else false.
Definition Rgeb (a b : R) : bool := if Rle_dec b a then true else false.
Definition Rtruthy (a : R) : bool := if Req_dec_T a 0 then false else true.
Definition Rsign (a : R) : R :=
  if Rlt_dec 0 a then 1%R else if Rlt_dec a 0 then (-1)%R else 0%R.

#[export] Instance RNumber : JSNumber R := {
  lit := Q2R;
  add := Rplus;
  sub := Rminus;
  mul := Rmult;
  div := Rdiv;
  neg := Ropp;
  sqr := fun a => (a * a)%R;
  gtb := Rgtb;
  geb := Rgeb;
  truthy := Rtruthy;
  Math_abs := Rabs;
  Math_sign := Rsign;
  Math_sqrt := sqrt;
  Math_sin := sin;
  Math_cos := cos;
  Math_PI := PI
}.

(** ** binary64 numbers as JavaScript numbers

    The kernel's floating-point numbers are the doubles of JavaScript.  The
    language leaves [Math.sin] and [Math.cos] to the implementation, so the
    instance takes them as arguments. *)

Module Binary64.

Module Constants.
Import PrimFloat.
(** [Math.PI], the double nearest to pi. *)
Definition PI : float := 0x1.921fb54442d18p+1%float.
(** The speed the forward run reaches after 100 ticks, about 0.22665. *)
Definition speed100 : float := 0x1.d02df0118583dp-3%float.
End Constants.

Definition ofZ (n : Z) : PrimFloat.float :=
  match n with
  | Z0 => PrimFloat.zero
  | Zpos _ => PrimFloat.of_uint63 (Uint63.of_Z n)
  | Zneg p => PrimFloat.opp (PrimFloat.of_uint63 (Uint63.of_Z (Zpos p)))
  end.

(** A decimal literal: the quotient of two exactly represented integers,
    rounded once, is the double nearest to the decimal. *)
Definition ofQ (q : Q) : PrimFloat.float :=
  PrimFloat.div (ofZ (Qnum q)) (ofZ (Zpos (Qden q))).

Definition signOf (a : PrimFloat.float) : PrimFloat.float :=
  if PrimFloat.ltb PrimFloat.zero a then PrimFloat.one
  else if PrimFloat.ltb a PrimFloat.zero then PrimFloat.opp PrimFloat.one
  else a.

Definition isTruthy (a : PrimFloat.float) : bool :=
  negb (PrimFloat.eqb a PrimFloat.zero) && PrimFloat.eqb a a.

Definition number (fsin fcos : PrimFloat.float -> PrimFloat.float)
  : JSNumber PrimFloat.float := {|
  lit := ofQ;
  add := PrimFloat.add;
  sub := PrimFloat.sub;
  mul := PrimFloat.mul;
  div := PrimFloat.div;
  neg := PrimFloat.opp;
  sqr := fun a => PrimFloat.mul a a;
  gtb := fun a b => PrimFloat.ltb b a;
  geb := fun a b => PrimFloat.leb b a;
  truthy := isTruthy;
  Math_abs := PrimFloat.abs;
  Math_sign := signOf;
  Math_sqrt := PrimFloat.sqrt;
  Math_sin := fsin;
  Math_cos := fcos;
  Math_PI := Constants.PI
|}.

(** The instance that answers 0 and 1 for every sine and cosine: enough to
    run a car that never turns away from heading 0. *)
Definition heading0 : JSNumber PrimFloat.float :=
  number (fun _ => PrimFloat.zero) (fun _ => PrimFloat.one).

(** A car that keeps its heading 0: no steering key is held. *)
Definition straight (cs : Wasd.CarSystem PrimFloat.float) : Prop :=
  Wasd.rotation cs = PrimFloat.zero /\
  Wasd.left (Wasd.keys cs) = false /\ Wasd.right (Wasd.keys cs) = false.

(** No tick among the first [n] of the forward run fires the speed limit. *)
Definition neverClamps (n : nat) : bool :=
  forallb
    (fun k => negb (Wasd.clampFires (num := heading0)
                      (iterate k (Wasd.updateCarPhysics (num := heading0))
                         (Wasd.fromRest (num := heading0)))))
    (seq 0 n).

End Binary64.

(** ** Concrete states over the real numbers *)

Module Examples.
Import Three Wasd.
Local Open Scope R_scope.

(** The forward speed after one more tick: thrust, then friction. *)
Definition cruiseStep (v : R) : R := (v + 12/1000) * (95/100).

(** A car driving straight ahead at speed [v] with the configured
    parameters and only the forward key held. *)
Definition cruising (v : R) (cs : CarSystem R) : Prop :=
  velocity cs = mkXZ 0 v /\ rotation cs = 0 /\ speed cs = v /\
  keys cs = forwardOnly /\ acceleration cs = 12/1000 /\
  maxSpeed cs = 40/100 /\ friction cs = 95/100.

(** The parameters are those of the source. *)
Definition configured (cs : CarSystem R) : Prop :=
  acceleration cs = lit 0.012 /\ maxSpeed cs = lit 0.40 /\
  friction cs = lit 0.95 /\ brakeForce cs = lit 0.85.

(** A car faster than the limit: velocity (0, 1), no key held. *)
Definition overdrive : CarSystem R := set_velocity (mkXZ 0 1) carSystem.

(** A car at rest with the left key held. *)
Definition steeringAtRest : CarSystem R :=
  set_keys (mkKeys false false true false false) carSystem.

(** The identity pose, as the recogniser's sixteen numbers. *)
Definition identityPose : list R :=
  [1; 0; 0; 0;  0; 1; 0; 0;  0; 0; 1; 0;  0; 0; 0; 1].

(** The state after marker 7 was detected at time 1 with the identity pose. *)
Definition anchored : ArSystem R :=
  stateOf (handleMarkerDetection 1 (mkMarkerEvent 7 (Some identityPose)) arSystem).

(** A page in its initial state with the recogniser loaded (a new
    [Object3D] is visible until the first frame hides it). *)
Definition page : Page R :=
  mkPage carSystem arSystem (mkObject3D true Matrix4_new) true true 0.

(** The hand-tracking program with the recogniser and a car model loaded, and
    the same with the marker in view. *)
Definition loaded : Gesture.GhostWheelAR R :=
  Gesture.mkGhostWheelAR (mkObject3D false Matrix4_new)
    (Some (Gesture.mkCarModel 0 0 0 0)) (Gesture.mkXZ 0 0) 0 true 0 false
    0 0 (2/1000) 45 (1/10) 0.

Definition tracking : Gesture.GhostWheelAR R :=
  stateOf (Gesture.handleMarkerDetection 1000
             (mkMarkerEvent 7 (Some identityPose)) loaded).

(** A steering message with angle 10 and confidence 0.5. *)
Definition lowConfidence : Gesture.SteeringData R :=
  Gesture.mkSteeringData (Some 10) (Some (1/2)).

End Examples.

(** ** More concrete states over the real numbers *)

Module MoreExamples.
Import Three Wasd Examples.
Local Open Scope R_scope.

(** The parameters are those of the source and the velocity is at most
    0.228 in magnitude. *)
Definition withinTopSpeed (cs : CarSystem R) : Prop :=
  configured cs /\ magnitude (velocity cs) <= 228/1000.

(** A car rolling backward faster than the limit, no key held. *)
Definition reversing : CarSystem R := set_velocity (mkXZ 0 (-1)) carSystem.

(** Only the left key, and both steering keys. *)
Definition leftOnly : Keys := mkKeys false false true false false.
Definition bothSteer : Keys := mkKeys false false true true false.

(** A car drifting at velocity (0.1, 0.2) with both steering keys held. *)
Definition drifting : CarSystem R :=
  set_keys bothSteer (set_velocity (mkXZ (1/10) (2/10)) carSystem).

(** A car at speed 0.2 with heading 0.1 and both steering keys held, over
    the real numbers and in binary64. *)
Definition spinning : CarSystem R :=
  set_keys bothSteer
    (set_speed (2/10)
       (set_velocity (mkXZ 0 (2/10)) (set_rotation (1/10) carSystem))).

Definition spinning64 : CarSystem PrimFloat.float :=
  set_keys bothSteer
    (set_speed (@lit _ Binary64.heading0 0.2%Q)
       (set_velocity
          (mkXZ (@lit _ Binary64.heading0 0%Q) (@lit _ Binary64.heading0 0.2%Q))
          (set_rotation (@lit _ Binary64.heading0 0.1%Q)
             (carSystem (num := Binary64.heading0))))).

End MoreExamples.

(** ** Concrete pages and recogniser runs *)

Module PageExamples.
Import Three Wasd Examples.
Local Open Scope R_scope.

(** A frame's detections: a "no marker" event, then marker 7 with the
    identity pose, then marker 9 with an empty pose. *)
Definition sentinelEvent : MarkerEvent R := mkMarkerEvent (-1) (Some identityPose).
Definition marker7 : MarkerEvent R := mkMarkerEvent 7 (Some identityPose).
Definition marker9 : MarkerEvent R := mkMarkerEvent 9 (Some []).

(** The initial page after marker 7 anchored it. *)
Definition anchoredPage : Page R :=
  mkPage carSystem anchored (mkObject3D true Matrix4_new) true true 0.

End PageExamples.

(** ** What holds of the page of the keyboard variant at all times *)

Module SessionInvariant.
Import Three Wasd Session.
Section Program.
Context {F : Type} {num : JSNumber F}.

(** The two phase flags are each other's negation, and an established plane
    is an initialised one. *)
Definition flagsAgree (a : ArSystem F) : Prop :=
  planeEstablished a = negb (searchingForMarker a) /\
  (planeEstablished a = true -> initialized a = true).

(** A shown overlay has a timer that will hide it. *)
Definition overlayTimed (d : Dom) : Prop :=
  forall o, overlay d = Some o -> displayed o = true -> (0 < timeouts d)%nat.

(** The grid exists, and its label, once written, says what the grid does. *)
Definition gridLabelled (w : World F) : Prop :=
  exists v, gridPlane w = Some v /\
            (gridStatus (dom w) = None \/ gridStatus (dom w) = Some v).

Definition Consistent (w : World F) : Prop :=
  flagsAgree (ar (page w)) /\
  (arLoaded (page w) = true -> arController (page w) = true) /\
  overlayTimed (dom w) /\
  gridLabelled w.

(** The page without recogniser that is searching: nothing is established or
    initialised. *)
Definition lostPlane (w : World F) : Prop :=
  arLoaded (page w) = false /\
  planeEstablished (ar (page w)) = false /\
  searchingForMarker (ar (page w)) = true /\
  initialized (ar (page w)) = false.

(** The call of [onload] that switches the recogniser on. *)
Definition enables (e : Event F) : Prop :=
  exists m, e = Onload (Some m) true /\ List.length m = 16%nat.

End Program.
End SessionInvariant.

(** ** Concrete runs of the page over the real numbers *)

Module SessionExamples.
Import Three Wasd Session.
Local Open Scope R_scope.

(** A call of the recogniser that detects nothing. *)
Definition idle : ProcessRun R := mkProcessRun [] false.

(** The page without [ARController], once the model has failed to load and
    the fallback car stands in, after one frame. *)
Definition fallbackPage : World R :=
  frame 0 idle (run [GltfError] (start_processing ControllerUndefined)).

(** What the car model of that page has to show. *)
Definition shownCar : CarModel R :=
  mkCarModel (x (position (car (page fallbackPage)))) (lit 0.1)
    (z (position (car (page fallbackPage))))
    (rotation (car (page fallbackPage))).

(** The page with a controller, with the forward key held. *)
Definition throttled : World R :=
  step (KeyDown KeyW) (start_processing Constructed).

(** The page with a controller, after a press of R. *)
Definition resetOnce : World R :=
  step (KeyDown KeyR) (start_processing Constructed).

End SessionExamples.

(** ** Concrete runs of the hand-tracking variant over the real numbers *)

Module GestureExamples.
Import Three Gesture GestureRuns Examples PageExamples.
Local Open Scope R_scope.

(** A steering message with angle 10 and confidence 0.9. *)
Definition confident : SteeringData R := mkSteeringData (Some 10) (Some (9/10)).

(** The canvases once [setupThreeJS] has run. *)
Definition ready : Canvases R := setupThreeJS unset.

End GestureExamples.

(** ** What holds of the socket at all times *)

Module SocketInvariant.
Import Socket.
Section Program.
Context {F : Type} {num : JSNumber F}.

(** At most one socket or retry timer is alive, and the flag says whether a
    socket is open. *)
Definition Single (n : Net F) : Prop :=
  (live n + retries n <= 1)%nat /\
  (open n <= live n)%nat /\
  (handTrackingConnected n = true <-> open n = 1%nat).

End Program.
End SocketInvariant.

(** ** What holds of the camera at all times *)

Module CameraInvariant.
Import Camera.

(** The flag is set exactly while one enumeration is in flight. *)
Definition Locked (s : State) : Prop :=
  (enumerations s <= 1)%nat /\
  (isEnumerating s = true <-> enumerations s = 1%nat).

(** The streams the program can still stop. *)
Definition held (s : State) : list nat :=
  match currentStream s with
  | Some c => [c]
  | None => []
  end.

(** Every running stream is held, and none is held while a start is in
    flight. *)
Definition Tracked (s : State) : Prop :=
  running s = held s /\
  ((1 <= startsInFlight s)%nat -> currentStream s = None).

End CameraInvariant.

(** ** A concrete run of the camera *)

Module CameraExamples.
Import String Camera.
Local Open Scope string_scope.

(** One camera without label, and a microphone. *)
Definition webcam : Device := mkDevice videoinput "cam0" "".
Definition microphone : Device := mkDevice audioinput "mic0" "Microphone".

(** The enumeration finds the one camera and starts it; the page is then
    left. *)
Definition oneCamera : list Event :=
  [Enumerate; StreamSettles 0 true;
   DevicesSettle 0 (Some [microphone; webcam]);
   StreamSettles 1 true; LoadedMetadata; StartTimer; Cleanup].

End CameraExamples.

(** * Theorems *)

(** ** The integrator, for every number system *)

Section CarPhysicsGeneric.
Context {F : Type} {num : JSNumber F}.
Import Wasd.
Local Open Scope js_scope.

Lemma step2_brake_eq (cs : CarSystem F) :
  step2_brake cs =
  set_velocity (if cs.(keys).(brake) then scale cs.(brakeForce) cs.(velocity)
                else cs.(velocity)) cs.
Proof.
  unfold step2_brake. destruct cs as [p v r s a m t f b k]; cbn.
  destruct (brake k); reflexivity.
Qed.

Lemma step3_steer_eq (cs : CarSystem F) :
  step3_steer cs = set_rotation (steeredRotation cs) cs.
Proof.
  unfold step3_steer, steeredRotation, canTurn.
  destruct cs as [p v r s a m t f b [kf kb kl kr kk]]; cbn.
  destruct (gtb (Math_abs s) (lit 0.01)) eqn:Hturn; destruct kl, kr;
    cbn; rewrite ?Hturn; reflexivity.
Qed.

(** The source function is the composition of the seven updates. *)
Lemma updateCarPhysics_integrate (cs : CarSystem F) :
  updateCarPhysics cs = integrate cs.
Proof.
  unfold integrate, beforeClamp.
  rewrite step3_steer_eq, step2_brake_eq.
  destruct cs as [[px pz] [vx vz] r s a m t f b [kf kb kl kr kk]].
  unfold updateCarPhysics, step7_move, step6_clamp, step5_friction,
    step4_thrust, step1_accel, steeredRotation, magnitude.
  cbn [keys brake left right forward backward speed set_rotation set_velocity
       set_speed set_position velocity rotation position acceleration maxSpeed
       turnSpeed friction brakeForce scale x z].
  destruct kk; cbn [scale x z];
  match goal with
  | |- context [if gtb ?a ?b then _ else _] => destruct (gtb a b)
  end; reflexivity.
Qed.

Lemma velocity_step6_clamp (cs : CarSystem F) :
  velocity (step6_clamp cs) =
  if magnitude cs.(velocity) >? cs.(maxSpeed)
  then scale (cs.(maxSpeed) / magnitude cs.(velocity)) cs.(velocity)
  else cs.(velocity).
Proof.
  unfold step6_clamp.
  destruct (magnitude (velocity cs) >? maxSpeed cs); reflexivity.
Qed.

Lemma speed_step6_clamp (cs : CarSystem F) :
  speed (step6_clamp cs) =
  if magnitude cs.(velocity) >? cs.(maxSpeed)
  then cs.(maxSpeed) else magnitude cs.(velocity).
Proof.
  unfold step6_clamp.
  destruct (magnitude (velocity cs) >? maxSpeed cs); reflexivity.
Qed.

Lemma maxSpeed_beforeClamp (cs : CarSystem F) :
  maxSpeed (beforeClamp cs) = maxSpeed cs.
Proof.
  unfold beforeClamp. rewrite step3_steer_eq, step2_brake_eq. reflexivity.
Qed.

Lemma rotation_beforeClamp (cs : CarSystem F) :
  rotation (beforeClamp cs) = steeredRotation cs.
Proof.
  unfold beforeClamp. rewrite step3_steer_eq, step2_brake_eq. reflexivity.
Qed.

Lemma velocity_updateCarPhysics (cs : CarSystem F) :
  velocity (updateCarPhysics cs) = velocity (step6_clamp (beforeClamp cs)).
Proof. rewrite updateCarPhysics_integrate. reflexivity. Qed.

Lemma speed_updateCarPhysics (cs : CarSystem F) :
  speed (updateCarPhysics cs) = speed (step6_clamp (beforeClamp cs)).
Proof. rewrite updateCarPhysics_integrate. reflexivity. Qed.

Lemma rotation_updateCarPhysics (cs : CarSystem F) :
  rotation (updateCarPhysics cs) = steeredRotation cs.
Proof.
  rewrite updateCarPhysics_integrate. unfold integrate.
  transitivity (rotation (beforeClamp cs)); [|apply rotation_beforeClamp].
  unfold step7_move, step6_clamp.
  destruct (magnitude (velocity (beforeClamp cs)) >? maxSpeed (beforeClamp cs));
    reflexivity.
Qed.

(** The velocity after a tick in terms of the state before the clamp. *)
Lemma velocity_clamped (cs : CarSystem F) :
  velocity (updateCarPhysics cs) =
  if clampFires cs
  then scale (cs.(maxSpeed) / magnitude (velocity (beforeClamp cs)))
         (velocity (beforeClamp cs))
  else velocity (beforeClamp cs).
Proof.
  rewrite velocity_updateCarPhysics, velocity_step6_clamp, maxSpeed_beforeClamp.
  reflexivity.
Qed.

(** Whatever the numbers are, the heading is left alone as soon as the test
    [Math.abs(speed) > 0.01] of the source fails. *)
Lemma steeredRotation_deadzone (cs : CarSystem F) :
  (Math_abs cs.(speed) >? lit 0.01) = false ->
  steeredRotation cs = rotation cs.
Proof.
  intros H. unfold steeredRotation. rewrite H, !andb_false_r. reflexivity.
Qed.

(** Without a steering key the heading is left alone. *)
Lemma steeredRotation_no_key (cs : CarSystem F) :
  left (keys cs) = false -> right (keys cs) = false ->
  steeredRotation cs = rotation cs.
Proof. intros Hl Hr. unfold steeredRotation. rewrite Hl, Hr. reflexivity. Qed.

End CarPhysicsGeneric.

(** ** The integrator over the real numbers *)

(** The operations of the interface, at the real numbers, by their names. *)
Ltac real_ops :=
  cbn [lit add sub mul div neg sqr Math_abs Math_sqrt Math_sin Math_cos
       RNumber] in *.

(** The value of a literal, for [lra]. *)
Ltac real_lits := real_ops; unfold Q2R in *; cbn [Qnum Qden] in *.

Section CarPhysicsReal.
Import Wasd Examples.
Local Open Scope R_scope.

Lemma Rgtb_true (a b : R) : gtb a b = true <-> b < a.
Proof.
  cbn; unfold Rgtb; destruct (Rlt_dec b a); split; intros; try easy.
Qed.

Lemma Rgtb_false (a b : R) : gtb a b = false <-> a <= b.
Proof.
  cbn; unfold Rgtb; destruct (Rlt_dec b a); split; intros; try easy; lra.
Qed.

Lemma magnitude_nonneg (v : XZ R) : 0 <= magnitude v.
Proof. unfold magnitude. apply sqrt_pos. Qed.

Lemma magnitude_scale (k : R) (v : XZ R) :
  0 <= k -> magnitude (scale k v) = k * magnitude v.
Proof.
  intros Hk. unfold magnitude, scale; cbn.
  replace (x v * k * (x v * k) + z v * k * (z v * k))
    with (k * k * (x v * x v + z v * z v)) by ring.
  rewrite sqrt_mult_alt by nra. rewrite sqrt_square by exact Hk. reflexivity.
Qed.

Lemma magnitude_forward (w : R) : 0 <= w -> magnitude (mkXZ 0 w) = w.
Proof.
  intros Hw. unfold magnitude; cbn.
  replace (0 * 0 + w * w) with (w * w) by ring. apply sqrt_square, Hw.
Qed.

(** When the limit fires, the rescaled velocity has magnitude [maxSpeed]
    and the direction it had. *)
Lemma clamp_exact (cs : CarSystem R) :
  0 <= maxSpeed cs -> clampFires cs = true ->
  let pre := velocity (beforeClamp cs) in
  let ratio := maxSpeed cs / magnitude pre in
  velocity (updateCarPhysics cs) = scale ratio pre /\
  0 <= ratio /\ (0 < maxSpeed cs -> 0 < ratio) /\
  magnitude (velocity (updateCarPhysics cs)) = maxSpeed cs.
Proof.
  intros HM Hf pre ratio.
  pose proof (velocity_clamped cs) as Hv. rewrite Hf in Hv. fold pre ratio in Hv.
  unfold clampFires in Hf. apply Rgtb_true in Hf. fold pre in Hf.
  assert (Hr : 0 <= ratio) by (unfold ratio; apply Rle_mult_inv_pos; lra).
  repeat split; try assumption.
  - intros HM'. unfold ratio. apply Rdiv_lt_0_compat; lra.
  - rewrite Hv, magnitude_scale by exact Hr. real_ops. field. lra.
Qed.

Lemma speed_within_limit (cs : CarSystem R) :
  magnitude cs.(velocity) <= cs.(maxSpeed) ->
  let pre := velocity (beforeClamp cs) in
  let after := velocity (updateCarPhysics cs) in
  magnitude after <= cs.(maxSpeed) /\
  (cs.(maxSpeed) < magnitude pre ->
   let ratio := cs.(maxSpeed) / magnitude pre in
   after = scale ratio pre /\
   0 <= ratio /\ (0 < cs.(maxSpeed) -> 0 < ratio) /\
   magnitude after = cs.(maxSpeed)).
Proof.
  intros H0 pre after.
  assert (HM : 0 <= maxSpeed cs)
    by (pose proof (magnitude_nonneg (velocity cs)); lra).
  assert (Hclamp : maxSpeed cs < magnitude pre ->
                   let ratio := maxSpeed cs / magnitude pre in
                   after = scale ratio pre /\
                   0 <= ratio /\ (0 < maxSpeed cs -> 0 < ratio) /\
                   magnitude after = maxSpeed cs).
  { intros Hgt. apply clamp_exact; [exact HM|].
    unfold clampFires. apply Rgtb_true. exact Hgt. }
  split; [|exact Hclamp].
  destruct (Rlt_dec (maxSpeed cs) (magnitude pre)) as [Hgt|Hle].
  - destruct (Hclamp Hgt) as (_ & _ & _ & ->). lra.
  - assert (Hf : clampFires cs = false)
      by (unfold clampFires; apply Rgtb_false; fold pre; lra).
    unfold after. rewrite velocity_clamped, Hf. fold pre. lra.
Qed.

Lemma deadzone_heading_real (cs : CarSystem R) :
  Math_abs cs.(speed) <= lit 0.01 ->
  rotation (updateCarPhysics cs) = rotation cs.
Proof.
  intros H. rewrite rotation_updateCarPhysics.
  apply steeredRotation_deadzone. apply Rgtb_false. exact H.
Qed.

(** *** The speed field, and the limit under the parameters of the source *)

(** After a tick the stored speed is the magnitude of the velocity. *)
Lemma speed_is_magnitude (cs : CarSystem R) :
  0 <= maxSpeed cs ->
  speed (updateCarPhysics cs) = magnitude (velocity (updateCarPhysics cs)).
Proof.
  intros HM.
  rewrite speed_updateCarPhysics, speed_step6_clamp, maxSpeed_beforeClamp.
  fold (clampFires cs).
  destruct (clampFires cs) eqn:Hf.
  - destruct (clamp_exact cs HM Hf) as (_ & _ & _ & ->). reflexivity.
  - rewrite velocity_clamped, Hf. reflexivity.
Qed.

(** Thrust of size [a] along a unit vector lengthens a velocity by at most [a]. *)
Lemma thrust_bound (vx vz a s c M : R) :
  s * s + c * c = 1 -> 0 <= M -> 0 <= a ->
  vx * vx + vz * vz <= M * M ->
  (vx + a * s) * (vx + a * s) + (vz + a * c) * (vz + a * c) <= (M + a) * (M + a).
Proof.
  intros Hsc HM Ha Hv.
  assert (Hcs : (vx * s + vz * c) * (vx * s + vz * c) <= M * M).
  { assert (Hl : (vx * s + vz * c) * (vx * s + vz * c) =
                 (vx * vx + vz * vz) * (s * s + c * c)
                 - (vx * c - vz * s) * (vx * c - vz * s)) by ring.
    rewrite Hl, Hsc. pose proof (Rle_0_sqr (vx * c - vz * s)) as Hq.
    unfold Rsqr in Hq. lra. }
  assert (Hd : vx * s + vz * c <= M) by nra.
  nra.
Qed.

Lemma sqrt_le_bound (a b : R) : 0 <= b -> a <= b * b -> sqrt a <= b.
Proof.
  intros Hb Ha. rewrite <- (sqrt_square b) by exact Hb.
  apply sqrt_le_1_alt. exact Ha.
Qed.

Lemma magnitude_sqr (v : XZ R) :
  x v * x v + z v * z v = magnitude v * magnitude v.
Proof.
  unfold magnitude; cbn. rewrite sqrt_sqrt; [reflexivity|nra].
Qed.

Lemma beforeClamp_bound (vx vz a s c f M : R) :
  s * s + c * c = 1 -> vx * vx + vz * vz <= M * M -> 0 <= M <= 4/10 ->
  - (12/1000) <= a <= 12/1000 -> f = 95/100 ->
  (vx + a * s) * f * ((vx + a * s) * f) + (vz + a * c) * f * ((vz + a * c) * f)
  <= 4/10 * (4/10).
Proof.
  intros Hsc Hv HM Ha ->.
  assert (Hb : (vx + a * s) * (vx + a * s) + (vz + a * c) * (vz + a * c)
               <= (M + 12/1000) * (M + 12/1000)).
  { destruct (Rle_dec 0 a) as [Hpos|Hneg].
    - apply Rle_trans with ((M + a) * (M + a)); [|nra].
      apply thrust_bound; try assumption; lra.
    - apply Rle_trans with ((M + - a) * (M + - a)); [|nra].
      replace (vx + a * s) with (vx + - a * - s) by ring.
      replace (vz + a * c) with (vz + - a * - c) by ring.
      apply thrust_bound; try assumption; lra. }
  nra.
Qed.

(** With the parameters of the source, a velocity within the limit stays
    below it: the limit does not fire. *)
Lemma configured_never_clamps (cs : CarSystem R) :
  configured cs -> magnitude (velocity cs) <= maxSpeed cs ->
  clampFires cs = false.
Proof.
  intros (Ha & Hm & Hf & Hb) Hv.
  unfold clampFires. apply Rgtb_false.
  pose proof (magnitude_nonneg (velocity cs)) as H0.
  pose proof (magnitude_sqr (velocity cs)) as Hsq.
  pose proof (sin2_cos2 (steeredRotation cs)) as Hsc. unfold Rsqr in Hsc.
  unfold beforeClamp. rewrite step3_steer_eq, step2_brake_eq.
  unfold step5_friction, step4_thrust, step1_accel, scale, magnitude.
  cbn [velocity set_velocity set_rotation rotation keys friction acceleration
       brakeForce x z maxSpeed].
  rewrite Ha, Hm, Hf, Hb in *. real_lits.
  apply sqrt_le_bound; [lra|].
  replace (40 * / 100 * (40 * / 100)) with (4/10 * (4/10)) by lra.
  destruct (brake (keys cs)), (forward (keys cs)), (backward (keys cs));
    cbn [x z];
    apply beforeClamp_bound with (M := magnitude (velocity cs));
    try exact Hsc; try lra; nra.
Qed.

End CarPhysicsReal.

(** C2.  In real arithmetic: from a state whose velocity is within the
    limit, one call of [updateCarPhysics] leaves a velocity within the limit;
    and when the velocity before the clamp exceeds [maxSpeed], both
    components are multiplied by the one ratio [maxSpeed / speed], which is
    not negative (positive when [maxSpeed] is), so the direction is kept, and
    the magnitude becomes exactly [maxSpeed].  In every number system: when
    the limit fires the velocity is the one before the clamp with both
    components multiplied by [maxSpeed / speed], and the stored speed is
    exactly [maxSpeed]; when it does not fire the velocity is the one before
    the clamp and the stored speed is its magnitude. *)
Theorem speed_clamp :
  (forall cs : Wasd.CarSystem R,
      (Wasd.magnitude (Wasd.velocity cs) <= Wasd.maxSpeed cs)%R ->
      let pre := Wasd.velocity (Wasd.beforeClamp cs) in
      let after := Wasd.velocity (Wasd.updateCarPhysics cs) in
      (Wasd.magnitude after <= Wasd.maxSpeed cs)%R /\
      ((Wasd.maxSpeed cs < Wasd.magnitude pre)%R ->
       let ratio := (Wasd.maxSpeed cs / Wasd.magnitude pre)%R in
       after = Wasd.scale ratio pre /\
       (0 <= ratio)%R /\ ((0 < Wasd.maxSpeed cs)%R -> (0 < ratio)%R) /\
       Wasd.magnitude after = Wasd.maxSpeed cs)) /\
  (forall (F : Type) (num : JSNumber F) (cs : Wasd.CarSystem F),
      let pre := Wasd.velocity (Wasd.beforeClamp cs) in
      let after := Wasd.updateCarPhysics cs in
      if Wasd.clampFires cs
      then Wasd.velocity after =
             Wasd.scale (div (Wasd.maxSpeed cs) (Wasd.magnitude pre)) pre /\
           Wasd.speed after = Wasd.maxSpeed cs
      else Wasd.velocity after = pre /\
           Wasd.speed after = Wasd.magnitude pre).
Proof.
  split.
  - exact speed_within_limit.
  - intros F num cs pre after. unfold after.
    rewrite velocity_clamped, speed_updateCarPhysics, speed_step6_clamp,
      maxSpeed_beforeClamp.
    fold (Wasd.clampFires cs). fold pre.
    destruct (Wasd.clampFires cs); split; reflexivity.
Qed.

(** C8.  In real arithmetic: when the stored speed is at or below the turn
    dead zone (0.01 in absolute value), one call of [updateCarPhysics]
    returns the heading it was given, whatever keys are held.  In every
    number system: the heading is returned as it was whenever the test
    [Math.abs(speed) > 0.01] of the source fails. *)
Theorem deadzone_heading :
  (forall cs : Wasd.CarSystem R,
      (Math_abs (Wasd.speed cs) <= lit 0.01)%R ->
      Wasd.rotation (Wasd.updateCarPhysics cs) = Wasd.rotation cs) /\
  (forall (F : Type) (num : JSNumber F) (cs : Wasd.CarSystem F),
      gtb (Math_abs (Wasd.speed cs)) (lit 0.01) = false ->
      Wasd.rotation (Wasd.updateCarPhysics cs) = Wasd.rotation cs).
Proof.
  split.
  - exact deadzone_heading_real.
  - intros F num cs H. rewrite rotation_updateCarPhysics.
    apply steeredRotation_deadzone. exact H.
Qed.

(** C1.  For every number system and every state (held keys included),
    [updateCarPhysics] is the seven updates in their order: the scalar
    acceleration (forward wins), braking, steering by
    [turnSpeed * sign speed] outside the dead zone, thrust along the
    heading, friction, the speed limit, and the move.  Over the real numbers
    the rescaling of the sixth update leaves a velocity of magnitude exactly
    [maxSpeed], for a limit that is not negative. *)
Theorem updateCarPhysics_order :
  (forall (F : Type) (num : JSNumber F) (cs : Wasd.CarSystem F),
      Wasd.updateCarPhysics cs =
      Wasd.step7_move
        (Wasd.step6_clamp
           (Wasd.step5_friction
              (Wasd.step4_thrust (Wasd.step1_accel cs)
                 (Wasd.step3_steer (Wasd.step2_brake cs)))))) /\
  (forall cs : Wasd.CarSystem R,
      (0 <= Wasd.maxSpeed cs)%R -> Wasd.clampFires cs = true ->
      Wasd.magnitude (Wasd.velocity (Wasd.updateCarPhysics cs)) =
      Wasd.maxSpeed cs).
Proof.
  split.
  - intros F num cs. apply updateCarPhysics_integrate.
  - intros cs HM Hf. apply (clamp_exact cs HM Hf).
Qed.

(** ** The forward run: 100 ticks from rest *)

Section ForwardRunReal.
Import Wasd Examples.
Local Open Scope R_scope.

Lemma cruising_fromRest : cruising 0 fromRest.
Proof.
  unfold cruising, fromRest, carSystem; cbn; unfold Q2R; cbn.
  repeat split; try lra; try (f_equal; lra).
Qed.

Lemma beforeClamp_cruising (v : R) (cs : CarSystem R) :
  cruising v cs -> velocity (beforeClamp cs) = mkXZ 0 (cruiseStep v).
Proof.
  intros (Hv & Hr & Hs & Hk & Ha & Hm & Hf).
  unfold beforeClamp. rewrite step3_steer_eq, step2_brake_eq.
  unfold step5_friction, step4_thrust, step1_accel, steeredRotation, scale,
    cruiseStep.
  cbn. rewrite Hk, Hv, Hr, Hf, Ha. cbn. rewrite sin_0, cos_0. f_equal; lra.
Qed.

(** One tick of a cruising car: the next speed is [cruiseStep], and the
    limit does not fire. *)
Lemma cruising_step (v : R) (cs : CarSystem R) :
  cruising v cs -> 0 <= v <= 228/1000 ->
  cruising (cruiseStep v) (updateCarPhysics cs) /\
  0 <= cruiseStep v <= 228/1000 /\
  clampFires cs = false.
Proof.
  intros Hc Hb.
  pose proof (beforeClamp_cruising Hc) as Hpre.
  destruct Hc as (Hv & Hr & Hs & Hk & Ha & Hm & Hf).
  assert (Hw : 0 <= cruiseStep v <= 228/1000) by (unfold cruiseStep; lra).
  assert (Hg : clampFires cs = false).
  { unfold clampFires. rewrite Hpre, magnitude_forward by lra.
    apply Rgtb_false. lra. }
  split; [|split; assumption].
  unfold cruising.
  rewrite velocity_clamped, speed_updateCarPhysics, rotation_updateCarPhysics,
    speed_step6_clamp, maxSpeed_beforeClamp.
  fold (clampFires cs). rewrite Hg, Hpre, magnitude_forward by lra.
  repeat split; try assumption.
  rewrite steeredRotation_no_key by (rewrite Hk; reflexivity). exact Hr.
Qed.

Lemma cruising_iterate (n : nat) : forall (v : R) (cs : CarSystem R),
  cruising v cs -> 0 <= v <= 228/1000 ->
  cruising (iterate n cruiseStep v) (iterate n updateCarPhysics cs) /\
  0 <= iterate n cruiseStep v <= 228/1000.
Proof.
  induction n as [|n IH]; intros v cs Hc Hb; cbn.
  - split; assumption.
  - destruct (cruising_step Hc Hb) as (Hc' & Hb' & _). apply IH; assumption.
Qed.

(** The recurrence in closed form: an exponential approach to 0.228. *)
Lemma cruiseStep_closed (n : nat) : forall v : R,
  iterate n cruiseStep v = 228/1000 - (228/1000 - v) * (95/100) ^ n.
Proof.
  induction n as [|n IH]; intros v; cbn.
  - ring.
  - rewrite IH. unfold cruiseStep. field.
Qed.

Lemma pow95_100 : 0 < (95/100) ^ 100 < 1/100.
Proof.
  split; [apply pow_lt; lra|].
  replace (95/100) with (IZR 19 / IZR 20) by lra.
  unfold Rdiv at 1. rewrite Rpow_mult_distr, pow_inv, !pow_IZR.
  assert (H20 : 0 < IZR (20 ^ Z.of_nat 100)) by (apply IZR_lt; reflexivity).
  assert (HZ : (100 * 19 ^ Z.of_nat 100 < 20 ^ Z.of_nat 100)%Z) by reflexivity.
  apply IZR_lt in HZ. rewrite mult_IZR in HZ.
  set (A := IZR (19 ^ Z.of_nat 100)) in *.
  set (B := IZR (20 ^ Z.of_nat 100)) in *.
  apply Rmult_lt_reg_r with B; [exact H20|].
  rewrite Rmult_assoc, Rinv_l, Rmult_1_r by lra. lra.
Qed.

Lemma speed_after_100 :
  speed (iterate 100 updateCarPhysics fromRest) =
  228/1000 - 228/1000 * (95/100) ^ 100.
Proof.
  destruct (@cruising_iterate 100 0 fromRest cruising_fromRest ltac:(lra))
    as ((_ & _ & Hs & _) & _).
  rewrite Hs, cruiseStep_closed. ring.
Qed.

Lemma forward_never_clamps (n : nat) :
  clampFires (iterate n updateCarPhysics fromRest) = false.
Proof.
  destruct (@cruising_iterate n 0 fromRest cruising_fromRest ltac:(lra))
    as (Hc & Hb).
  destruct (cruising_step Hc Hb) as (_ & _ & Hf). exact Hf.
Qed.

End ForwardRunReal.

Section ForwardRunBinary64.
Import Wasd.
Variables fsin fcos : PrimFloat.float -> PrimFloat.float.
Hypothesis fsin_0 : fsin PrimFloat.zero = PrimFloat.zero.
Hypothesis fcos_0 : fcos PrimFloat.zero = PrimFloat.one.

Let js : JSNumber PrimFloat.float := Binary64.number fsin fcos.

(** At heading 0 only the values of sine and cosine at 0 matter. *)
Lemma straight_step (cs : CarSystem PrimFloat.float) :
  Binary64.straight cs ->
  updateCarPhysics (num := js) cs =
  updateCarPhysics (num := Binary64.heading0) cs /\
  clampFires (num := js) cs = clampFires (num := Binary64.heading0) cs /\
  Binary64.straight (updateCarPhysics (num := Binary64.heading0) cs).
Proof.
  destruct cs as [p v r s a m t f b [kf kb kl kr kk]].
  intros (Hr & Hl & Hk); cbn in Hr, Hl, Hk; subst r kl kr.
  split; [|split; [|repeat split]].
  - unfold updateCarPhysics; cbn. rewrite fsin_0, fcos_0. reflexivity.
  - unfold clampFires, beforeClamp. rewrite !step3_steer_eq, !step2_brake_eq.
    cbn. rewrite fsin_0, fcos_0. reflexivity.
Qed.

Lemma straight_iterate (n : nat) : forall cs : CarSystem PrimFloat.float,
  Binary64.straight cs ->
  iterate n (updateCarPhysics (num := js)) cs =
  iterate n (updateCarPhysics (num := Binary64.heading0)) cs /\
  Binary64.straight (iterate n (updateCarPhysics (num := Binary64.heading0)) cs).
Proof.
  induction n as [|n IH]; intros cs Hs; cbn; [split; [reflexivity|exact Hs]|].
  destruct (straight_step Hs) as (-> & _ & Hs'). apply IH, Hs'.
Qed.

Lemma straight_fromRest : Binary64.straight (fromRest (num := js)).
Proof. repeat split. Qed.

(** The run in binary64: the speed after 100 ticks, and no tick among them
    fires the limit. *)
Lemma forward_100_binary64 :
  speed (iterate 100 (updateCarPhysics (num := js)) (fromRest (num := js))) =
  Binary64.Constants.speed100 /\
  forall n : nat, (n < 100)%nat ->
    clampFires (num := js)
      (iterate n (updateCarPhysics (num := js)) (fromRest (num := js))) = false.
Proof.
  split.
  - destruct (straight_iterate 100 straight_fromRest) as [-> _].
    vm_compute. reflexivity.
  - intros n Hn.
    destruct (straight_iterate n straight_fromRest) as [-> Hs].
    destruct (straight_step Hs) as (_ & -> & _).
    assert (Hall : Binary64.neverClamps 100 = true) by (vm_compute; reflexivity).
    unfold Binary64.neverClamps in Hall. rewrite forallb_forall in Hall.
    specialize (Hall n). rewrite in_seq in Hall.
    apply negb_true_iff, Hall. lia.
Qed.

End ForwardRunBinary64.

(** C7, as amended.  From rest with only the forward key held and the
    configured parameters (acceleration 0.012, maxSpeed 0.40, friction 0.95),
    the speed after 100 calls of [updateCarPhysics] is within 1% of 0.228,
    which is [acceleration * friction / (1 - friction)], the fixed point of
    thrust followed by friction; and the speed limit fires at no tick.  In
    binary64, with any sine and cosine that are exact at 0, the speed after
    100 ticks is the double 0x1.d02df0118583dp-3, between 0.2266 and 0.2267,
    and none of the 100 ticks fires the limit. *)
Theorem forward_100_ticks :
  let final := iterate 100 Wasd.updateCarPhysics (Wasd.fromRest (F := R)) in
  (Rabs (Wasd.speed final - lit 0.228) <= lit 0.01 * lit 0.228)%R /\
  (lit 0.228 =
   Wasd.acceleration (Wasd.fromRest (F := R)) *
   Wasd.friction (Wasd.fromRest (F := R)) /
   (1 - Wasd.friction (Wasd.fromRest (F := R))))%R /\
  (forall n : nat,
      Wasd.clampFires (iterate n Wasd.updateCarPhysics (Wasd.fromRest (F := R)))
      = false) /\
  (forall fsin fcos : PrimFloat.float -> PrimFloat.float,
      fsin PrimFloat.zero = PrimFloat.zero ->
      fcos PrimFloat.zero = PrimFloat.one ->
      let js := Binary64.number fsin fcos in
      Wasd.speed (iterate 100 (Wasd.updateCarPhysics (num := js))
                    (Wasd.fromRest (num := js)))
      = Binary64.Constants.speed100 /\
      PrimFloat.ltb (Binary64.ofQ 0.2266) Binary64.Constants.speed100 = true /\
      PrimFloat.ltb Binary64.Constants.speed100 (Binary64.ofQ 0.2267) = true /\
      forall n : nat, (n < 100)%nat ->
        Wasd.clampFires (num := js)
          (iterate n (Wasd.updateCarPhysics (num := js))
             (Wasd.fromRest (num := js))) = false).
Proof.
  cbn zeta. split; [|split; [|split]].
  - rewrite speed_after_100. real_lits.
    pose proof pow95_100 as [H0 H1].
    rewrite Rabs_left by lra. lra.
  - cbn. unfold Q2R; cbn. field.
  - exact forward_never_clamps.
  - intros fsin fcos Hs Hc.
    destruct (forward_100_binary64 fsin fcos Hs Hc) as [H100 Hn].
    split; [exact H100|]. split; [vm_compute; reflexivity|].
    split; [vm_compute; reflexivity|exact Hn].
Qed.

(** ** The plane-anchor state machine *)

Section AnchorGeneric.
Context {F : Type} {num : JSNumber F}.
Import Three Wasd.
Local Open Scope js_scope.

Lemma phase_Anchored (ar : ArSystem F) :
  phase ar = Some Anchored <->
  planeEstablished ar = true /\ searchingForMarker ar = false.
Proof.
  unfold phase. destruct (planeEstablished ar), (searchingForMarker ar);
    split; intros H; try discriminate; try (destruct H; discriminate); auto.
Qed.

Lemma phase_Searching (ar : ArSystem F) :
  phase ar = Some Searching <->
  planeEstablished ar = false /\ searchingForMarker ar = true.
Proof.
  unfold phase. destruct (planeEstablished ar), (searchingForMarker ar);
    split; intros H; try discriminate; try (destruct H; discriminate); auto.
Qed.

(** The handler does nothing unless the id is valid and the search is on. *)
Lemma handleMarkerDetection_skip (now : F) (event : MarkerEvent F) (ar : ArSystem F) :
  negb (idMatrix event =? -1)%Z && searchingForMarker ar = false ->
  handleMarkerDetection now event ar = Normal ar.
Proof. intros H. unfold handleMarkerDetection. rewrite H. reflexivity. Qed.

(** A valid id with a pose array, while searching: the array is converted and
    stored, whatever its length. *)
Lemma handleMarkerDetection_store (now : F) (id : Z) (m : list F) (ar : ArSystem F) :
  id <> (-1)%Z -> searchingForMarker ar = true ->
  handleMarkerDetection now (mkMarkerEvent id (Some m)) ar =
  Normal {| markerDetected := true;
            lastDetectionTime := now;
            planeMatrix := stateOf (fixMatrix (planeMatrix ar) (Some m));
            initialized := true;
            planeEstablished := true;
            searchingForMarker := false |}.
Proof.
  intros Hid Hs. unfold handleMarkerDetection; cbn.
  apply Z.eqb_neq in Hid. rewrite Hid, Hs; cbn.
  destruct (initialized ar); reflexivity.
Qed.

(** A valid id without a pose, while searching: the handler throws before it
    writes anything. *)
Lemma handleMarkerDetection_throw (now : F) (id : Z) (ar : ArSystem F) :
  id <> (-1)%Z -> searchingForMarker ar = true ->
  handleMarkerDetection now (mkMarkerEvent id None) ar = Throw ar.
Proof.
  intros Hid Hs. unfold handleMarkerDetection; cbn.
  apply Z.eqb_neq in Hid. rewrite Hid, Hs; reflexivity.
Qed.

(** The two flags never contradict each other. *)
Lemma Reachable_phase (ar : ArSystem F) :
  Reachable ar -> phase ar = Some Searching \/ phase ar = Some Anchored.
Proof.
  induction 1 as [|now event ar Hr IH|ar Hr IH|cs ar Hr IH].
  - left; reflexivity.
  - destruct event as [id [m|]];
      destruct (Z.eq_dec id (-1)) as [->|Hid];
      try (rewrite handleMarkerDetection_skip by reflexivity; exact IH).
    + destruct IH as [IH|IH].
      * apply phase_Searching in IH as [_ Hs].
        rewrite handleMarkerDetection_store by assumption. right; reflexivity.
      * apply phase_Anchored in IH as [He Hs].
        rewrite handleMarkerDetection_skip by (rewrite Hs; apply andb_false_r).
        right. apply phase_Anchored; auto.
    + destruct (searchingForMarker ar) eqn:Hs.
      * rewrite handleMarkerDetection_throw by assumption. exact IH.
      * rewrite handleMarkerDetection_skip by (rewrite Hs; apply andb_false_r).
        exact IH.
  - exact IH.
  - left; reflexivity.
Qed.

(** C3.  Anchoring is one-shot.  In the Anchored phase every detection
    event, whatever its id and pose, returns with [arSystem] as it was: the
    stored [planeMatrix] and the phase do not change.  And from the Searching
    phase, two detections in a row with valid ids and pose arrays leave the
    system Anchored with [planeMatrix] the conversion of the first pose: the
    second one changes nothing. *)
Theorem anchoring_one_shot :
  (forall (ar : ArSystem F) (now : F) (event : MarkerEvent F),
      phase ar = Some Anchored ->
      handleMarkerDetection now event ar = Normal ar) /\
  (forall (ar : ArSystem F) (t1 t2 : F) (id1 id2 : Z) (m1 m2 : list F),
      phase ar = Some Searching -> id1 <> (-1)%Z -> id2 <> (-1)%Z ->
      exists ar1 : ArSystem F,
        handleMarkerDetection t1 (mkMarkerEvent id1 (Some m1)) ar = Normal ar1 /\
        phase ar1 = Some Anchored /\
        fixMatrix (planeMatrix ar) (Some m1) = Normal (planeMatrix ar1) /\
        handleMarkerDetection t2 (mkMarkerEvent id2 (Some m2)) ar1 = Normal ar1).
Proof.
  assert (Hstay : forall (ar : ArSystem F) now event,
             phase ar = Some Anchored ->
             handleMarkerDetection now event ar = Normal ar).
  { intros ar now event Ha. apply phase_Anchored in Ha as [_ Hs].
    apply handleMarkerDetection_skip. rewrite Hs. apply andb_false_r. }
  split; [exact Hstay|].
  intros ar t1 t2 id1 id2 m1 m2 Hp Hid1 Hid2.
  apply phase_Searching in Hp as [_ Hs].
  eexists. split; [apply handleMarkerDetection_store; assumption|].
  split; [reflexivity|]. split; [reflexivity|].
  apply Hstay. reflexivity.
Qed.

(** C4, as amended.  From any phase and any vehicle state,
    [resetCarPosition] leaves the phase Searching and the car at the origin
    with zero velocity, heading and speed.  The stored [planeMatrix] is not
    cleared: it keeps the value it had, and is out of use, since the next
    [updateContainerTransform] hides the container whether or not the
    recogniser is loaded. *)
Theorem reset_searching (cs : CarSystem F) (ar : ArSystem F) :
  let cs' := fst (resetCarPosition (cs, ar)) in
  let ar' := snd (resetCarPosition (cs, ar)) in
  phase ar' = Some Searching /\
  planeMatrix ar' = planeMatrix ar /\
  (forall (loaded : bool) (c : Object3D F),
      visible (updateContainerTransform loaded ar' c) = false) /\
  position cs' = mkXZ (lit 0) (lit 0) /\
  velocity cs' = mkXZ (lit 0) (lit 0) /\
  rotation cs' = lit 0 /\
  speed cs' = lit 0.
Proof.
  cbn. repeat split.
  intros loaded c. unfold updateContainerTransform; cbn.
  rewrite andb_false_r. reflexivity.
Qed.

(** C5, as amended.  In any state, a detection event whose id is the
    sentinel -1 is a no-op, whatever its pose.  While Searching, an event
    with a valid id and a pose array is never rejected: an array of any
    length, the empty one included, is converted and stored as the anchor
    (entries the array lacks are stored as [undefined], or as not-a-number
    where the conversion negates them), the phase becomes Anchored and
    nothing is thrown.  Only an event without a pose throws out of the
    handler, before any write; [renderLoop] catches it, and [arSystem] is
    then as it was. *)
Theorem sentinel_and_unvalidated_pose :
  (forall (ar : ArSystem F) (now : F) (pose : option (list F)),
      handleMarkerDetection now (mkMarkerEvent (-1) pose) ar = Normal ar) /\
  (forall (ar : ArSystem F) (now : F) (id : Z) (m : list F),
      id <> (-1)%Z -> phase ar = Some Searching ->
      exists ar' : ArSystem F,
        handleMarkerDetection now (mkMarkerEvent id (Some m)) ar = Normal ar' /\
        phase ar' = Some Anchored /\
        planeMatrix ar' =
          Matrix4_set
            (index m 0) (index m 8) (negate (index m 4)) (index m 12)
            (index m 1) (index m 9) (negate (index m 5)) (index m 13)
            (index m 2) (index m 10) (negate (index m 6)) (index m 14)
            (index m 3) (index m 11) (negate (index m 7)) (index m 15)) /\
  (forall (ar : ArSystem F) (now : F) (id : Z),
      id <> (-1)%Z -> phase ar = Some Searching ->
      handleMarkerDetection now (mkMarkerEvent id None) ar = Throw ar /\
      forall (currentTime : F) (pg : Page F) rest fails,
        Wasd.ar pg = ar ->
        Wasd.ar (snd (renderLoop currentTime
                        (mkProcessRun ((now, mkMarkerEvent id None) :: rest) fails)
                        pg)) = ar).
Proof.
  split; [|split].
  - intros ar now pose. apply handleMarkerDetection_skip. reflexivity.
  - intros ar now id m Hid Hp. apply phase_Searching in Hp as [_ Hs].
    eexists. split; [apply handleMarkerDetection_store; assumption|].
    split; reflexivity.
  - intros ar now id Hid Hp. apply phase_Searching in Hp as [_ Hs].
    assert (Ht : handleMarkerDetection now (mkMarkerEvent id None) ar = Throw ar)
      by (apply handleMarkerDetection_throw; assumption).
    split; [exact Ht|].
    intros currentTime pg rest fails <-.
    unfold renderLoop, process; cbn.
    rewrite Ht. destruct (shouldProcessAR currentTime pg); reflexivity.
Qed.

(** Whether a frame calls the recogniser is the test [shouldProcessAR]. *)
Lemma renderLoop_called (currentTime : F) (run : ProcessRun F) (pg : Page F) :
  fst (renderLoop currentTime run pg) = shouldProcessAR currentTime pg.
Proof.
  unfold renderLoop.
  destruct (shouldProcessAR currentTime pg); [|reflexivity].
  destruct (process run (ar pg)); reflexivity.
Qed.

(** C6.  In a frame of [renderLoop] taken while the plane is established,
    [arController.process] is not called; when it is called, the phase is
    Searching and the interval test
    [currentTime - lastProcessTime >= processingInterval] has passed.  The
    frame's test is the conjunction of the recogniser being loaded, of
    [shouldRunRecognition] (its part that reads the phase) and of the
    interval test; and [shouldRunRecognition] is true exactly in the
    Searching phase. *)
Theorem recognition_only_while_searching
  (currentTime : F) (run : ProcessRun F) (pg : Page F) :
  let called := fst (renderLoop currentTime run pg) in
  let gate := currentTime - lastProcessTime pg >=? processingInterval in
  (planeEstablished (ar pg) = true -> called = false) /\
  (called = true -> phase (ar pg) = Some Searching /\ gate = true) /\
  called = arLoaded pg && arController pg
           && shouldRunRecognition (ar pg) && gate /\
  (shouldRunRecognition (ar pg) = true <-> phase (ar pg) = Some Searching).
Proof.
  cbn zeta. rewrite renderLoop_called.
  unfold shouldProcessAR, shouldRunRecognition. rewrite phase_Searching.
  destruct (planeEstablished (ar pg)), (searchingForMarker (ar pg)),
    (arLoaded pg), (arController pg),
    (currentTime - lastProcessTime pg >=? processingInterval); cbn;
    repeat split; intros; try discriminate; try tauto;
    try (destruct H; discriminate); auto.
Qed.

End AnchorGeneric.

(** ** The hand-tracking variant *)

Section GestureGeneric.
Context {F : Type} {num : JSNumber F}.
Import Three Gesture.
Local Open Scope js_scope.

(** Neither smoothing nor the movement update touches the marker fields. *)
Lemma handleHandTrackingData_marker (data : SteeringData F) (g : GhostWheelAR F) :
  container (handleHandTrackingData data g) = container g /\
  lastMarkerTime (handleHandTrackingData data g) = lastMarkerTime g /\
  markerVisible (handleHandTrackingData data g) = markerVisible g.
Proof.
  unfold handleHandTrackingData.
  match goal with |- context [if ?c then _ else _] => destruct c end;
    repeat split.
Qed.

Lemma handleHandTrackingData_gate (data : SteeringData F) (g : GhostWheelAR F) :
  (orZero (confidence data) >? lit 0.7) = false ->
  carPosition (handleHandTrackingData data g) = carPosition g /\
  carRotation (handleHandTrackingData data g) = carRotation g /\
  car (handleHandTrackingData data g) = car g.
Proof.
  intros H. unfold handleHandTrackingData. cbn. rewrite H. cbn. repeat split.
Qed.

Lemma handleHandTrackingData_smoothed (data : SteeringData F) (g : GhostWheelAR F) :
  smoothedSteering (handleHandTrackingData data g) =
  lerp (smoothedSteering g) (orZero (steering_angle data)) (steeringSmoothing g).
Proof.
  unfold handleHandTrackingData.
  match goal with |- context [if ?c then _ else _] => destruct c end;
    reflexivity.
Qed.

Lemma handleMarkerDetection_cases (now : F) (event : MarkerEvent F) (g : GhostWheelAR F) :
  (handleMarkerDetection now event g = Normal g /\ accepted now event g [] = [] /\
     (idMatrix event =? -1)%Z = true) \/
  (handleMarkerDetection now event g = Throw g /\ accepted now event g [] = []) \/
  (exists g', handleMarkerDetection now event g = Normal g' /\
     visible (container g') = true /\ lastMarkerTime g' = now /\
     markerVisible g' = true /\
     forall h, accepted now event g h = now :: h).
Proof.
  unfold accepted, handleMarkerDetection, updateMarkerMatrix.
  destruct (idMatrix event =? -1)%Z; cbn.
  - left. auto.
  - destruct (matrixGL_RH event); cbn.
    + right; right. eexists. repeat split.
    + right; left. auto.
Qed.

(** While the container is visible, the stored time is that of the latest
    accepted detection. *)
Lemma Trace_visible (h : list F) (g : GhostWheelAR F) :
  Trace h g -> visible (container g) = true ->
  exists t h', h = t :: h' /\ lastMarkerTime g = t.
Proof.
  induction 1 as [g Hv|now event h g Ht IH|now h g Ht IH|data h g Ht IH];
    intros Hvis.
  - congruence.
  - destruct (handleMarkerDetection_cases now event g)
      as [(He & _ & Hid)|[(He & _)|(g' & He & Hv & Hl & _ & Ha)]].
    + rewrite He in Hvis |- *. unfold accepted. rewrite He, Hid. cbn.
      apply IH, Hvis.
    + rewrite He in Hvis |- *. unfold accepted. rewrite He. cbn.
      apply IH, Hvis.
    + rewrite He, Ha. cbn. eauto.
  - unfold checkTimeout in *.
    destruct (now - lastMarkerTime g >? lit 200); [discriminate|auto].
  - destruct (handleHandTrackingData_marker data g) as (Hc & Hl & _).
    rewrite Hc in Hvis. rewrite Hl. auto.
Qed.

Lemma Trace_dispatch (events : list (F * MarkerEvent F)) :
  forall (h : list F) (g : GhostWheelAR F),
    Trace h g -> exists h', Trace h' (stateOf (dispatch events g)).
Proof.
  induction events as [|[t event] rest IH]; intros h g Ht; cbn.
  - eauto.
  - pose proof (trace_marker t event Ht) as Ht'.
    destruct (handleMarkerDetection t event g) as [g1|g1]; cbn in *.
    + eapply IH, Ht'.
    + eauto.
Qed.

Lemma Trace_renderLoop (videoReady : bool) (run : ProcessRun F) (now : F)
  (h : list F) (g : GhostWheelAR F) :
  Trace h g -> exists h', Trace h' (stateOf (renderLoop videoReady run now g)).
Proof.
  intros Ht. unfold renderLoop, process.
  destruct (arLoaded g && videoReady).
  - destruct (Trace_dispatch (detections run) Ht) as [h' Ht'].
    destruct (dispatch (detections run) g) as [g1|g1]; cbn in *.
    + destruct (processFails run); cbn; eauto using trace_timeout.
    + eauto.
  - cbn. eauto using trace_timeout.
Qed.

(** The frames that reach the timeout test.  In every frame in which the
    recogniser does not throw, if [now] is more than 200 ms after
    [lastMarkerTime], the container is set invisible and [markerVisible] is
    cleared.  So when a frame is rendered with the container visible, the
    handler has accepted a detection, [lastMarkerTime] is the time of the
    latest one, and [now] is not more than 200 ms after it. *)
Theorem no_ghost_anchor (videoReady : bool) (run : ProcessRun F) (now : F)
  (h : list F) (g g' : GhostWheelAR F) :
  Trace h g ->
  renderLoop videoReady run now g = Normal g' ->
  ((now - lastMarkerTime g' >? lit 200) = true ->
     visible (container g') = false /\ markerVisible g' = false) /\
  (visible (container g') = true ->
     (now - lastMarkerTime g' >? lit 200) = false /\
     exists t h', Trace (t :: h') g' /\ lastMarkerTime g' = t).
Proof.
  intros Ht Hr.
  destruct (Trace_renderLoop videoReady run now Ht) as [h' Ht'].
  rewrite Hr in Ht'; cbn in Ht'.
  assert (Hc : exists g1, g' = checkTimeout now g1).
  { unfold renderLoop in Hr.
    destruct (if arLoaded g && videoReady then process run g else Normal g)
      as [g1|g1]; [|discriminate].
    exists g1. congruence. }
  destruct Hc as [g1 ->].
  assert (Hgate : (now - lastMarkerTime (checkTimeout now g1) >? lit 200) = true ->
                  visible (container (checkTimeout now g1)) = false /\
                  markerVisible (checkTimeout now g1) = false).
  { unfold checkTimeout.
    destruct (now - lastMarkerTime g1 >? lit 200) eqn:Hg; cbn; [auto|congruence]. }
  split; [exact Hgate|].
  intros Hvis. split.
  - destruct (now - lastMarkerTime (checkTimeout now g1) >? lit 200); [|reflexivity].
    destruct Hgate as [Hf _]; congruence.
  - destruct (Trace_visible Ht' Hvis) as (t & h'' & -> & Hl). eauto.
Qed.

End GestureGeneric.

Section GestureReal.
Import Three Gesture.
Local Open Scope R_scope.

Lemma orZero_Some (c : R) : orZero (Some c) = c.
Proof.
  unfold orZero; cbn. unfold Rtruthy, Q2R. destruct (Req_dec_T c 0); cbn; lra.
Qed.

Lemma orZero_None : orZero (F := R) None = 0.
Proof. unfold orZero; cbn. unfold Q2R; cbn; lra. Qed.

Lemma lerp_smoothing (a b t : R) : lerp a b t = a + (b - a) * t.
Proof. unfold lerp; cbn. unfold Q2R; cbn. lra. Qed.

Lemma gesture_gate_real (data : SteeringData R) (g : GhostWheelAR R) :
  let g' := handleHandTrackingData data g in
  let target := orZero (steering_angle data) in
  let smoothed :=
    smoothedSteering g + (target - smoothedSteering g) * steeringSmoothing g in
  smoothedSteering g' = smoothed /\
  (forall c : R, confidence data = Some c -> c <= lit 0.7 ->
     carPosition g' = carPosition g /\ carRotation g' = carRotation g) /\
  (confidence data = None ->
     carPosition g' = carPosition g /\ carRotation g' = carRotation g) /\
  (carPosition g' <> carPosition g \/ carRotation g' <> carRotation g ->
     exists c : R, confidence data = Some c /\ c > lit 0.7) /\
  (forall c : R, confidence data = Some c -> c > lit 0.7 ->
     car g <> None -> markerVisible g = true ->
     g' = updateCarMovement (with_steering target c smoothed g)).
Proof.
  intros g' target smoothed.
  assert (Hlow : gtb (orZero (confidence data)) (lit 0.7) = false ->
                 carPosition g' = carPosition g /\ carRotation g' = carRotation g).
  { intros H.
    destruct (handleHandTrackingData_gate data g H) as (Hp & Hr & _).
    split; assumption. }
  assert (Hsm : lerp (smoothedSteering g) target (steeringSmoothing g) = smoothed)
    by apply lerp_smoothing.
  split; [|split; [|split; [|split]]].
  - unfold g'. rewrite handleHandTrackingData_smoothed. exact Hsm.
  - intros c Hc Hle. apply Hlow. rewrite Hc, orZero_Some.
    apply Rgtb_false. exact Hle.
  - intros Hc. apply Hlow. rewrite Hc, orZero_None.
    apply Rgtb_false. real_lits. lra.
  - intros Hch. destruct (confidence data) as [c|] eqn:Hc.
    + exists c. split; [reflexivity|].
      destruct (gtb (orZero (Some c)) (lit 0.7)) eqn:Hg.
      * apply Rgtb_true in Hg. rewrite orZero_Some in Hg. exact Hg.
      * destruct (Hlow eq_refl) as [Hp Hr]. destruct Hch; contradiction.
    + exfalso. assert (Hg : gtb (orZero (F:=R) None) (lit 0.7) = false).
      { rewrite orZero_None. apply Rgtb_false. real_lits. lra. }
      destruct (Hlow Hg) as [Hp Hr]. destruct Hch; contradiction.
  - intros c Hc Hgt Hcar Hvis. unfold g', handleHandTrackingData.
    fold target. rewrite Hsm, Hc, orZero_Some.
    cbn [handConfidence with_steering car markerVisible].
    apply Rgtb_true in Hgt. rewrite Hgt, Hvis.
    destruct (car g); [reflexivity|contradiction].
Qed.

End GestureReal.

(** C9.  In real arithmetic: [handleHandTrackingData] first moves the
    smoothed steering angle toward the message's angle,
    [smoothed += (target - smoothed) * smoothing]; for a message whose
    confidence is at or below 0.7, or missing, the car's position and heading
    are what they were; they change only for a confidence above 0.7; and with
    such a confidence, a car model loaded and the marker visible, the update
    is [updateCarMovement] on the state that already holds the new smoothed
    angle.  In every number system: the smoothed angle becomes
    [lerp smoothed target smoothing], and position, heading and car model
    are what they were whenever the test [handConfidence > 0.7] fails. *)
Theorem gesture_confidence_gate :
  (forall (data : Gesture.SteeringData R) (g : Gesture.GhostWheelAR R),
      let g' := Gesture.handleHandTrackingData data g in
      let target := Gesture.orZero (Gesture.steering_angle data) in
      let smoothed :=
        (Gesture.smoothedSteering g
         + (target - Gesture.smoothedSteering g) * Gesture.steeringSmoothing g)%R in
      Gesture.smoothedSteering g' = smoothed /\
      (forall c : R, Gesture.confidence data = Some c -> (c <= lit 0.7)%R ->
         Gesture.carPosition g' = Gesture.carPosition g /\
         Gesture.carRotation g' = Gesture.carRotation g) /\
      (Gesture.confidence data = None ->
         Gesture.carPosition g' = Gesture.carPosition g /\
         Gesture.carRotation g' = Gesture.carRotation g) /\
      (Gesture.carPosition g' <> Gesture.carPosition g \/
       Gesture.carRotation g' <> Gesture.carRotation g ->
         exists c : R, Gesture.confidence data = Some c /\ (c > lit 0.7)%R) /\
      (forall c : R, Gesture.confidence data = Some c -> (c > lit 0.7)%R ->
         Gesture.car g <> None -> Gesture.markerVisible g = true ->
         g' = Gesture.updateCarMovement
                (Gesture.with_steering target c smoothed g))) /\
  (forall (F : Type) (num : JSNumber F)
          (data : Gesture.SteeringData F) (g : Gesture.GhostWheelAR F),
      let g' := Gesture.handleHandTrackingData data g in
      Gesture.smoothedSteering g' =
        Gesture.lerp (Gesture.smoothedSteering g)
          (Gesture.orZero (Gesture.steering_angle data))
          (Gesture.steeringSmoothing g) /\
      (gtb (Gesture.orZero (Gesture.confidence data)) (lit 0.7) = false ->
         Gesture.carPosition g' = Gesture.carPosition g /\
         Gesture.carRotation g' = Gesture.carRotation g /\
         Gesture.car g' = Gesture.car g)).
Proof.
  split.
  - exact gesture_gate_real.
  - intros F num data g g'. split.
    + apply handleHandTrackingData_smoothed.
    + apply handleHandTrackingData_gate.
Qed.

(** ** Concrete instances *)

Section Instances.
Import Three Wasd Examples.
Local Open Scope R_scope.

Lemma Rgeb_true (a b : R) : geb a b = true <-> b <= a.
Proof.
  cbn; unfold Rgeb; destruct (Rle_dec b a); split; intros; try easy.
Qed.

Lemma maxSpeed_overdrive : 0 <= maxSpeed overdrive.
Proof. cbn. unfold Q2R; cbn. lra. Qed.

Lemma overdrive_clamps : clampFires overdrive = true.
Proof.
  assert (Hpre : velocity (beforeClamp overdrive) = mkXZ 0 (95/100)).
  { unfold beforeClamp. rewrite step3_steer_eq, step2_brake_eq.
    unfold step5_friction, step4_thrust, step1_accel, steeredRotation, scale,
      overdrive, carSystem.
    cbn. unfold Q2R; cbn. f_equal; lra. }
  unfold clampFires. rewrite Hpre, magnitude_forward by lra.
  apply Rgtb_true. cbn. unfold Q2R; cbn. lra.
Qed.

(** The sixth update on a car faster than the limit. *)
Lemma updateCarPhysics_order_witness :
  0 <= maxSpeed overdrive /\ clampFires overdrive = true /\
  magnitude (velocity (updateCarPhysics overdrive)) = maxSpeed overdrive.
Proof.
  split; [exact maxSpeed_overdrive|]. split; [exact overdrive_clamps|].
  exact (proj2 updateCarPhysics_order overdrive maxSpeed_overdrive
           overdrive_clamps).
Defined.

Lemma fromRest_within_limit :
  magnitude (velocity (fromRest (F := R))) <= maxSpeed (fromRest (F := R)).
Proof.
  unfold magnitude; cbn. unfold Q2R; cbn.
  replace (0 * / 1 * (0 * / 1) + 0 * / 1 * (0 * / 1)) with 0 by lra.
  rewrite sqrt_0. lra.
Qed.

(** The speed limit on the first tick of the forward run. *)
Lemma speed_clamp_witness :
  magnitude (velocity (fromRest (F := R))) <= maxSpeed (fromRest (F := R)) /\
  magnitude (velocity (updateCarPhysics (fromRest (F := R))))
  <= maxSpeed (fromRest (F := R)).
Proof.
  split; [exact fromRest_within_limit|].
  exact (proj1 (proj1 speed_clamp (fromRest (F := R)) fromRest_within_limit)).
Defined.

Lemma steeringAtRest_slow : Math_abs (speed steeringAtRest) <= lit 0.01.
Proof.
  cbn. unfold Q2R; cbn.
  replace (0 * / 1) with 0 by lra. rewrite Rabs_R0. lra.
Qed.

(** A car at rest with the left key held does not turn. *)
Lemma deadzone_heading_witness :
  Math_abs (speed steeringAtRest) <= lit 0.01 /\
  rotation (updateCarPhysics steeringAtRest) = rotation steeringAtRest.
Proof.
  split; [exact steeringAtRest_slow|].
  exact (proj1 deadzone_heading steeringAtRest steeringAtRest_slow).
Defined.

(** C7, the claim as it stands, refuted: after 100 ticks of the forward run
    the speed (about 0.2267) is not within 1% of 0.24, in real arithmetic;
    and in binary64 it is below 0.24 - 0.01 * 0.24. *)
Lemma forward_100_not_within_1pct_of_024 :
  ~ (Rabs (speed (iterate 100 updateCarPhysics (fromRest (F := R))) - lit 0.24)
     <= lit 0.01 * lit 0.24) /\
  PrimFloat.ltb
    (speed (iterate 100 (updateCarPhysics (num := Binary64.heading0))
              (fromRest (num := Binary64.heading0))))
    (PrimFloat.sub (Binary64.ofQ 0.24)
       (PrimFloat.mul (Binary64.ofQ 0.01) (Binary64.ofQ 0.24))) = true.
Proof.
  split; [|vm_compute; reflexivity].
  rewrite speed_after_100. real_lits.
  pose proof pow95_100 as [H0 H1]. intros H.
  rewrite Rabs_left in H by lra. lra.
Qed.

(** A detection in the Anchored phase, here with an empty pose, is ignored. *)
Lemma anchoring_one_shot_witness :
  phase anchored = Some Anchored /\
  handleMarkerDetection 2 (mkMarkerEvent 9 (Some [])) anchored = Normal anchored.
Proof.
  split; [reflexivity|].
  apply (proj1 anchoring_one_shot). reflexivity.
Defined.

(** C4, the claim as it stands, refuted: after a reset from the Anchored
    phase the stored matrix is still the converted marker pose, not the
    matrix a fresh system holds. *)
Lemma reset_keeps_planeMatrix :
  let after := snd (resetCarPosition (carSystem, anchored)) in
  phase anchored = Some Anchored /\
  phase after = Some Searching /\
  planeMatrix after = planeMatrix anchored /\
  planeMatrix after <> planeMatrix arSystem.
Proof.
  cbn zeta. repeat split.
  intros H. cbn in H. injection H as _ _ _ _ _ H _.
  revert H. unfold Q2R; cbn. lra.
Qed.

(** C5, the claim as it stands, refuted: a zero-length pose with a valid id,
    received while Searching, is stored (as undefined and not-a-number
    entries) and the phase becomes Anchored. *)
Lemma empty_pose_is_stored :
  phase (arSystem (F := R)) = Some Searching /\
  handleMarkerDetection 1 (mkMarkerEvent 7 (Some [])) arSystem =
  Normal
    (mkArSystem true 1
       [Undefined; Undefined; Undefined; Undefined;
        Undefined; Undefined; Undefined; Undefined;
        NaN; NaN; NaN; NaN;
        Undefined; Undefined; Undefined; Undefined]
       true true false) /\
  phase (stateOf (handleMarkerDetection 1 (mkMarkerEvent 7 (Some [])) arSystem))
  = Some Anchored.
Proof. repeat split. Qed.

(** The amended claim on the same event. *)
Lemma sentinel_and_unvalidated_pose_witness :
  exists stored : ArSystem R,
    handleMarkerDetection 1 (mkMarkerEvent 7 (Some [])) arSystem = Normal stored /\
    phase stored = Some Anchored /\
    planeMatrix stored =
      Matrix4_set
        Undefined Undefined NaN Undefined  Undefined Undefined NaN Undefined
        Undefined Undefined NaN Undefined  Undefined Undefined NaN Undefined.
Proof.
  apply (proj1 (proj2 sentinel_and_unvalidated_pose) arSystem 1 7%Z []).
  - discriminate.
  - reflexivity.
Defined.

Lemma page_frame_calls_process :
  fst (renderLoop 100 (mkProcessRun [] false) page) = true.
Proof.
  rewrite renderLoop_called.
  unfold shouldProcessAR, page, processingInterval; cbn.
  change (geb (100 - 0) (Q2R 1000 / Q2R 30) = true).
  apply Rgeb_true. unfold Q2R; cbn. lra.
Qed.

(** A frame of the initial page, 100 ms after start: the recogniser runs,
    and the phase is Searching. *)
Lemma recognition_only_while_searching_witness :
  fst (renderLoop 100 (mkProcessRun [] false) page) = true /\
  phase (ar page) = Some Searching.
Proof.
  split; [exact page_frame_calls_process|].
  exact (proj1 (proj1 (proj2 (recognition_only_while_searching
                                100 (mkProcessRun [] false) page))
                  page_frame_calls_process)).
Defined.

End Instances.

Section GestureInstances.
Import Three Gesture Examples.
Local Open Scope R_scope.

Lemma half_below_threshold : 1/2 <= lit 0.7.
Proof. cbn. unfold Q2R; cbn. lra. Qed.

(** A message with confidence 0.5 while the marker is tracked: the car stays. *)
Lemma gesture_confidence_gate_witness :
  carPosition (handleHandTrackingData lowConfidence tracking) = carPosition tracking /\
  carRotation (handleHandTrackingData lowConfidence tracking) = carRotation tracking.
Proof.
  exact (proj1 (proj2 (proj1 gesture_confidence_gate lowConfidence tracking))
           (1/2) eq_refl half_below_threshold).
Defined.

Lemma Trace_tracking : Trace [1000] tracking.
Proof.
  exact (trace_marker 1000 (mkMarkerEvent 7 (Some identityPose))
           (trace_start loaded eq_refl)).
Qed.

Lemma checkTimeout_time (now : R) (g : GhostWheelAR R) :
  lastMarkerTime (checkTimeout now g) = lastMarkerTime g.
Proof. unfold checkTimeout. destruct (gtb _ _); reflexivity. Qed.

Lemma tracking_late (now : R) :
  1200 < now -> gtb (now - lastMarkerTime tracking) (lit 200) = true.
Proof. intros H. apply Rgtb_true. cbn. real_lits. lra. Qed.

(** A frame 300 ms after the detection, with no new detection and the
    recogniser not called: the content is hidden. *)
Lemma no_ghost_anchor_witness :
  renderLoop false (mkProcessRun [] false) 1300 tracking
    = Normal (checkTimeout 1300 tracking) /\
  visible (container (checkTimeout 1300 tracking)) = false /\
  markerVisible (checkTimeout 1300 tracking) = false.
Proof.
  split; [reflexivity|].
  refine (proj1 (no_ghost_anchor false (mkProcessRun [] false) 1300
                   (g' := checkTimeout 1300 tracking)
                   Trace_tracking eq_refl) _).
  rewrite checkTimeout_time. apply tracking_late. lra.
Defined.


End GestureInstances.

(** ** More on the integrator *)

Section CarPhysicsMore.
Import Wasd Runs Examples MoreExamples.
Local Open Scope R_scope.

Lemma magnitude_axis (w : R) : magnitude (mkXZ 0 w) = Rabs w.
Proof.
  unfold magnitude; cbn.
  replace (0 * 0 + w * w) with (Rsqr w) by (unfold Rsqr; ring).
  apply sqrt_Rsqr_abs.
Qed.

Lemma Rsign_pos (a : R) : 0 < a -> Math_sign a = 1.
Proof.
  intros H. cbn. unfold Rsign. destruct (Rlt_dec 0 a); [reflexivity|contradiction].
Qed.

(** X1.  After every call of [updateCarPhysics] with a limit that is not
    negative, the stored speed is the magnitude of the velocity, so it is
    never negative. *)
Theorem stored_speed_is_magnitude (cs : CarSystem R) :
  0 <= maxSpeed cs ->
  speed (updateCarPhysics cs) = magnitude (velocity (updateCarPhysics cs)) /\
  0 <= speed (updateCarPhysics cs).
Proof.
  intros HM. pose proof (speed_is_magnitude cs HM) as H.
  split; [exact H|]. rewrite H. apply magnitude_nonneg.
Qed.

(** X2.  The steering direction does not depend on the direction of travel.
    After a tick has stored the speed (never negative), a further tick with
    the speed above the dead zone turns the heading by exactly [+turnSpeed]
    for the left key and [-turnSpeed] for the right key, also when the
    velocity points backward. *)
Theorem steering_never_reverses (cs : CarSystem R) (k : Keys) :
  0 <= maxSpeed cs ->
  let cs1 := updateCarPhysics cs in
  lit 0.01 < speed cs1 ->
  left k <> right k ->
  rotation (updateCarPhysics (set_keys k cs1)) =
  if left k then rotation cs1 + turnSpeed cs1 else rotation cs1 - turnSpeed cs1.
Proof.
  intros HM cs1 Hs Hk.
  assert (H0 : 0 <= speed cs1).
  { unfold cs1. rewrite (speed_is_magnitude cs HM). apply magnitude_nonneg. }
  rewrite rotation_updateCarPhysics. unfold steeredRotation.
  cbn [keys set_keys speed rotation turnSpeed].
  assert (Hpos : 0 < speed cs1) by (real_lits; lra).
  assert (Hturn : gtb (Math_abs (speed cs1)) (lit 0.01) = true).
  { apply Rgtb_true. real_ops. rewrite Rabs_pos_eq by lra. exact Hs. }
  rewrite Hturn, (Rsign_pos Hpos), !andb_true_r. real_ops.
  destruct (left k), (right k); try (exfalso; apply Hk; reflexivity); lra.
Qed.

(** Thrust and friction on a velocity of magnitude at most [M], with the
    parameters of the source. *)
Lemma beforeClamp_magnitude (cs : CarSystem R) (M : R) :
  configured cs -> magnitude (velocity cs) <= M ->
  magnitude (velocity (beforeClamp cs)) <= (M + 12/1000) * (95/100).
Proof.
  intros (Ha & Hm & Hf & Hb) Hv.
  pose proof (magnitude_nonneg (velocity cs)) as H0.
  pose proof (magnitude_sqr (velocity cs)) as Hsq.
  pose proof (sin2_cos2 (steeredRotation cs)) as Hsc. unfold Rsqr in Hsc.
  unfold beforeClamp. rewrite step3_steer_eq, step2_brake_eq.
  unfold step5_friction, step4_thrust, step1_accel, scale, magnitude.
  cbn [velocity set_velocity set_rotation rotation keys friction acceleration
       brakeForce x z maxSpeed].
  rewrite Ha, Hf, Hb in *. real_lits.
  apply sqrt_le_bound; [lra|].
  set (s := sin (steeredRotation cs)) in *.
  set (c := cos (steeredRotation cs)) in *.
  set (B := M + 12/1000).
  assert (Hgen : forall vx vz a : R,
             vx * vx + vz * vz <= M * M -> - (12/1000) <= a <= 12/1000 ->
             (vx + a * s) * (95 * / 100) * ((vx + a * s) * (95 * / 100))
             + (vz + a * c) * (95 * / 100) * ((vz + a * c) * (95 * / 100))
             <= B * (95/100) * (B * (95/100))).
  { intros vx vz a Hvv Haa.
    assert (Hb' : (vx + a * s) * (vx + a * s) + (vz + a * c) * (vz + a * c)
                  <= B * B).
    { unfold B. destruct (Rle_dec 0 a) as [Hpos|Hneg].
      - apply Rle_trans with ((M + a) * (M + a)); [|nra].
        apply thrust_bound; try assumption; lra.
      - apply Rle_trans with ((M + - a) * (M + - a)); [|nra].
        replace (vx + a * s) with (vx + - a * - s) by ring.
        replace (vz + a * c) with (vz + - a * - c) by ring.
        apply thrust_bound; try assumption; lra. }
    nra. }
  destruct (brake (keys cs)), (forward (keys cs)), (backward (keys cs));
    cbn [x z]; apply Hgen; try lra; nra.
Qed.

Lemma withinTopSpeed_tick (cs : CarSystem R) (k : Keys) :
  withinTopSpeed cs ->
  clampFires (set_keys k cs) = false /\
  withinTopSpeed (updateCarPhysics (set_keys k cs)).
Proof.
  intros [Hc Hv].
  assert (Hc' : configured (set_keys k cs)) by exact Hc.
  pose proof (@beforeClamp_magnitude (set_keys k cs) (228/1000) Hc' Hv) as Hpre.
  assert (Hf : clampFires (set_keys k cs) = false).
  { unfold clampFires. apply Rgtb_false.
    destruct Hc as (_ & Hm & _). cbn [maxSpeed set_keys]. rewrite Hm.
    real_lits. lra. }
  split; [exact Hf|]. split; [exact Hc|].
  rewrite velocity_clamped, Hf. lra.
Qed.

Lemma withinTopSpeed_drive (held : list Keys) : forall cs : CarSystem R,
  withinTopSpeed cs -> withinTopSpeed (drive held cs).
Proof.
  induction held as [|k rest IH]; intros cs H; cbn; [exact H|].
  apply IH. apply (withinTopSpeed_tick k H).
Qed.

Lemma withinTopSpeed_start : withinTopSpeed carSystem.
Proof.
  split; [repeat split|].
  unfold magnitude; cbn. unfold Q2R; cbn.
  replace (0 * / 1 * (0 * / 1) + 0 * / 1 * (0 * / 1)) with 0 by lra.
  rewrite sqrt_0. lra.
Qed.

(** X3.  With the parameters of the source the car never reaches
    [maxSpeed]: from the initial state, whatever keys are held frame after
    frame, the magnitude of the velocity stays at or below 0.228
    ([acceleration * friction / (1 - friction)]), and the speed limit fires
    in no frame. *)
Theorem top_speed_is_0228 (held : list Keys) (k : Keys) :
  let cs := drive held (carSystem (F := R)) in
  magnitude (velocity cs) <= lit 0.228 /\
  lit 0.228 < maxSpeed cs /\
  clampFires (set_keys k cs) = false.
Proof.
  cbn zeta.
  pose proof (withinTopSpeed_drive held withinTopSpeed_start) as H.
  destruct (withinTopSpeed_tick k H) as [Hf _].
  destruct H as [(_ & Hm & _) Hv].
  split; [real_lits; lra|]. split; [rewrite Hm; real_lits; lra|exact Hf].
Qed.

(** One tick without throttle: thrust is zero, the velocity is scaled. *)
Lemma coasting_tick (cs : CarSystem R) :
  forward (keys cs) = false -> backward (keys cs) = false ->
  0 <= friction cs <= 1 ->
  (brake (keys cs) = true -> 0 <= brakeForce cs <= 1) ->
  magnitude (velocity cs) <= maxSpeed cs ->
  let factor := (if brake (keys cs) then brakeForce cs else 1) * friction cs in
  velocity (updateCarPhysics cs) = scale factor (velocity cs) /\
  magnitude (velocity (updateCarPhysics cs)) <= maxSpeed cs.
Proof.
  intros Hf Hb Hfr Hbr Hv factor.
  assert (Hfac : 0 <= factor <= 1).
  { unfold factor. destruct (brake (keys cs)); [specialize (Hbr eq_refl)|]; nra. }
  assert (Hpre : velocity (beforeClamp cs) = scale factor (velocity cs)).
  { unfold beforeClamp. rewrite step3_steer_eq, step2_brake_eq.
    unfold step5_friction, step4_thrust, step1_accel, scale, factor.
    cbn [velocity set_velocity set_rotation rotation keys friction acceleration
         brakeForce x z].
    rewrite Hf, Hb. real_lits.
    destruct (brake (keys cs)); cbn [x z]; f_equal; ring. }
  pose proof (magnitude_nonneg (velocity cs)) as H0.
  assert (Hm : magnitude (velocity (beforeClamp cs)) <= maxSpeed cs).
  { rewrite Hpre, magnitude_scale by lra.
    apply Rle_trans with (1 * magnitude (velocity cs)); [|lra].
    apply Rmult_le_compat_r; lra. }
  assert (Hc : clampFires cs = false)
    by (unfold clampFires; apply Rgtb_false; exact Hm).
  rewrite velocity_clamped, Hc. split; [exact Hpre|exact Hm].
Qed.

Lemma scale_scale (a b : R) (v : XZ R) : scale a (scale b v) = scale (b * a) v.
Proof. unfold scale; cbn. f_equal; ring. Qed.

(** X4.  Coasting.  With neither throttle key nor the brake held (steering
    keys may be), and friction between 0 and 1, a velocity within the limit
    decays geometrically: after [n] ticks it is the initial velocity times
    [friction ^ n], in the same direction, whatever happens to the heading. *)
Theorem coasting_decay (n : nat) : forall cs : CarSystem R,
  forward (keys cs) = false -> backward (keys cs) = false ->
  brake (keys cs) = false ->
  0 <= friction cs <= 1 ->
  magnitude (velocity cs) <= maxSpeed cs ->
  velocity (iterate n updateCarPhysics cs) = scale (friction cs ^ n) (velocity cs).
Proof.
  induction n as [|n IH]; intros cs Hf Hb Hk Hfr Hv.
  - cbn. unfold scale. destruct (velocity cs); cbn. f_equal; ring.
  - cbn [iterate].
    destruct (@coasting_tick cs) as [Hstep Hlim]; try assumption.
    { rewrite Hk. discriminate. }
    rewrite IH; try assumption.
    rewrite Hstep, Hk, scale_scale. f_equal.
    replace (friction (updateCarPhysics cs)) with (friction cs) by reflexivity.
    cbn. ring.
Qed.

(** X5.  Left and right held together cancel: in real arithmetic the heading
    after the tick is the heading before it, at any speed.  Within the dead
    zone neither steering statement runs; above it the increment of the left
    key is taken back by the right key. *)
Theorem steer_both_cancels (cs : CarSystem R) :
  left (keys cs) = true -> right (keys cs) = true ->
  rotation (updateCarPhysics cs) = rotation cs.
Proof.
  intros Hl Hr. rewrite rotation_updateCarPhysics. unfold steeredRotation.
  rewrite Hl, Hr. cbn [andb].
  destruct (gtb (Math_abs (speed cs)) (lit 0.01)); real_ops; ring.
Qed.

Lemma reversing_clamps : clampFires reversing = true.
Proof.
  assert (Hpre : velocity (beforeClamp reversing) = mkXZ 0 (- (95/100))).
  { unfold beforeClamp. rewrite step3_steer_eq, step2_brake_eq.
    unfold step5_friction, step4_thrust, step1_accel, steeredRotation, scale,
      reversing, carSystem.
    cbn. unfold Q2R; cbn. f_equal; lra. }
  unfold clampFires. rewrite Hpre, magnitude_axis.
  apply Rgtb_true. rewrite Rabs_left by lra. cbn. unfold Q2R; cbn. lra.
Qed.

Lemma reversing_speed : speed (updateCarPhysics reversing) = maxSpeed reversing.
Proof.
  rewrite speed_updateCarPhysics, speed_step6_clamp, maxSpeed_beforeClamp.
  fold (clampFires reversing). rewrite reversing_clamps. reflexivity.
Qed.

Lemma reversing_limit : 0 <= maxSpeed reversing.
Proof. cbn. unfold Q2R; cbn. lra. Qed.

Lemma reversing_fast : lit 0.01 < speed (updateCarPhysics reversing).
Proof. rewrite reversing_speed. cbn. unfold Q2R; cbn. lra. Qed.

Lemma stored_speed_is_magnitude_witness :
  0 <= maxSpeed reversing /\
  speed (updateCarPhysics reversing)
  = magnitude (velocity (updateCarPhysics reversing)).
Proof.
  split; [exact reversing_limit|].
  exact (proj1 (stored_speed_is_magnitude reversing reversing_limit)).
Defined.

(** The left key on a car that rolls backward: the heading still grows. *)
Lemma steering_never_reverses_witness :
  rotation (updateCarPhysics (set_keys leftOnly (updateCarPhysics reversing)))
  = rotation (updateCarPhysics reversing) + turnSpeed (updateCarPhysics reversing).
Proof.
  refine (steering_never_reverses reversing leftOnly reversing_limit
            reversing_fast _).
  discriminate.
Defined.

Lemma drifting_within_limit :
  magnitude (velocity drifting) <= maxSpeed drifting.
Proof.
  unfold magnitude; cbn. unfold Q2R; cbn.
  apply sqrt_le_bound; lra.
Qed.

Lemma drifting_friction : 0 <= friction drifting <= 1.
Proof. cbn. unfold Q2R; cbn. lra. Qed.

Lemma coasting_decay_witness :
  velocity (iterate 3 updateCarPhysics drifting)
  = scale (friction drifting ^ 3) (velocity drifting).
Proof.
  exact (coasting_decay 3 drifting eq_refl eq_refl eq_refl
           drifting_friction drifting_within_limit).
Defined.

Lemma spinning_steers : gtb (Math_abs (speed spinning)) (lit 0.01) = true.
Proof. apply Rgtb_true. cbn. real_lits. rewrite Rabs_pos_eq; lra. Qed.

(** Above the dead zone, where both steering statements run. *)
Lemma steer_both_cancels_witness :
  gtb (Math_abs (speed spinning)) (lit 0.01) = true /\
  rotation (updateCarPhysics spinning) = rotation spinning.
Proof.
  split; [exact spinning_steers|].
  exact (steer_both_cancels spinning eq_refl eq_refl).
Defined.

(** In binary64 the same tick moves the heading: (0.1 + 0.05) - 0.05 is the
    double after 0.1. *)
Lemma steer_both_rounds_binary64 :
  PrimFloat.eqb
    (rotation (updateCarPhysics (num := Binary64.heading0) spinning64))
    (rotation spinning64) = false.
Proof. vm_compute. reflexivity. Qed.

End CarPhysicsMore.

(** ** More on the plane-anchor state machine *)

Section AnchorMore.
Context {F : Type} {num : JSNumber F}.
Import Three Wasd Runs.
Local Open Scope js_scope.

Lemma handleMarkerDetection_valid (now : F) (id : Z) (m : list F) (ar : ArSystem F) :
  id <> (-1)%Z -> searchingForMarker ar = true ->
  handleMarkerDetection now (mkMarkerEvent id (Some m)) ar =
  Normal (mkArSystem true now (converted m) true true false).
Proof.
  intros Hid Hs. rewrite handleMarkerDetection_store by assumption. reflexivity.
Qed.

(** X6.  In every state the program reaches, the two phase flags never
    contradict each other, and an established plane is an initialised one. *)
Theorem flags_never_contradict (ar : ArSystem F) :
  Reachable ar ->
  (phase ar = Some Searching \/ phase ar = Some Anchored) /\
  (planeEstablished ar = true -> initialized ar = true).
Proof.
  induction 1 as [|now event ar Hr IH|ar Hr IH|cs ar Hr IH].
  - split; [left; reflexivity|discriminate].
  - destruct IH as [IHp IHi].
    destruct event as [id [m|]];
      destruct (Z.eq_dec id (-1)) as [->|Hid];
      try (rewrite handleMarkerDetection_skip by reflexivity; split; assumption).
    + destruct IHp as [Hp|Hp].
      * apply phase_Searching in Hp as [_ Hs].
        rewrite handleMarkerDetection_store by assumption.
        split; [right; reflexivity|reflexivity].
      * apply phase_Anchored in Hp as [He Hs].
        rewrite handleMarkerDetection_skip by (rewrite Hs; apply andb_false_r).
        split; [right; apply phase_Anchored; auto|exact IHi].
    + destruct (searchingForMarker ar) eqn:Hs.
      * rewrite handleMarkerDetection_throw by assumption. split; assumption.
      * rewrite handleMarkerDetection_skip by (rewrite Hs; apply andb_false_r).
        split; assumption.
  - destruct IH as [IHp IHi]. split; [exact IHp|reflexivity].
  - split; [left; reflexivity|discriminate].
Qed.

(** Once the search is off, [process] changes nothing and does not throw on
    account of an event. *)
Lemma dispatch_not_searching (events : list (F * MarkerEvent F)) (ar : ArSystem F) :
  searchingForMarker ar = false -> dispatch events ar = Normal ar.
Proof.
  intros Hs. induction events as [|[t e] rest IH]; cbn; [reflexivity|].
  rewrite handleMarkerDetection_skip by (rewrite Hs; apply andb_false_r).
  exact IH.
Qed.

Lemma dispatch_first_valid
  (before after : list (F * MarkerEvent F)) (now : F) (id : Z) (m : list F)
  (ar : ArSystem F) :
  searchingForMarker ar = true -> id <> (-1)%Z ->
  Forall (fun e => idMatrix (snd e) = (-1)%Z) before ->
  dispatch (before ++ (now, mkMarkerEvent id (Some m)) :: after) ar =
  Normal (mkArSystem true now (converted m) true true false).
Proof.
  intros Hs Hid Hb. induction Hb as [|[t e] rest He _ IH]; cbn.
  - rewrite handleMarkerDetection_valid by assumption.
    apply dispatch_not_searching. reflexivity.
  - cbn in He. rewrite handleMarkerDetection_skip; [exact IH|].
    rewrite He. reflexivity.
Qed.

(** X7.  Within one call of [process], the first detection with a valid id
    wins: events carrying the sentinel are skipped, the first valid one with
    a pose array is stored with its time stamp, and every later event of the
    same call, whatever its id or pose, is ignored; the call does not throw
    on account of them. *)
Theorem first_valid_detection_wins
  (before after : list (F * MarkerEvent F)) (now : F) (id : Z) (m : list F)
  (ar : ArSystem F) :
  searchingForMarker ar = true -> id <> (-1)%Z ->
  Forall (fun e => idMatrix (snd e) = (-1)%Z) before ->
  process (mkProcessRun (before ++ (now, mkMarkerEvent id (Some m)) :: after)
             false) ar =
  Normal (mkArSystem true now (converted m) true true false).
Proof.
  intros Hs Hid Hb. unfold process. cbn [detections processFails].
  rewrite dispatch_first_valid by assumption. reflexivity.
Qed.

Lemma renderLoop_anchored (currentTime : F) (run : ProcessRun F) (pg : Page F) :
  phase (ar pg) = Some Anchored ->
  ar (snd (renderLoop currentTime run pg)) = ar pg /\
  container (snd (renderLoop currentTime run pg))
  = mkObject3D true (planeMatrix (ar pg)).
Proof.
  intros Hp. apply phase_Anchored in Hp as [He Hs].
  unfold renderLoop, shouldProcessAR. rewrite Hs, He, !andb_false_r. cbn.
  unfold updateContainerTransform. rewrite He. split; reflexivity.
Qed.

(** X8.  The Anchored phase is absorbing for frames: over any sequence of
    frames, whatever the recogniser would report, [arSystem] stays as it
    was, and after each frame the container is visible with the stored
    plane matrix. *)
Theorem anchored_is_absorbing (fs : list (F * ProcessRun F)) : forall pg : Page F,
  phase (ar pg) = Some Anchored ->
  ar (frames fs pg) = ar pg /\
  (fs <> [] ->
   container (frames fs pg) = mkObject3D true (planeMatrix (ar pg))).
Proof.
  induction fs as [|[t run] rest IH]; intros pg Hp; cbn.
  - split; [reflexivity|congruence].
  - destruct (renderLoop_anchored t run pg Hp) as [Ha Hc].
    destruct (IH (snd (renderLoop t run pg))) as [IHa IHc].
    { rewrite Ha. exact Hp. }
    rewrite Ha in IHa, IHc. split; [exact IHa|].
    intros _. destruct rest as [|f rest'].
    + exact Hc.
    + apply IHc. discriminate.
Qed.

(** X9.  The frame that anchors shows the content at once: when a frame
    calls the recogniser and its first event has a valid id and a pose
    array, then at the end of that same frame the phase is Anchored, the
    container is visible with the converted pose, and [lastProcessTime] is
    the frame's time unless [process] itself failed afterwards. *)
Theorem anchoring_shows_content
  (currentTime now : F) (id : Z) (m : list F)
  (rest : list (F * MarkerEvent F)) (fails : bool) (pg : Page F) :
  shouldProcessAR currentTime pg = true -> id <> (-1)%Z ->
  let run := mkProcessRun ((now, mkMarkerEvent id (Some m)) :: rest) fails in
  let pg' := snd (renderLoop currentTime run pg) in
  ar pg' = mkArSystem true now (converted m) true true false /\
  container pg' = mkObject3D true (converted m) /\
  lastProcessTime pg' = if fails then lastProcessTime pg else currentTime.
Proof.
  intros Hc Hid run pg'.
  assert (Hs : searchingForMarker (ar pg) = true).
  { unfold shouldProcessAR in Hc.
    destruct (searchingForMarker (ar pg)); [reflexivity|].
    rewrite !andb_false_r in Hc. discriminate. }
  pose proof (@dispatch_first_valid [] rest now id m (ar pg) Hs Hid
                (Forall_nil _)) as Hd.
  cbn [app] in Hd.
  unfold pg', renderLoop, process, run. rewrite Hc.
  cbn [detections processFails]. rewrite Hd.
  destruct fails; cbn; repeat split.
Qed.

(** X10.  Recognition is throttled.  After a frame at time [t1] in which
    [process] was called and returned, a frame at time [t2] for which the
    test [t2 - t1 >= processingInterval] fails does not call it.  A call of
    [process] that throws leaves [lastProcessTime] as it was. *)
Theorem recognition_throttled
  (t1 t2 : F) (run1 run2 : ProcessRun F) (pg : Page F) (a : ArSystem F) :
  shouldProcessAR t1 pg = true ->
  (process run1 (ar pg) = Normal a ->
   (t2 - t1 >=? processingInterval) = false ->
   fst (renderLoop t2 run2 (snd (renderLoop t1 run1 pg))) = false) /\
  (process run1 (ar pg) = Throw a ->
   lastProcessTime (snd (renderLoop t1 run1 pg)) = lastProcessTime pg).
Proof.
  intros Hc. split; intros Hp.
  - intros Hg. rewrite renderLoop_called.
    unfold renderLoop. rewrite Hc, Hp. unfold shouldProcessAR.
    cbn [snd lastProcessTime arLoaded arController ar].
    rewrite Hg. apply andb_false_r.
  - unfold renderLoop. rewrite Hc, Hp. reflexivity.
Qed.

End AnchorMore.

Section AnchorMoreInstances.
Import Three Wasd Runs Examples PageExamples.
Local Open Scope R_scope.

Lemma Rgeb_false (a b : R) : geb a b = false <-> a < b.
Proof.
  cbn; unfold Rgeb; destruct (Rle_dec b a); split; intros; try easy; lra.
Qed.

Lemma Reachable_anchored : Reachable anchored.
Proof. exact (reach_detect 1 marker7 reach_start). Qed.

Lemma flags_never_contradict_witness :
  Reachable anchored /\ phase anchored = Some Anchored /\
  initialized anchored = true.
Proof.
  split; [exact Reachable_anchored|]. split; [reflexivity|].
  exact (proj2 (flags_never_contradict Reachable_anchored) eq_refl).
Defined.

Lemma first_valid_detection_wins_witness :
  process (mkProcessRun [(1, sentinelEvent); (2, marker7); (3, marker9)] false)
    arSystem =
  Normal (mkArSystem true 2 (converted identityPose) true true false).
Proof.
  refine (@first_valid_detection_wins R _ [(1, sentinelEvent)]
            [(3, marker9)] 2 7%Z identityPose arSystem eq_refl _ _).
  - discriminate.
  - repeat constructor.
Defined.

Lemma anchored_is_absorbing_witness :
  ar (frames [(100, mkProcessRun [(100, marker9)] false)] anchoredPage)
  = ar anchoredPage.
Proof.
  exact (proj1 (anchored_is_absorbing
                  [(100, mkProcessRun [(100, marker9)] false)]
                  anchoredPage eq_refl)).
Defined.

Lemma page_shouldProcessAR : shouldProcessAR 100 page = true.
Proof. rewrite <- (renderLoop_called 100 (mkProcessRun [] false) page).
  exact page_frame_calls_process. Qed.

Lemma anchoring_shows_content_witness :
  container (snd (renderLoop 100
                    (mkProcessRun [(101, marker7); (102, marker9)] false) page))
  = mkObject3D true (converted identityPose).
Proof.
  refine (proj1 (proj2 (@anchoring_shows_content R _ 100 101 7%Z identityPose
                          [(102, marker9)] false page page_shouldProcessAR _))).
  discriminate.
Defined.

Lemma too_soon : geb (110 - 100) (processingInterval (F := R)) = false.
Proof.
  apply Rgeb_false. unfold processingInterval. cbn. unfold Q2R; cbn. lra.
Qed.

Lemma recognition_throttled_witness :
  fst (renderLoop 110 (mkProcessRun [] false)
         (snd (renderLoop 100 (mkProcessRun [] false) page))) = false.
Proof.
  exact (proj1 (@recognition_throttled R _ 100 110 (mkProcessRun [] false)
                  (mkProcessRun [] false) page arSystem page_shouldProcessAR)
           eq_refl too_soon).
Defined.

End AnchorMoreInstances.

(** ** The page of the keyboard variant, event by event *)

Section SessionGeneric.
Context {F : Type} {num : JSNumber F}.
Import Three Wasd Session SessionInvariant.
Local Open Scope js_scope.

(** The handler with the page elements does to [arSystem] what the handler
    of [Wasd] does. *)
Lemma handleMarkerDetection_ar (now : F) (event : MarkerEvent F)
  (a : ArSystem F) (d : Dom) :
  match handleMarkerDetection now event (a, d),
        Wasd.handleMarkerDetection now event a with
  | Normal (a1, _), Normal a2 => a1 = a2
  | Throw (a1, d1), Throw a2 => a1 = a2 /\ d1 = d
  | _, _ => False
  end.
Proof.
  unfold handleMarkerDetection, Wasd.handleMarkerDetection.
  destruct (negb (idMatrix event =? -1)%Z && searchingForMarker a).
  - destruct (updatePlaneReference (matrixGL_RH event) a); [reflexivity|split; reflexivity].
  - reflexivity.
Qed.

Lemma dispatch_ar (events : list (F * MarkerEvent F)) :
  forall (a : ArSystem F) (d : Dom),
  match dispatch events (a, d), Wasd.dispatch events a with
  | Normal (a1, _), Normal a2 => a1 = a2
  | Throw (a1, _), Throw a2 => a1 = a2
  | _, _ => False
  end.
Proof.
  induction events as [|[now event] rest IH]; intros a d; cbn [dispatch Wasd.dispatch].
  - reflexivity.
  - pose proof (handleMarkerDetection_ar now event a d) as H.
    destruct (handleMarkerDetection now event (a, d)) as [[a1 d1]|[a1 d1]],
             (Wasd.handleMarkerDetection now event a) as [a2|a2];
      try contradiction.
    + subst a2. apply IH.
    + destruct H as [-> _]. reflexivity.
Qed.

Lemma process_ar (r : ProcessRun F) (a : ArSystem F) (d : Dom) :
  match process r (a, d), Wasd.process r a with
  | Normal (a1, _), Normal a2 => a1 = a2
  | Throw (a1, _), Throw a2 => a1 = a2
  | _, _ => False
  end.
Proof.
  unfold process, Wasd.process.
  pose proof (dispatch_ar (detections r) a d) as H.
  destruct (dispatch (detections r) (a, d)) as [[a1 d1]|[a1 d1]],
           (Wasd.dispatch (detections r) a) as [a2|a2]; try contradiction.
  - destruct (processFails r); exact H.
  - exact H.
Qed.

(** A frame does to the globals what [renderLoop] does. *)
Lemma frame_page (currentTime : F) (r : ProcessRun F) (w : World F) :
  page (frame currentTime r w) = snd (renderLoop currentTime r (page w)).
Proof.
  unfold frame, renderLoop.
  destruct (shouldProcessAR currentTime (page w)); [|reflexivity].
  pose proof (process_ar r (ar (page w)) (dom w)) as H.
  destruct (process r (ar (page w), dom w)) as [[a1 d1]|[a1 d1]],
           (Wasd.process r (ar (page w))) as [a2|a2]; try contradiction;
    subst a2; reflexivity.
Qed.

(** *** The invariant *)

Lemma handleMarkerDetection_keeps (now : F) (event : MarkerEvent F)
  (a : ArSystem F) (d : Dom) :
  flagsAgree a -> overlayTimed d ->
  let st := stateOf (handleMarkerDetection now event (a, d)) in
  flagsAgree (fst st) /\ overlayTimed (snd st) /\
  gridStatus (snd st) = gridStatus d.
Proof.
  intros Ha Hd. unfold handleMarkerDetection.
  destruct (negb (idMatrix event =? -1)%Z && searchingForMarker a);
    [|cbn; auto].
  unfold updatePlaneReference.
  destruct (Wasd.fixMatrix (planeMatrix a) (matrixGL_RH event)); [|cbn; auto].
  cbn. repeat split.
  - intros _. destruct (initialized a); reflexivity.
  - intros o _ _. cbn. lia.
Qed.

Lemma dispatch_keeps (events : list (F * MarkerEvent F)) :
  forall (a : ArSystem F) (d : Dom),
  flagsAgree a -> overlayTimed d ->
  let st := stateOf (dispatch events (a, d)) in
  flagsAgree (fst st) /\ overlayTimed (snd st) /\
  gridStatus (snd st) = gridStatus d.
Proof.
  induction events as [|[now event] rest IH]; intros a d Ha Hd;
    cbn [dispatch].
  - cbn. auto.
  - pose proof (handleMarkerDetection_keeps now event Ha Hd) as H.
    destruct (handleMarkerDetection now event (a, d)) as [[a1 d1]|[a1 d1]];
      cbn in H; destruct H as (H1 & H2 & H3).
    + specialize (IH a1 d1 H1 H2). cbv zeta in IH |- *.
      destruct IH as (I1 & I2 & I3).
      split; [exact I1|split; [exact I2|]]. rewrite I3. exact H3.
    + cbn. auto.
Qed.

Lemma process_keeps (r : ProcessRun F) (a : ArSystem F) (d : Dom) :
  flagsAgree a -> overlayTimed d ->
  let st := stateOf (process r (a, d)) in
  flagsAgree (fst st) /\ overlayTimed (snd st) /\
  gridStatus (snd st) = gridStatus d.
Proof.
  intros Ha Hd. unfold process.
  pose proof (dispatch_keeps (detections r) Ha Hd) as H.
  destruct (dispatch (detections r) (a, d)) as [st|st]; cbn in H.
  - destruct (processFails r); exact H.
  - exact H.
Qed.

(** What a frame leaves of the page, in terms of [process]. *)
Lemma frame_recognised (currentTime : F) (r : ProcessRun F) (w : World F) :
  exists (a : ArSystem F) (d : Dom),
    ar (page (frame currentTime r w)) = a /\
    dom (frame currentTime r w) = updateUI (arLoaded (page w)) a d /\
    ((a, d) = (ar (page w), dom w) \/
     (shouldProcessAR currentTime (page w) = true /\
      (a, d) = stateOf (process r (ar (page w), dom w)))).
Proof.
  unfold frame.
  destruct (shouldProcessAR currentTime (page w)).
  - destruct (process r (ar (page w), dom w)) as [[a d]|[a d]];
      exists a, d; cbn; auto.
  - exists (ar (page w)), (dom w). cbn. auto.
Qed.

Lemma frame_keeps (currentTime : F) (r : ProcessRun F) (w : World F) :
  arLoaded (page (frame currentTime r w)) = arLoaded (page w) /\
  arController (page (frame currentTime r w)) = arController (page w) /\
  gridPlane (frame currentTime r w) = gridPlane w /\
  car (page (frame currentTime r w)) = updateCarPhysics (car (page w)).
Proof.
  unfold frame.
  destruct (shouldProcessAR currentTime (page w));
    [destruct (process r (ar (page w), dom w)) as [[? ?]|[? ?]]|];
    cbn; auto.
Qed.

Lemma updateUI_keeps (loaded : bool) (a : ArSystem F) (d : Dom) :
  gridStatus (updateUI loaded a d) = gridStatus d /\
  overlay (updateUI loaded a d) = overlay d /\
  timeouts (updateUI loaded a d) = timeouts d.
Proof.
  unfold updateUI.
  destruct (planeEstablished a), (searchingForMarker a), (negb loaded);
    cbn; auto.
Qed.

Lemma Consistent_frame (currentTime : F) (r : ProcessRun F) (w : World F) :
  Consistent w -> Consistent (frame currentTime r w).
Proof.
  intros (Hf & Hc & Ho & v & Hg & Hl).
  destruct (frame_recognised currentTime r w) as (a & d & Ha & Hd & Hs).
  assert (K : flagsAgree a /\ overlayTimed d /\ gridStatus d = gridStatus (dom w)).
  { destruct Hs as [Hs|[_ Hs]].
    - inversion Hs; subst. auto.
    - pose proof (process_keeps r Hf Ho) as H. rewrite <- Hs in H. exact H. }
  destruct K as (K1 & K2 & K3).
  destruct (updateUI_keeps (arLoaded (page w)) a d) as (U1 & U2 & U3).
  unfold Consistent, gridLabelled, overlayTimed. rewrite Ha, Hd. repeat split.
  - apply K1.
  - apply K1.
  - destruct (frame_keeps currentTime r w) as (-> & -> & _). exact Hc.
  - intros o Hov Hdis. rewrite U3. rewrite U2 in Hov. exact (K2 o Hov Hdis).
  - exists v. split.
    + destruct (frame_keeps currentTime r w) as (_ & _ & -> & _). exact Hg.
    + rewrite U1, K3. exact Hl.
Qed.

Lemma Consistent_fallback (w : World F) :
  Consistent w -> Consistent (setupFallbackCamera w).
Proof.
  intros (Hf & Hc & Ho & Hg). unfold Consistent, flagsAgree. cbn.
  repeat split; try assumption; apply Hf.
Qed.

Lemma Consistent_reset (w : World F) :
  Consistent w -> Consistent (resetCarPosition w).
Proof.
  intros (Hf & Hc & Ho & Hg). unfold Consistent, flagsAgree. cbn.
  repeat split; try assumption; try discriminate.
  intros o _ _. cbn. lia.
Qed.

Lemma Consistent_toggle (w : World F) :
  Consistent w -> Consistent (toggleGrid w).
Proof.
  intros (Hf & Hc & Ho & v & Hg & Hl). unfold toggleGrid. rewrite Hg.
  unfold Consistent. cbn. repeat split; try assumption; try apply Hf.
  exists (negb v). auto.
Qed.

Lemma Consistent_keys (k : Keys) (w : World F) :
  Consistent w -> Consistent (with_keys k w).
Proof. intros H. exact H. Qed.

Lemma Consistent_step (e : Event F) (w : World F) :
  Consistent w -> Consistent (step e w).
Proof.
  intros H. destruct e as [t r|code|code| | | |cm configures| ]; cbn [step].
  - apply Consistent_frame, H.
  - unfold keydown.
    assert (K : Consistent
      match lookup keyMap code with
      | Some c => with_keys (setKey c true (heldKeys w)) w
      | None => w
      end) by (destruct (lookup keyMap code); exact H).
    destruct (String.eqb code KeyR); [apply Consistent_reset, K|].
    destruct (String.eqb code KeyG); [apply Consistent_toggle, K|exact K].
  - unfold keyup. destruct (lookup keyMap code); exact H.
  - destruct H as (Hf & Hc & Ho & Hg). unfold Consistent. cbn.
    repeat split; try assumption; try apply Hf.
    + unfold overlayTimed, overlayTimeout.
      destruct (timeouts (dom w)) as [|n] eqn:Hn.
      * intros o Hov Hdis. specialize (Ho o Hov Hdis). lia.
      * cbn. intros o Hov Hdis.
        destruct (overlay (dom w)); inversion Hov; subst. discriminate.
    + destruct Hg as (v & Hg & Hl). exists v. split; [exact Hg|].
      cbn. unfold overlayTimeout. destruct (timeouts (dom w)); exact Hl.
  - exact H.
  - exact H.
  - destruct (arController (page w)) eqn:Hctl; [|exact H].
    unfold onload.
    destruct cm as [m|]; [|apply Consistent_fallback, H].
    destruct (List.length m =? 16)%nat; [|apply Consistent_fallback, H].
    destruct configures; [|apply Consistent_fallback, H].
    destruct H as (Hf & Hc & Ho & Hg). unfold Consistent. cbn.
    split; [exact Hf|split; [intros _; exact Hctl|split; [exact Ho|exact Hg]]].
  - destruct (arController (page w)); [apply Consistent_fallback, H|exact H].
Qed.

Lemma Consistent_run (events : list (Event F)) : forall w : World F,
  Consistent w -> Consistent (run events w).
Proof.
  induction events as [|e rest IH]; intros w H; cbn [run].
  - exact H.
  - apply IH, Consistent_step, H.
Qed.

Lemma Consistent_start (outcome : Construction) :
  Consistent (start_processing (F := F) outcome).
Proof.
  assert (H : Consistent (declared (F := F))).
  { unfold Consistent, flagsAgree, overlayTimed, gridLabelled. cbn.
    repeat split; try discriminate. exists true. auto. }
  destruct outcome; cbn.
  - apply Consistent_fallback, H.
  - apply Consistent_fallback, H.
  - destruct H as (Hf & Hc & Ho & Hg). unfold Consistent. cbn.
    repeat split; try assumption; try apply Hf.
Qed.

(** *** The marker status *)

(** X11.  After every frame of every run of the page, however the set-up of
    the recogniser went, the marker status reads 'Plane Active (Marker
    Removed)' (class status-good) when the plane is established and
    'Searching for Marker...' (class status-warning) when it is not.  So the
    texts 'AR Disabled (Files Missing)', 'Searching...' and 'Plane Set (ID:
    ...)' written by the set-up and by the detection handler do not outlast
    the frame that follows them; the third branch of [updateUI] is never
    taken. *)
Theorem status_follows_phase (outcome : Construction)
  (events : list (Event F)) (currentTime : F) (r : ProcessRun F) :
  let w := frame currentTime r (run events (start_processing outcome)) in
  (markerStatus (dom w), markerClass (dom w)) =
  if planeEstablished (ar (page w)) then (PlaneActive, status_good)
  else (SearchingForMarker, status_warning).
Proof.
  intros w. subst w.
  set (w0 := run events (start_processing outcome)).
  assert (H0 : Consistent w0) by apply Consistent_run, Consistent_start.
  pose proof (Consistent_frame currentTime r H0) as ((Hf & _) & _).
  destruct (frame_recognised currentTime r w0) as (a & d & Ha & Hd & _).
  rewrite Hd. rewrite Ha in Hf |- *. unfold updateUI.
  destruct (planeEstablished a); [reflexivity|].
  destruct (searchingForMarker a); [reflexivity|discriminate].
Qed.

(** *** The car model *)

Lemma frame_scene (currentTime : F) (r : ProcessRun F) (w : World F) :
  let a := ar (page (frame currentTime r w)) in
  carModel (frame currentTime r w) =
    (if (match carModel w with Some _ => true | None => false end)
        && initialized a
     then updateCarVisualPosition (updateCarPhysics (car (page w))) (carModel w)
     else carModel w) /\
  container (page (frame currentTime r w)) =
    updateContainerTransform (arLoaded (page w)) a (container (page w)).
Proof.
  unfold frame.
  destruct (shouldProcessAR currentTime (page w));
    [destruct (process r (ar (page w), dom w)) as [[? ?]|[? ?]]|];
    cbn; auto.
Qed.

(** X12.  After every frame of every run of the page in which the container
    is visible, a car model that is loaded shows the state of [carSystem]:
    its x and z are the car's position, its height is 0.1 and its rotation
    about y is the car's heading. *)
Theorem visible_model_in_sync (outcome : Construction)
  (events : list (Event F)) (currentTime : F) (r : ProcessRun F)
  (m : CarModel F) :
  let w := frame currentTime r (run events (start_processing outcome)) in
  visible (container (page w)) = true ->
  carModel w = Some m ->
  m = mkCarModel (x (position (car (page w)))) (lit 0.1)
        (z (position (car (page w)))) (rotation (car (page w))).
Proof.
  intros w. subst w.
  set (w0 := run events (start_processing outcome)).
  assert (H0 : Consistent w0) by apply Consistent_run, Consistent_start.
  pose proof (Consistent_frame currentTime r H0) as ((_ & Hi) & _).
  destruct (frame_scene currentTime r w0) as (Hm & Hc).
  destruct (frame_keeps currentTime r w0) as (_ & _ & _ & Hcar).
  cbv zeta in Hm, Hc. rewrite Hc, Hm, Hcar.
  set (a := ar (page (frame currentTime r w0))) in *.
  unfold updateContainerTransform. intros Hv.
  assert (Hinit : initialized a = true).
  { destruct (planeEstablished a) eqn:He; [apply Hi; reflexivity|].
    destruct (negb (arLoaded (page w0))), (initialized a);
      cbn in Hv; congruence. }
  rewrite Hinit.
  destruct (carModel w0) as [m0|]; cbn; [|discriminate].
  intros Hs; inversion Hs; reflexivity.
Qed.

(** *** Reset without a recogniser *)

Lemma lostPlane_step (e : Event F) (w : World F) :
  isSetup e = false -> lostPlane w -> lostPlane (step e w).
Proof.
  intros He (Hl & Hp & Hs & Hi).
  destruct e as [t r|code|code| | | |cm configures| ]; try discriminate;
    cbn [step].
  - unfold lostPlane, frame.
    assert (Hno : shouldProcessAR t (page w) = false)
      by (unfold shouldProcessAR; rewrite Hl; reflexivity).
    rewrite Hno. cbn. auto.
  - unfold keydown.
    assert (K : lostPlane
      match lookup keyMap code with
      | Some c => with_keys (setKey c true (heldKeys w)) w
      | None => w
      end) by (destruct (lookup keyMap code); unfold lostPlane; cbn; auto).
    destruct K as (Kl & Kp & Ks & Ki).
    destruct (String.eqb code KeyR); [unfold lostPlane; cbn; auto|].
    destruct (String.eqb code KeyG); [|unfold lostPlane; auto].
    unfold toggleGrid, lostPlane.
    destruct (gridPlane _); cbn; auto.
  - unfold keyup. destruct (lookup keyMap code); unfold lostPlane; cbn; auto.
  - unfold lostPlane; cbn; auto.
  - unfold lostPlane; cbn; auto.
  - unfold lostPlane; cbn; auto.
Qed.

Lemma lostPlane_run (events : list (Event F)) : forall w : World F,
  Forall (fun e => isSetup e = false) events ->
  lostPlane w -> lostPlane (run events w).
Proof.
  induction events as [|e rest IH]; intros w Hall H; cbn [run].
  - exact H.
  - inversion Hall; subst. apply IH; [assumption|].
    apply lostPlane_step; assumption.
Qed.

Lemma keydown_KeyR (w : World F) : keydown KeyR w = resetCarPosition w.
Proof. reflexivity. Qed.

(** X13.  Where the recogniser is not loaded, a press of R hides the content
    for good: as long as no callback of the recogniser's set-up arrives,
    every later frame leaves the container invisible and the page Searching,
    whatever keys are pressed; no detection can end the search, since the
    recogniser is never run. *)
Theorem reset_without_recogniser (events : list (Event F)) (currentTime : F)
  (r : ProcessRun F) (w : World F) :
  arLoaded (page w) = false ->
  Forall (fun e => isSetup e = false) events ->
  let w' := frame currentTime r (run events (keydown KeyR w)) in
  visible (container (page w')) = false /\
  phase (ar (page w')) = Some Searching.
Proof.
  intros Hl Hall w'. subst w'.
  assert (H : lostPlane (run (events ++ [Frame currentTime r]) (keydown KeyR w))).
  { apply lostPlane_run.
    - apply Forall_app. split; [exact Hall|]. constructor; [reflexivity|constructor].
    - rewrite keydown_KeyR. unfold lostPlane. cbn. auto. }
  assert (E : forall evs (v : World F),
             run (evs ++ [Frame currentTime r]) v = frame currentTime r (run evs v)).
  { induction evs as [|e evs IH]; intros v; cbn [run app]; [reflexivity|apply IH]. }
  rewrite E in H.
  set (w1 := run events (keydown KeyR w)) in *.
  destruct H as (Hl1 & Hp & Hs & Hi).
  destruct (frame_scene currentTime r w1) as (_ & Hc).
  destruct (frame_keeps currentTime r w1) as (Hk & _).
  cbv zeta in Hc. rewrite Hc. unfold updateContainerTransform, phase.
  rewrite Hp, Hi, Hs. rewrite andb_false_r. cbn. auto.
Qed.

(** *** The instruction overlay *)

(** X14.  In every run of the page, an instruction overlay that is shown has
    a pending timer that will hide it: the overlay never stays up for
    good. *)
Theorem overlay_never_stuck (outcome : Construction)
  (events : list (Event F)) (o : Overlay) :
  let w := run events (start_processing outcome) in
  overlay (dom w) = Some o -> displayed o = true ->
  (0 < timeouts (dom w))%nat.
Proof.
  intros w. subst w.
  destruct (Consistent_run events (Consistent_start outcome))
    as (_ & _ & Ho & _).
  apply Ho.
Qed.

(** X15.  The timers of [showInstructions] are never cancelled: when R is
    pressed while an earlier message's timer is pending, the firing of that
    timer hides the new message, while the new message's own timer is still
    to come. *)
Theorem message_hidden_by_older_timer (w : World F) :
  (0 < timeouts (dom w))%nat ->
  let w' := step OverlayTimeout (keydown KeyR w) in
  overlay (dom w') = Some (mkOverlay PlaceMarkerHelp false) /\
  timeouts (dom w') = timeouts (dom w).
Proof.
  intros Hn w'. subst w'. rewrite keydown_KeyR. cbn. auto.
Qed.

(** *** The grid *)

(** In every run of the page the grid exists, and the grid status,
    once it has been written, says 'Visible' exactly when the grid is
    visible. *)
Lemma grid_label_matches (outcome : Construction) (events : list (Event F)) :
  let w := run events (start_processing outcome) in
  exists v : bool,
    gridPlane w = Some v /\
    (gridStatus (dom w) = None \/ gridStatus (dom w) = Some v).
Proof.
  intros w. subst w.
  destruct (Consistent_run events (Consistent_start outcome))
    as (_ & _ & _ & Hg).
  exact Hg.
Qed.

(** *** The keys *)

Lemma lookup_keyMap_cases (code : String.string) :
  lookup keyMap code = None \/
  exists c, lookup keyMap code = Some c /\ code <> KeyR /\ code <> KeyG.
Proof.
  unfold keyMap. cbn [lookup].
  destruct (String.eqb KeyW code) eqn:E1;
    [apply String.eqb_eq in E1; subst; right; eexists; repeat split; discriminate|].
  destruct (String.eqb KeyS code) eqn:E2;
    [apply String.eqb_eq in E2; subst; right; eexists; repeat split; discriminate|].
  destruct (String.eqb KeyA code) eqn:E3;
    [apply String.eqb_eq in E3; subst; right; eexists; repeat split; discriminate|].
  destruct (String.eqb KeyD code) eqn:E4;
    [apply String.eqb_eq in E4; subst; right; eexists; repeat split; discriminate|].
  destruct (String.eqb Space code) eqn:E5;
    [apply String.eqb_eq in E5; subst; right; eexists; repeat split; discriminate|].
  left; reflexivity.
Qed.

Lemma setKey_twice (c : Control) (v : bool) (k : Keys) :
  setKey c v (setKey c v k) = setKey c v k.
Proof. destruct c; reflexivity. Qed.

(** X17.  Key repeat is harmless for the driving keys: for every code other
    than KeyR and KeyG, a second keydown (or keyup) of the same code changes
    nothing, and such an event touches nothing but the record of held keys;
    a code outside the key map changes nothing at all. *)
Theorem driving_keys_idempotent (code : String.string) (w : World F) :
  code <> KeyR -> code <> KeyG ->
  keydown code (keydown code w) = keydown code w /\
  keyup code (keyup code w) = keyup code w /\
  keydown code w = with_keys (heldKeys (keydown code w)) w /\
  keyup code w = with_keys (heldKeys (keyup code w)) w /\
  (lookup keyMap code = None -> keydown code w = w /\ keyup code w = w).
Proof.
  intros HR HG.
  apply String.eqb_neq in HR, HG.
  unfold keydown, keyup. rewrite HR, HG.
  destruct w as [[cs a c l ctl lp] g m d].
  destruct cs as [p v rot sp acc ms ts fr bf k].
  destruct (lookup keyMap code) as [ctrl|]; cbn.
  - unfold heldKeys, with_keys, with_page, set_keys; cbn.
    rewrite !setKey_twice. repeat split; discriminate.
  - repeat split; reflexivity.
Qed.

(** *** The set-up of the recogniser *)

Lemma step_arController (e : Event F) (w : World F) :
  arController (page (step e w)) = arController (page w).
Proof.
  destruct e as [t r|code|code| | | |cm configures| ]; cbn [step];
    try reflexivity.
  - apply frame_keeps.
  - unfold keydown.
    assert (K : arController (page
      match lookup keyMap code with
      | Some c => with_keys (setKey c true (heldKeys w)) w
      | None => w
      end) = arController (page w)) by (destruct (lookup keyMap code); reflexivity).
    destruct (String.eqb code KeyR); [exact K|].
    destruct (String.eqb code KeyG); [|exact K].
    unfold toggleGrid. destruct (gridPlane _); exact K.
  - unfold keyup. destruct (lookup keyMap code); reflexivity.
  - destruct (arController (page w)) eqn:Hc; [|exact Hc].
    unfold onload. destruct cm as [m|]; [|exact Hc].
    destruct (List.length m =? 16)%nat; [|exact Hc].
    destruct configures; exact Hc.
  - destruct (arController (page w)) eqn:Hc; exact Hc.
Qed.

Lemma step_arLoaded (e : Event F) (w : World F) :
  arLoaded (page (step e w)) = true <->
  arLoaded (page w) = true \/ (arController (page w) = true /\ enables e).
Proof.
  assert (N : forall e' : Event F, isSetup e' = false -> ~ enables e').
  { intros e' He (m & -> & _). discriminate. }
  destruct e as [t r|code|code| | | |cm configures| ]; cbn [step].
  - destruct (frame_keeps t r w) as (-> & _).
    split; [auto|intros [H|[_ H]]; [exact H|]]. exfalso; revert H; apply N; reflexivity.
  - assert (E : arLoaded (page (keydown code w)) = arLoaded (page w)).
    { unfold keydown.
      assert (K : arLoaded (page
        match lookup keyMap code with
        | Some c => with_keys (setKey c true (heldKeys w)) w
        | None => w
        end) = arLoaded (page w)) by (destruct (lookup keyMap code); reflexivity).
      destruct (String.eqb code KeyR); [exact K|].
      destruct (String.eqb code KeyG); [|exact K].
      unfold toggleGrid. destruct (gridPlane _); exact K. }
    rewrite E.
    split; [auto|intros [H|[_ H]]; [exact H|]]. exfalso; revert H; apply N; reflexivity.
  - assert (E : arLoaded (page (keyup code w)) = arLoaded (page w))
      by (unfold keyup; destruct (lookup keyMap code); reflexivity).
    rewrite E.
    split; [auto|intros [H|[_ H]]; [exact H|]]. exfalso; revert H; apply N; reflexivity.
  - cbn. split; [auto|intros [H|[_ H]]; [exact H|]]. exfalso; revert H; apply N; reflexivity.
  - cbn. split; [auto|intros [H|[_ H]]; [exact H|]]. exfalso; revert H; apply N; reflexivity.
  - cbn. split; [auto|intros [H|[_ H]]; [exact H|]]. exfalso; revert H; apply N; reflexivity.
  - destruct (arController (page w)) eqn:Hc.
    + unfold onload, enables.
      destruct cm as [m|].
      * destruct (List.length m =? 16)%nat eqn:Hlen.
        -- destruct configures.
           ++ cbn. split; [intros _|reflexivity].
              right. split; [reflexivity|].
              exists m. split; [reflexivity|]. apply Nat.eqb_eq, Hlen.
           ++ cbn. split; [auto|intros [H|[_ (m' & H & _)]]; [exact H|discriminate]].
        -- cbn. split; [auto|intros [H|[_ (m' & H & Hl)]]; [exact H|]].
           inversion H; subst. apply Nat.eqb_eq in Hl. congruence.
      * cbn. split; [auto|intros [H|[_ (m' & H & _)]]; [exact H|discriminate]].
    + split; [auto|intros [H|[H _]]; [exact H|discriminate]].
  - assert (E : arLoaded (page (if arController (page w) then onerror w else w))
                = arLoaded (page w)) by (destruct (arController (page w)); reflexivity).
    rewrite E.
    split; [auto|intros [H|[_ (m & H & _)]]; [exact H|discriminate]].
Qed.

Lemma run_arLoaded (events : list (Event F)) : forall w : World F,
  arLoaded (page (run events w)) = true <->
  arLoaded (page w) = true \/
  (arController (page w) = true /\ Exists enables events).
Proof.
  induction events as [|e rest IH]; intros w; cbn [run].
  - split; [auto|intros [H|[_ H]]; [exact H|inversion H]].
  - rewrite IH, step_arLoaded, step_arController. split.
    + intros [[H|[Hc He]]|[Hc Hex]]; auto.
    + intros [H|[Hc Hex]]; [auto|].
      inversion Hex; subst; auto.
Qed.

(** X18.  The recogniser is loaded at the end of a run exactly when the
    controller could be constructed and some call of [onload] in the run
    found a camera matrix of 16 entries and could configure the detection.
    In every other case the page stays in fallback mode, where no frame runs
    the recogniser. *)
Theorem recogniser_loaded_iff (outcome : Construction)
  (events : list (Event F)) :
  arLoaded (page (run events (start_processing outcome))) = true <->
  outcome = Constructed /\ Exists enables events.
Proof.
  rewrite run_arLoaded.
  destruct outcome; cbn; split.
  - intros [H|[H _]]; discriminate.
  - intros [H _]; discriminate.
  - intros [H|[H _]]; discriminate.
  - intros [H _]; discriminate.
  - intros [H|[_ H]]; [discriminate|auto].
  - intros [_ H]; auto.
Qed.

End SessionGeneric.

(** ** The page of the keyboard variant over the real numbers *)

Section SessionReal.
Import Three Wasd Session SessionInvariant.
Local Open Scope R_scope.

Lemma restarted_tick (cs : CarSystem R) :
  forward (keys cs) = true ->
  0 <= acceleration cs * friction cs <= maxSpeed cs ->
  let cs' := updateCarPhysics (fst (Wasd.resetCarPosition (cs, arSystem))) in
  position cs' = mkXZ 0 (acceleration cs * friction cs) /\
  rotation cs' = 0 /\ keys cs' = keys cs.
Proof.
  intros Hf Hm cs'. subst cs'.
  unfold updateCarPhysics.
  cbn [Wasd.resetCarPosition fst keys velocity position rotation speed acceleration
       maxSpeed turnSpeed friction brakeForce x z].
  rewrite Hf.
  assert (Hslow : gtb (Math_abs (lit (F := R) 0)) (lit 0.01) = false).
  { apply Rgtb_false. real_lits. rewrite Rabs_pos_eq; lra. }
  rewrite Hslow, !andb_false_r.
  assert (Hz : lit (F := R) 0 = 0) by (real_lits; lra).
  rewrite !Hz. real_ops. rewrite sin_0, cos_0.
  set (a := acceleration cs) in *. set (f := friction cs) in *.
  assert (V : (if brake (keys cs) then 0 * brakeForce cs else 0) = 0)
    by (destruct (brake (keys cs)); ring).
  rewrite V.
  replace ((0 + a * 0) * f) with 0 by ring.
  replace ((0 + a * 1) * f) with (a * f) by ring.
  replace (0 * 0 + a * f * (a * f)) with ((a * f) * (a * f)) by ring.
  rewrite sqrt_square by lra.
  assert (Hc : gtb (a * f) (maxSpeed cs) = false) by (apply Rgtb_false; lra).
  rewrite Hc. cbn [position rotation keys].
  repeat split. f_equal; ring.
Qed.

(** X16.  A reset does not release the keys.  When R is pressed while the
    forward key is held, the held keys are as before, and the frame that
    follows has already moved the car off the origin: it stands at
    (0, acceleration * friction) with heading 0 (for a thrust within the
    speed limit). *)
Theorem reset_keeps_throttle (w : World R) (currentTime : R)
  (r : ProcessRun R) :
  let cs := car (page w) in
  forward (heldKeys w) = true ->
  0 <= acceleration cs * friction cs <= maxSpeed cs ->
  let w' := frame currentTime r (keydown KeyR w) in
  heldKeys (keydown KeyR w) = heldKeys w /\
  heldKeys w' = heldKeys w /\
  position (car (page w')) = mkXZ 0 (acceleration cs * friction cs) /\
  rotation (car (page w')) = 0.
Proof.
  intros cs Hf Hm w'. subst w'.
  split; [reflexivity|].
  unfold heldKeys.
  destruct (frame_keeps currentTime r (keydown KeyR w)) as (_ & _ & _ & ->).
  destruct (restarted_tick (car (page w)) Hf Hm) as (Hp & Hr & Hk).
  repeat split; assumption.
Qed.

End SessionReal.

(** ** The page of the keyboard variant at concrete runs *)

Section SessionInstances.
Import Three Wasd Session SessionInvariant SessionExamples.
Local Open Scope R_scope.

Lemma visible_model_in_sync_witness :
  shownCar =
  mkCarModel (x (position (car (page fallbackPage)))) (lit 0.1)
    (z (position (car (page fallbackPage))))
    (rotation (car (page fallbackPage))).
Proof.
  exact (@visible_model_in_sync R _ ControllerUndefined [GltfError] 0 idle
           shownCar eq_refl eq_refl).
Defined.

Lemma reset_without_recogniser_witness :
  visible (container (page
    (frame 0 idle
       (run [KeyDown KeyW; Frame 0 idle]
          (keydown KeyR (start_processing ControllerUndefined)))))) = false.
Proof.
  refine (proj1 (@reset_without_recogniser R _ [KeyDown KeyW; Frame 0 idle] 0
                   idle (start_processing ControllerUndefined) eq_refl _)).
  repeat constructor.
Defined.

Lemma overlay_never_stuck_witness :
  (0 < timeouts (dom (run [KeyDown KeyR] (start_processing (F := R) Constructed))))%nat.
Proof.
  exact (@overlay_never_stuck R _ Constructed [KeyDown KeyR]
           (mkOverlay PlaceMarkerHelp true) eq_refl eq_refl).
Defined.

Lemma message_hidden_by_older_timer_witness :
  overlay (dom (step OverlayTimeout (keydown KeyR resetOnce)))
  = Some (mkOverlay PlaceMarkerHelp false).
Proof.
  refine (proj1 (@message_hidden_by_older_timer R _ resetOnce _)).
  cbn. lia.
Defined.

Lemma throttled_thrust :
  0 <= acceleration (car (page throttled)) * friction (car (page throttled))
    <= maxSpeed (car (page throttled)).
Proof. cbn. real_lits. lra. Qed.

Lemma reset_keeps_throttle_witness :
  heldKeys (frame 0 idle (keydown KeyR throttled)) = heldKeys throttled.
Proof.
  exact (proj1 (proj2 (reset_keeps_throttle throttled 0 idle eq_refl
                         throttled_thrust))).
Defined.

Lemma driving_keys_idempotent_witness :
  keydown KeyW (keydown KeyW resetOnce) = keydown KeyW resetOnce.
Proof.
  refine (proj1 (@driving_keys_idempotent R _ KeyW resetOnce _ _));
    discriminate.
Defined.

End SessionInstances.

(** ** Runs of the hand-tracking variant, for every number system *)

Section GestureRunsGeneric.
Context {F : Type} {num : JSNumber F}.
Import Three Gesture GestureRuns.
Local Open Scope js_scope.

Lemma with_marker_twice (c1 c2 : Object3D F) (t1 t2 : F) (v1 v2 : bool)
  (g : GhostWheelAR F) :
  with_marker c2 t2 v2 (with_marker c1 t1 v1 g) = with_marker c2 t2 v2 g.
Proof. reflexivity. Qed.

Lemma with_marker_same (g : GhostWheelAR F) :
  with_marker (container g) (lastMarkerTime g) (markerVisible g) g = g.
Proof. destruct g; reflexivity. Qed.

(** A handler call that does not throw writes the marker fields only. *)
Lemma handleMarkerDetection_marker (now : F) (event : MarkerEvent F)
  (g : GhostWheelAR F) :
  idMatrix event = (-1)%Z \/ matrixGL_RH event <> None ->
  exists c t v,
    handleMarkerDetection now event g = Normal (with_marker c t v g).
Proof.
  intros H. unfold handleMarkerDetection, updateMarkerMatrix.
  destruct (Z.eqb_spec (idMatrix event) (-1)) as [E|E]; cbn.
  - exists (container g), (lastMarkerTime g), (markerVisible g).
    rewrite with_marker_same. reflexivity.
  - destruct H as [H|H]; [contradiction|].
    destruct (matrixGL_RH event) as [m|]; [|contradiction]. cbn.
    eexists _, _, _. reflexivity.
Qed.

Lemma dispatch_marker (events : list (F * MarkerEvent F)) :
  forall g : GhostWheelAR F,
  Forall (fun e => idMatrix (snd e) = (-1)%Z \/ matrixGL_RH (snd e) <> None)
    events ->
  exists c t v, dispatch events g = Normal (with_marker c t v g).
Proof.
  induction events as [|[now event] rest IH]; intros g Hall; cbn [dispatch].
  - exists (container g), (lastMarkerTime g), (markerVisible g).
    rewrite with_marker_same. reflexivity.
  - inversion Hall as [|? ? Hev Hrest]; subst. cbn [snd] in Hev.
    destruct (@handleMarkerDetection_marker now event g Hev) as (c & t & v & ->).
    destruct (IH (with_marker c t v g) Hrest) as (c' & t' & v' & ->).
    exists c', t', v'. reflexivity.
Qed.

Lemma dispatch_app (before after : list (F * MarkerEvent F)) :
  forall g g1 : GhostWheelAR F,
  dispatch before g = Normal g1 ->
  dispatch (before ++ after) g = dispatch after g1.
Proof.
  induction before as [|[now event] rest IH]; intros g g1 H; cbn [dispatch app] in *.
  - inversion H; reflexivity.
  - destruct (handleMarkerDetection now event g) as [g2|g2]; [|discriminate].
    apply IH, H.
Qed.

(** X19.  The container follows the marker.  When a call of the recogniser
    reports any number of detections that do not throw (id -1, or a pose
    present) and then a detection with a valid id and a pose, the container
    is visible with the conversion of that last pose, the marker time is that
    of the last detection, and nothing else of the object has changed: the
    earlier detections leave no trace.  (The keyboard variant keeps the
    first valid pose instead.) *)
Theorem latest_detection_wins (before : list (F * MarkerEvent F)) (now : F)
  (id : Z) (m : list F) (g : GhostWheelAR F) :
  id <> (-1)%Z ->
  Forall (fun e => idMatrix (snd e) = (-1)%Z \/ matrixGL_RH (snd e) <> None)
    before ->
  process (mkProcessRun (before ++ [(now, mkMarkerEvent id (Some m))]) false) g
  = Normal (with_marker (mkObject3D true (converted m)) now true g).
Proof.
  intros Hid Hall. unfold process. cbn [detections processFails].
  destruct (@dispatch_marker before g Hall) as (c & t & v & Hd).
  rewrite (@dispatch_app before _ g _ Hd). cbn [dispatch].
  unfold handleMarkerDetection, updateMarkerMatrix. cbn [idMatrix matrixGL_RH].
  destruct (Z.eqb_spec id (-1)) as [E|E]; [contradiction|]. cbn.
  reflexivity.
Qed.

(** *** The marker gate *)

Lemma handleHandTrackingData_hidden (data : SteeringData F) (g : GhostWheelAR F) :
  markerVisible g = false ->
  carPosition (handleHandTrackingData data g) = carPosition g /\
  carRotation (handleHandTrackingData data g) = carRotation g /\
  car (handleHandTrackingData data g) = car g /\
  markerVisible (handleHandTrackingData data g) = false.
Proof.
  intros H. unfold handleHandTrackingData. cbn. rewrite H, andb_false_r.
  cbn. auto.
Qed.

Lemma receive_hidden (msgs : list (SteeringData F)) : forall g : GhostWheelAR F,
  markerVisible g = false ->
  carPosition (receive msgs g) = carPosition g /\
  carRotation (receive msgs g) = carRotation g /\
  car (receive msgs g) = car g /\
  markerVisible (receive msgs g) = false.
Proof.
  induction msgs as [|data rest IH]; intros g H; cbn [receive].
  - auto.
  - destruct (handleHandTrackingData_hidden data g H) as (Hp & Hr & Hc & Hv).
    destruct (IH _ Hv) as (Ip & Ir & Ic & Iv).
    rewrite Ip, Ir, Ic, Hp, Hr, Hc. auto.
Qed.

(** X20.  A car without marker stands still.  Once a frame's timeout test
    has fired (more than 200 ms since the last detection), no sequence of
    hand-tracking messages moves or turns the car, whatever their
    confidence: position, heading and model stay as they were until a frame
    detects the marker again. *)
Theorem car_waits_for_marker (msgs : list (SteeringData F)) (now : F)
  (g : GhostWheelAR F) :
  (now - lastMarkerTime g >? lit 200) = true ->
  let g' := receive msgs (checkTimeout now g) in
  carPosition g' = carPosition g /\ carRotation g' = carRotation g /\
  car g' = car g /\ markerVisible g' = false.
Proof.
  intros H g'. subst g'.
  assert (Hc : checkTimeout now g =
               with_marker (mkObject3D false (matrix (container g)))
                 (lastMarkerTime g) false g)
    by (unfold checkTimeout; rewrite H; reflexivity).
  rewrite Hc.
  apply (receive_hidden msgs (with_marker _ _ false g)). reflexivity.
Qed.

(** *** init *)

(** X25.  [init] never reaches the render loop.  If the camera is refused,
    [init] ends in its catch clause.  If it is granted, [init] waits for
    [setupVideo] for good: the [loadedmetadata] handler calls
    [resizeCanvases] while [arCanvas] is still null (it is assigned by
    [setupThreeJS], which [init] calls after [setupVideo]), so the handler
    throws before it resolves the promise, having styled the video canvas
    alone.  Neither the recogniser, the socket, the model nor the loop is
    ever set up. *)
Theorem init_never_starts_loop (b : Boot F) :
  (cameraGranted b = false /\ init b = CaughtError) \/
  (cameraGranted b = true /\
   exists c : Canvases F,
     init b = Awaiting c /\ arCanvas c = None /\ renderer c = None /\
     (metadata b <> None -> videoCanvas c <> None)).
Proof.
  unfold init, setupVideo.
  destruct (cameraGranted b); [right|left; auto].
  split; [reflexivity|].
  destruct (metadata b) as [s|].
  - unfold resizeCanvases. cbn [arCanvas unset].
    destruct (innerWidth s / innerHeight s >? videoWidth s / videoHeight s);
      eexists; (split; [reflexivity|]); cbn;
      (split; [reflexivity|split; [reflexivity|intros _; discriminate]]).
  - exists unset. cbn. repeat split. intros H; contradiction.
Qed.

End GestureRunsGeneric.

(** ** Runs of the hand-tracking variant over the real numbers *)

Section GestureRunsReal.
Import Three Gesture GestureRuns.
Local Open Scope R_scope.

Lemma updateCarMovement_step (g : GhostWheelAR R) :
  let g' := updateCarMovement g in
  let dx := x (carPosition g') - x (carPosition g) in
  let dz := z (carPosition g') - z (carPosition g) in
  sqrt (dx * dx + dz * dz) = Rabs (carSpeed g) /\
  carRotation g' =
    carRotation g + smoothedSteering g * (PI / 180) * lit 0.02.
Proof.
  unfold updateCarMovement, degToRad. cbn. split; [|real_lits; f_equal; f_equal; f_equal; lra].
  set (rot := carRotation g + _).
  set (s := carSpeed g).
  replace ((x (carPosition g) + sin rot * s - x (carPosition g)) *
           (x (carPosition g) + sin rot * s - x (carPosition g)) +
           (z (carPosition g) + cos rot * s - z (carPosition g)) *
           (z (carPosition g) + cos rot * s - z (carPosition g)))
    with (((sin rot)² + (cos rot)²) * (s * s)) by (unfold Rsqr; ring).
  rewrite sin2_cos2, Rmult_1_l. apply sqrt_Rsqr_abs.
Qed.

Lemma step_cases (data : SteeringData R) (g : GhostWheelAR R) :
  let g' := handleHandTrackingData data g in
  carRotation g' = carRotation g \/
  carRotation g' =
    carRotation g + smoothedSteering g' * (PI / 180) * lit 0.02.
Proof.
  intros g'. subst g'. unfold handleHandTrackingData.
  match goal with |- context [if ?c then _ else _] => destruct c end.
  - right.
    match goal with
    | |- context [updateCarMovement ?h] =>
        pose proof (updateCarMovement_step h) as H
    end.
    cbv zeta in H. apply H.
  - left. reflexivity.
Qed.

(** X21.  The car has one speed.  A hand-tracking message either leaves the
    car where it is, with its heading, or moves it by a step of length
    exactly |carSpeed| (over the real numbers) after turning it by the
    smoothed steering angle, in radians, times 0.02.  No input changes the
    length of the step. *)
Theorem step_length (data : SteeringData R) (g : GhostWheelAR R) :
  let g' := handleHandTrackingData data g in
  let dx := x (carPosition g') - x (carPosition g) in
  let dz := z (carPosition g') - z (carPosition g) in
  (carPosition g' = carPosition g /\ carRotation g' = carRotation g) \/
  (sqrt (dx * dx + dz * dz) = Rabs (carSpeed g) /\
   carRotation g' =
     carRotation g + smoothedSteering g' * (PI / 180) * lit 0.02).
Proof.
  intros g'. subst g'. unfold handleHandTrackingData.
  match goal with |- context [if ?c then _ else _] => destruct c end.
  - right.
    match goal with
    | |- context [updateCarMovement ?h] =>
        pose proof (updateCarMovement_step h) as H
    end.
    cbv zeta in H. exact H.
  - left. split; reflexivity.
Qed.

(** *** Smoothing *)

Lemma handleHandTrackingData_params (data : SteeringData R) (g : GhostWheelAR R) :
  steeringSmoothing (handleHandTrackingData data g) = steeringSmoothing g /\
  carSpeed (handleHandTrackingData data g) = carSpeed g.
Proof.
  unfold handleHandTrackingData.
  match goal with |- context [if ?c then _ else _] => destruct c end;
    split; reflexivity.
Qed.

(** X22.  The steering filter, in closed form.  After n messages that carry
    the same steering angle a, the smoothed steering is
    a + (1 - steeringSmoothing)^n * (s0 - a), where s0 is the value before
    (over the real numbers): the distance to the target shrinks by the
    factor 1 - steeringSmoothing (0.9 in the source) with every message,
    whatever the confidence. *)
Theorem smoothing_converges (n : nat) (a : R) (c : option R) :
  forall g : GhostWheelAR R,
  smoothedSteering (receive (repeat (mkSteeringData (Some a) c) n) g) =
  a + (1 - steeringSmoothing g) ^ n * (smoothedSteering g - a).
Proof.
  induction n as [|n IH]; intros g; cbn [repeat receive].
  - cbn. ring.
  - rewrite IH.
    destruct (handleHandTrackingData_params (mkSteeringData (Some a) c) g)
      as (-> & _).
    rewrite handleHandTrackingData_smoothed, lerp_smoothing.
    cbn [steering_angle]. rewrite orZero_Some. cbn [pow]. ring.
Qed.

Lemma orZero_bounded (A : R) (v : option R) :
  0 <= A -> (forall a, v = Some a -> Rabs a <= A) -> Rabs (orZero v) <= A.
Proof.
  intros HA H. destruct v as [a|].
  - rewrite orZero_Some. apply H. reflexivity.
  - rewrite orZero_None, Rabs_R0. exact HA.
Qed.

Lemma smoothing_step_bounded (A : R) (data : SteeringData R) (g : GhostWheelAR R) :
  0 <= steeringSmoothing g <= 1 ->
  Rabs (orZero (steering_angle data)) <= A ->
  Rabs (smoothedSteering g) <= A ->
  Rabs (smoothedSteering (handleHandTrackingData data g)) <= A.
Proof.
  intros Hs Ha Hg.
  rewrite handleHandTrackingData_smoothed, lerp_smoothing.
  set (t := orZero (steering_angle data)) in *.
  set (s := smoothedSteering g) in *. set (k := steeringSmoothing g) in *.
  assert (Ha' : - A <= t <= A)
    by (unfold Rabs in Ha; destruct (Rcase_abs t); lra).
  assert (Hg' : - A <= s <= A)
    by (unfold Rabs in Hg; destruct (Rcase_abs s); lra).
  apply Rabs_le. split; nra.
Qed.

(** X23.  The steering filter stays within the range of its input.  With
    steeringSmoothing in [0,1], if the smoothed steering and every steering
    angle received are within [-A, A] (a missing angle counts as 0), then
    after any sequence of messages the smoothed steering is within [-A, A],
    and the next message turns the car by at most A * (PI/180) * 0.02
    radians (over the real numbers). *)
Theorem smoothing_bounded (A : R) (msgs : list (SteeringData R))
  (next : SteeringData R) :
  forall g : GhostWheelAR R,
  0 <= steeringSmoothing g <= 1 ->
  Forall (fun d => forall a, steering_angle d = Some a -> Rabs a <= A)
    (next :: msgs) ->
  Rabs (smoothedSteering g) <= A ->
  let g1 := receive msgs g in
  let g2 := handleHandTrackingData next g1 in
  Rabs (smoothedSteering g1) <= A /\
  Rabs (carRotation g2 - carRotation g1) <= A * (PI / 180) * lit 0.02.
Proof.
  intros g Hs Hall Hg.
  assert (HA : 0 <= A) by (pose proof (Rabs_pos (smoothedSteering g)); lra).
  inversion Hall as [|? ? Hnext Hmsgs]; subst.
  assert (K : forall h : GhostWheelAR R,
            0 <= steeringSmoothing h <= 1 -> Rabs (smoothedSteering h) <= A ->
            0 <= steeringSmoothing (receive msgs h) <= 1 /\
            Rabs (smoothedSteering (receive msgs h)) <= A).
  { clear Hall Hg Hs g. induction msgs as [|d rest IH]; intros h Hs Hh;
      cbn [receive]; [auto|].
    inversion Hmsgs as [|? ? Hd Hrest]; subst.
    apply (IH Hrest).
    - destruct (handleHandTrackingData_params d h) as (-> & _). exact Hs.
    - apply smoothing_step_bounded; [exact Hs| |exact Hh].
      apply orZero_bounded; assumption. }
  destruct (K g Hs Hg) as (Hs1 & Hg1).
  intros g1 g2. subst g1 g2. split; [exact Hg1|].
  set (g1 := receive msgs g) in *.
  assert (Hg2 : Rabs (smoothedSteering (handleHandTrackingData next g1)) <= A).
  { apply smoothing_step_bounded; [exact Hs1| |exact Hg1].
    apply orZero_bounded; assumption. }
  assert (Hpi : 0 < PI) by apply PI_RGT_0.
  assert (Hk : 0 <= (PI / 180) * lit 0.02) by (real_lits; nra).
  destruct (step_cases next g1) as [Hr|Hr].
  - rewrite Hr. replace (carRotation g1 - carRotation g1) with 0 by ring.
    rewrite Rabs_R0. rewrite Rmult_assoc. apply Rmult_le_pos; assumption.
  - rewrite Hr.
    replace (carRotation g1 +
             smoothedSteering (handleHandTrackingData next g1) * (PI / 180) * lit 0.02
             - carRotation g1)
      with (smoothedSteering (handleHandTrackingData next g1) * ((PI / 180) * lit 0.02))
      by ring.
    rewrite Rabs_mult, (Rabs_pos_eq _ Hk), (Rmult_assoc A).
    apply Rmult_le_compat_r; assumption.
Qed.

(** *** The canvases *)

(** X24.  The canvases are letterboxed.  For a video and a window of positive
    size, the style [resizeCanvases] computes has the aspect ratio of the
    video, is no larger than the window in either direction, is as wide or
    as high as the window, and is centred: the offsets are not negative and
    leave the same margin on both sides (over the real numbers).  With the
    AR canvas present, both canvases get this style and the call returns,
    having sized the renderer if there is one.  While [arCanvas] is null, as
    it is at the call from [setupVideo], the video canvas alone gets it and
    the call throws. *)
Theorem canvases_letterboxed (videoWidth videoHeight innerWidth innerHeight : R)
  (c : Canvases R) :
  0 < videoWidth -> 0 < videoHeight -> 0 < innerWidth -> 0 < innerHeight ->
  exists l : Layout R,
    (canvasWidth l * videoHeight = canvasHeight l * videoWidth /\
     0 < canvasWidth l <= innerWidth /\ 0 < canvasHeight l <= innerHeight /\
     (canvasWidth l = innerWidth \/ canvasHeight l = innerHeight) /\
     0 <= offsetX l /\ 0 <= offsetY l /\
     offsetX l + canvasWidth l + offsetX l = innerWidth /\
     offsetY l + canvasHeight l + offsetY l = innerHeight) /\
    resizeCanvases videoWidth videoHeight innerWidth innerHeight c =
    match arCanvas c with
    | Some _ =>
        Normal (mkCanvases (videoCanvasSize c) (Some l) (Some (Some l))
                  (match renderer c with
                   | Some _ => Some (Some (canvasWidth l, canvasHeight l))
                   | None => None
                   end))
    | None => Throw (mkCanvases (videoCanvasSize c) (Some l) None (renderer c))
    end.
Proof.
  intros Hvw Hvh Hiw Hih. unfold resizeCanvases.
  assert (H2 : lit (F := R) 2 = 2) by (real_lits; lra).
  rewrite H2. real_ops.
  destruct (gtb (innerWidth / innerHeight) (videoWidth / videoHeight)) eqn:E;
    [exists (mkLayout (innerHeight * (videoWidth / videoHeight)) innerHeight
               ((innerWidth - innerHeight * (videoWidth / videoHeight)) / 2)
               ((innerHeight - innerHeight) / 2))
    |exists (mkLayout innerWidth (innerWidth / (videoWidth / videoHeight))
               ((innerWidth - innerWidth) / 2)
               ((innerHeight - innerWidth / (videoWidth / videoHeight)) / 2))];
    (split; [|destruct (arCanvas c), (renderer c); reflexivity]);
    cbn [canvasWidth canvasHeight offsetX offsetY].
  - apply Rgtb_true in E.
    assert (E' : videoWidth * innerHeight < innerWidth * videoHeight).
    { apply (Rmult_lt_compat_r (innerHeight * videoHeight)) in E; [|nra].
      field_simplify in E; lra. }
    assert (Hw : innerHeight * (videoWidth / videoHeight) * videoHeight
                 = innerHeight * videoWidth) by (field; lra).
    assert (Hpos : 0 < innerHeight * (videoWidth / videoHeight)).
    { apply Rmult_lt_0_compat; [lra|]. apply Rdiv_lt_0_compat; lra. }
    assert (Hle : innerHeight * (videoWidth / videoHeight) <= innerWidth).
    { apply Rmult_le_reg_r with videoHeight; [lra|]. rewrite Hw. lra. }
    repeat split; try lra; auto.
  - apply Rgtb_false in E.
    assert (E' : innerWidth * videoHeight <= videoWidth * innerHeight).
    { apply (Rmult_le_compat_r (innerHeight * videoHeight)) in E; [|nra].
      field_simplify in E; lra. }
    assert (Hr : 0 < videoWidth / videoHeight) by (apply Rdiv_lt_0_compat; lra).
    assert (Hh : innerWidth / (videoWidth / videoHeight) * videoWidth
                 = innerWidth * videoHeight) by (field; lra).
    assert (Hpos : 0 < innerWidth / (videoWidth / videoHeight))
      by (apply Rdiv_lt_0_compat; lra).
    assert (Hle : innerWidth / (videoWidth / videoHeight) <= innerHeight).
    { apply Rmult_le_reg_r with videoWidth; [lra|]. rewrite Hh. lra. }
    repeat split; try lra; auto.
Qed.

End GestureRunsReal.

(** ** The hand-tracking variant at concrete runs *)

Section GestureRunsInstances.
Import Three Gesture GestureRuns Examples PageExamples GestureExamples.
Local Open Scope R_scope.

Lemma latest_detection_wins_witness :
  process (mkProcessRun ([(1000, sentinelEvent)] ++ [(1001, marker7)]) false)
    loaded
  = Normal (with_marker (mkObject3D true (converted identityPose)) 1001 true
              loaded).
Proof.
  refine (@latest_detection_wins R _ [(1000, sentinelEvent)] 1001 7%Z
            identityPose loaded _ _).
  - discriminate.
  - repeat constructor.
Defined.

Lemma tracking_timed_out : gtb (1300 - lastMarkerTime tracking) (lit 200) = true.
Proof. apply Rgtb_true. cbn. real_lits. lra. Qed.

Lemma car_waits_for_marker_witness :
  carPosition (receive [confident] (checkTimeout 1300 tracking))
  = carPosition tracking.
Proof.
  exact (proj1 (@car_waits_for_marker R _ [confident] 1300 tracking
                  tracking_timed_out)).
Defined.

Lemma loaded_smoothing : 0 <= steeringSmoothing loaded <= 1.
Proof. cbn. lra. Qed.

Lemma angles_within_45 :
  Forall (fun d : SteeringData R =>
            forall a, steering_angle d = Some a -> Rabs a <= 45)
    [confident; lowConfidence].
Proof.
  apply Forall_cons; [|apply Forall_cons; [|apply Forall_nil]];
    intros a H; inversion H; subst; rewrite Rabs_pos_eq; lra.
Qed.

Lemma loaded_centred : Rabs (smoothedSteering loaded) <= 45.
Proof. cbn. rewrite Rabs_R0. lra. Qed.

Lemma smoothing_bounded_witness :
  Rabs (smoothedSteering (receive [lowConfidence] loaded)) <= 45.
Proof.
  exact (proj1 (@smoothing_bounded 45 [lowConfidence] confident loaded
                  loaded_smoothing angles_within_45 loaded_centred)).
Defined.

(** With the AR canvas present: both canvases get the style. *)
Lemma canvases_letterboxed_witness :
  exists l : Layout R,
    canvasWidth l * 480 = canvasHeight l * 640 /\
    resizeCanvases 640 480 1920 1080 ready =
    Normal (mkCanvases None (Some l) (Some (Some l))
              (Some (Some (canvasWidth l, canvasHeight l)))).
Proof.
  destruct (@canvases_letterboxed 640 480 1920 1080 ready
              ltac:(lra) ltac:(lra) ltac:(lra) ltac:(lra))
    as (l & (H1 & _) & H2).
  exists l. split; [exact H1|exact H2].
Defined.

End GestureRunsInstances.

(** ** The socket of the hand-tracking variant *)

Section SocketGeneric.
Context {F : Type} {num : JSNumber F}.
Import Three Gesture Socket SocketInvariant.

Lemma count_setState (p : ReadyState -> bool) (s' : ReadyState)
  (l : list ReadyState) : forall (i : nat) (s : ReadyState),
  nth_error l i = Some s ->
  (List.length (filter p (setState i s' l)) + (if p s then 1 else 0) =
   List.length (filter p l) + (if p s' then 1 else 0))%nat.
Proof.
  induction l as [|r rest IH]; intros [|i] s H; cbn in H; try discriminate.
  - inversion H; subst. cbn. destruct (p s), (p s'); cbn; lia.
  - cbn. specialize (IH i s H). destruct (p r); cbn; lia.
Qed.

Lemma count_app (p : ReadyState -> bool) (l : list ReadyState) (s : ReadyState) :
  List.length (filter p (l ++ [s])) =
  (List.length (filter p l) + (if p s then 1 else 0))%nat.
Proof.
  rewrite filter_app, length_app. cbn. destruct (p s); reflexivity.
Qed.

Lemma Single_setup (constructs : bool) (n : Net F) :
  live n = 0%nat -> retries n = 0%nat -> handTrackingConnected n = false ->
  Single (setupWebSocket constructs n).
Proof.
  intros Hl Hr Hc.
  assert (Ho : open n = 0%nat).
  { unfold live, open in *.
    assert (K : forall l : list ReadyState,
              (List.length (filter isOpen l) <= List.length (filter isLive l))%nat).
    { induction l as [|[] ? IH]; cbn; lia. }
    specialize (K (sockets n)). lia. }
  unfold Single, setupWebSocket. destruct constructs; unfold live, open in *; cbn.
  - rewrite !count_app. cbn. rewrite Hl, Ho, Hr, Hc.
    split; [lia|split; [lia|split; [discriminate|discriminate]]].
  - rewrite Hl, Ho, Hr, Hc.
    split; [lia|split; [lia|split; [discriminate|discriminate]]].
Qed.

Lemma Single_step (e : Event F) (n : Net F) : Single n -> Single (step e n).
Proof.
  intros (H1 & H2 & H3).
  destruct e as [i|i data|i|i|constructs]; cbn [step].
  - destruct (nth_error (sockets n) i) as [[| |]|] eqn:Hn;
      try (split; [exact H1|split; [exact H2|exact H3]]).
    pose proof (count_setState isLive OPEN (sockets n) i Hn) as Kl.
    pose proof (count_setState isOpen OPEN (sockets n) i Hn) as Ko.
    assert (Hpos : (1 <= live n)%nat).
    { unfold live.
      pose proof (count_setState isLive CLOSED (sockets n) i Hn) as K.
      cbn in K. lia. }
    assert (Hopen : open n = 0%nat).
    { unfold open.
      assert (K : forall (l : list ReadyState) (j : nat),
                nth_error l j = Some CONNECTING ->
                (List.length (filter isOpen l) < List.length (filter isLive l))%nat).
      { induction l as [|r rest IH]; intros [|j] Hj; cbn in Hj; try discriminate.
        - inversion Hj; subst. cbn.
          assert (forall l' : list ReadyState,
                   (List.length (filter isOpen l') <= List.length (filter isLive l'))%nat)
            as K' by (induction l' as [|[] ? IH']; cbn; lia).
          specialize (K' rest). lia.
        - specialize (IH j Hj). destruct r; cbn; lia. }
      specialize (K (sockets n) i Hn). unfold live in *. lia. }
    unfold Single, live, open in *. cbn. cbn in Kl, Ko.
    split; [lia|split; [lia|split; [intros _; lia|reflexivity]]].
  - destruct (nth_error (sockets n) i) as [[| |]|];
      try (split; [exact H1|split; [exact H2|exact H3]]).
    destruct data; split; [exact H1|split; [exact H2|exact H3]
                          |exact H1|split; [exact H2|exact H3]].
  - destruct (nth_error (sockets n) i) as [[| |]|];
      split; [exact H1|split; [exact H2|exact H3]
             |exact H1|split; [exact H2|exact H3]
             |exact H1|split; [exact H2|exact H3]
             |exact H1|split; [exact H2|exact H3]].
  - assert (K : forall s, nth_error (sockets n) i = Some s -> isLive s = true ->
              Single (let n' := onclose n in
                      mkNet (object n') (handTrackingConnected n')
                        (setState i CLOSED (sockets n')) (websocket n')
                        (retries n') (handStatus n') (handStatusConnected n'))).
    { intros s Hn Hs.
      pose proof (count_setState isLive CLOSED (sockets n) i Hn) as Kl.
      pose proof (count_setState isOpen CLOSED (sockets n) i Hn) as Ko.
      rewrite Hs in Kl. cbn in Kl, Ko.
      unfold Single, live, open in *. cbn. fold isLive isOpen in *.
      assert (Hle : forall l' : list ReadyState,
                 (List.length (filter isOpen l') <= List.length (filter isLive l'))%nat)
        by (induction l' as [|[] ? IH']; cbn; lia).
      pose proof (Hle (setState i CLOSED (sockets n))) as Hle'.
      split; [lia|split; [lia|split; [discriminate|intros; lia]]]. }
    destruct (nth_error (sockets n) i) as [[| |]|] eqn:Hn;
      try (split; [exact H1|split; [exact H2|exact H3]]).
    + exact (K CONNECTING eq_refl eq_refl).
    + exact (K OPEN eq_refl eq_refl).
  - unfold retry. case_eq (retries n);
      [intros Hr; split; [exact H1|split; [exact H2|exact H3]]
      |intros pending Hr].
    assert (Hl : live n = 0%nat) by lia.
    assert (Hc : handTrackingConnected n = false).
    { destruct (handTrackingConnected n); [|reflexivity].
      pose proof (proj1 H3 eq_refl). lia. }
    assert (Hp : pending = 0%nat) by lia. subst pending.
    cbn [handTrackingConnected]. rewrite Hc. cbn [negb].
    apply Single_setup; [exact Hl|reflexivity|reflexivity].
Qed.

Lemma Single_run (events : list (Event F)) : forall n : Net F,
  Single n -> Single (run events n).
Proof.
  induction events as [|e rest IH]; intros n H; cbn [run].
  - exact H.
  - apply IH, Single_step, H.
Qed.

(** X26.  One connection at a time.  In every run of the socket, however the
    connections open, fail and close and whenever the retry timers fire, the
    sockets that are not closed and the pending retry timers number at most
    one together, and [handTrackingConnected] is true exactly when a socket
    is open.  So a retry timer always finds the flag false: its test never
    decides, and no second connection is opened beside a live one. *)
Theorem one_connection_at_a_time (constructs : bool) (g : GhostWheelAR F)
  (events : list (Event F)) :
  let n := run events (connect constructs g) in
  (live n + retries n <= 1)%nat /\
  (handTrackingConnected n = true <-> open n = 1%nat) /\
  ((0 < retries n)%nat -> handTrackingConnected n = false).
Proof.
  intros n. subst n.
  assert (H : Single (run events (connect constructs g))).
  { apply Single_run. unfold connect. apply Single_setup; reflexivity. }
  destruct H as (H1 & H2 & H3).
  split; [exact H1|split; [exact H3|]].
  intros Hr. destruct (handTrackingConnected _); [|reflexivity].
  pose proof (proj1 H3 eq_refl). lia.
Qed.

(** *** A constructor that throws *)

Lemma step_dead (e : Event F) (n : Net F) :
  live n = 0%nat -> retries n = 0%nat ->
  sockets (step e n) = sockets n /\ retries (step e n) = 0%nat /\
  handTrackingConnected (step e n) = handTrackingConnected n /\
  object (step e n) = object n.
Proof.
  intros Hl Hr.
  assert (K : forall i s, nth_error (sockets n) i = Some s -> s = CLOSED).
  { intros i s Hn. destruct s; [exfalso|exfalso|reflexivity];
      pose proof (count_setState isLive CLOSED (sockets n) i Hn) as Kl;
      unfold live in Hl; cbn in Kl; lia. }
  destruct e as [i|i data|i|i|constructs]; cbn [step].
  - destruct (nth_error (sockets n) i) as [s|] eqn:Hn; [|auto].
    rewrite (K i s Hn). auto.
  - destruct (nth_error (sockets n) i) as [s|] eqn:Hn; [|auto].
    rewrite (K i s Hn). auto.
  - destruct (nth_error (sockets n) i) as [s|] eqn:Hn; [|auto].
    rewrite (K i s Hn). auto.
  - destruct (nth_error (sockets n) i) as [s|] eqn:Hn; [|auto].
    rewrite (K i s Hn). auto.
  - unfold retry. rewrite Hr. auto.
Qed.

Lemma run_dead (events : list (Event F)) : forall n : Net F,
  live n = 0%nat -> retries n = 0%nat ->
  sockets (run events n) = sockets n /\ retries (run events n) = 0%nat /\
  handTrackingConnected (run events n) = handTrackingConnected n /\
  object (run events n) = object n.
Proof.
  induction events as [|e rest IH]; intros n Hl Hr; cbn [run].
  - auto.
  - destruct (step_dead e n Hl Hr) as (Hs & Hr' & Hc & Ho).
    assert (Hl' : live (step e n) = 0%nat) by (unfold live; rewrite Hs; exact Hl).
    destruct (IH (step e n) Hl' Hr') as (Is & Ir & Ic & Io).
    rewrite Is, Ir, Ic, Io. auto.
Qed.

(** X27.  A constructor that throws ends the reconnection for good.  When a
    retry timer fires and [new WebSocket] throws, no socket and no timer is
    left: whatever happens afterwards, no socket is ever created again, the
    flag stays false and no message moves the car.  Only the failure of a
    connection that was created is retried. *)
Theorem no_retry_after_throw (before after : list (Event F))
  (constructs : bool) (g : GhostWheelAR F) :
  let n := run before (connect constructs g) in
  (0 < retries n)%nat ->
  let n' := run after (step (Retry false) n) in
  sockets n' = sockets n /\ live n' = 0%nat /\ retries n' = 0%nat /\
  handTrackingConnected n' = false /\ object n' = object n.
Proof.
  intros n Hr n'. subst n'.
  assert (H : Single n).
  { apply Single_run. unfold connect. apply Single_setup; reflexivity. }
  destruct H as (H1 & H2 & H3).
  assert (Hl : live n = 0%nat) by lia.
  assert (Hc : handTrackingConnected n = false).
  { destruct (handTrackingConnected n); [|reflexivity].
    pose proof (proj1 H3 eq_refl). lia. }
  assert (E : step (Retry false) n =
              mkNet (object n) false (sockets n) (websocket n) 0 Failed false).
  { cbn [step]. unfold retry. case_eq (retries n); [intros Hp; lia|intros p Hp].
    assert (p = 0%nat) by lia. subst p.
    cbn [handTrackingConnected]. rewrite Hc. reflexivity. }
  rewrite E.
  destruct (run_dead after
              (mkNet (object n) false (sockets n) (websocket n) 0 Failed false)
              Hl eq_refl) as (Is & Ir & Ic & Io).
  rewrite Is, Ir, Ic, Io. cbn. repeat split; try reflexivity.
  unfold live in *. rewrite Is. exact Hl.
Qed.

End SocketGeneric.

Section SocketInstances.
Import Three Gesture Socket Examples.

Lemma no_retry_after_throw_witness :
  handTrackingConnected
    (run [Retry true; Opens 0]
       (step (Retry false) (run [Closes 0] (connect true loaded)))) = false.
Proof.
  refine (proj1 (proj2 (proj2 (proj2
            (@no_retry_after_throw R _ [Closes 0] [Retry true; Opens 0] true
               loaded _))))).
  cbn. lia.
Defined.

End SocketInstances.

(** ** The camera of the keyboard variant *)

Section CameraFacts.
Import Camera CameraInvariant.

Lemma count_setTask (p : Task -> bool) (t' : Task) (l : list Task) :
  forall (k : nat) (t : Task),
  nth_error l k = Some t ->
  (List.length (filter p (setTask k t' l)) + (if p t then 1 else 0) =
   List.length (filter p l) + (if p t' then 1 else 0))%nat.
Proof.
  induction l as [|r rest IH]; intros [|k] t H; cbn in H; try discriminate.
  - inversion H; subst. cbn. destruct (p t), (p t'); cbn; lia.
  - cbn. specialize (IH k t H). destruct (p r); cbn; lia.
Qed.

Lemma count_task_app (p : Task -> bool) (l : list Task) (t : Task) :
  List.length (filter p (l ++ [t])) =
  (List.length (filter p l) + (if p t then 1 else 0))%nat.
Proof.
  rewrite filter_app, length_app. cbn. destruct (p t); reflexivity.
Qed.

(** *** The lock of the enumeration *)

Lemma Locked_same (s s' : State) :
  enumerations s' = enumerations s -> isEnumerating s' = isEnumerating s ->
  Locked s -> Locked s'.
Proof. unfold Locked. intros -> ->. auto. Qed.

Lemma Locked_released (s s' : State) :
  (enumerations s' + 1 = enumerations s)%nat -> isEnumerating s' = false ->
  Locked s -> Locked s'.
Proof.
  unfold Locked. intros He Hf (H1 & H2). rewrite Hf.
  split; [lia|split; [discriminate|lia]].
Qed.

Lemma Locked_taken (s s' : State) :
  (enumerations s' = enumerations s + 1)%nat -> isEnumerating s = false ->
  isEnumerating s' = true -> Locked s -> Locked s'.
Proof.
  unfold Locked. intros He Hf Hf' (H1 & H2). rewrite Hf'.
  assert (enumerations s = 0%nat).
  { destruct (Nat.eq_dec (enumerations s) 1) as [E|E]; [|lia].
    apply H2 in E. congruence. }
  split; [lia|split; [intros _; lia|reflexivity]].
Qed.

Ltac count :=
  unfold enumerations, startsInFlight; cbn;
  rewrite ?count_task_app; cbn; lia.

Lemma Locked_step (e : Event) (s : State) : Locked s -> Locked (step e s).
Proof.
  intros H.
  destruct e as [|value| |k ok|k devices| | |]; cbn [step].
  - unfold enumerateAndPopulateCameras.
    case_eq (isEnumerating s); intros Hf; [exact H|].
    apply (Locked_taken (s := s)); [count|exact Hf|reflexivity|exact H].
  - destruct (negb (String.eqb value String.EmptyString) && negb (isEnumerating s));
      exact H.
  - case_eq (changeTimeout s); [intros v Hv|intros Hv]; [|exact H].
    unfold startCameraStream.
    case_eq (currentStream (with_change true None s)); [intros c Hc|intros Hc];
      (apply (Locked_same (s := s)); [count|reflexivity|exact H]).
  - case_eq (nth_error (tasks s) k); [intros t Hk|intros Hk]; [|exact H].
    pose proof (count_setTask isEnumeration AwaitsDevices (tasks s) k Hk) as C1.
    pose proof (count_setTask isEnumeration Finished (tasks s) k Hk) as C2.
    pose proof (count_setTask isEnumeration (AwaitsFallback FromChange) (tasks s) k Hk) as C3.
    pose proof (count_setTask isEnumeration (AwaitsFallback FromEnumerate) (tasks s) k Hk) as C4.
    destruct t as [| | |c|c]; try exact H; cbn in C1, C2, C3, C4.
    + destruct ok.
      * apply (Locked_same (s := s)); [count|reflexivity|exact H].
      * apply (Locked_released (s := s)); [count|reflexivity|exact H].
    + destruct ok, c.
      * apply (Locked_same (s := s)); [count|reflexivity|exact H].
      * apply (Locked_released (s := s)); [count|reflexivity|exact H].
      * apply (Locked_same (s := s)); [count|reflexivity|exact H].
      * apply (Locked_same (s := s)); [count|reflexivity|exact H].
    + destruct ok, c.
      * apply (Locked_same (s := s)); [count|reflexivity|exact H].
      * apply (Locked_released (s := s)); [count|reflexivity|exact H].
      * apply (Locked_same (s := s)); [count|reflexivity|exact H].
      * apply (Locked_released (s := s)); [count|reflexivity|exact H].
  - case_eq (nth_error (tasks s) k); [intros t Hk|intros Hk]; [|exact H].
    pose proof (count_setTask isEnumeration Finished (tasks s) k Hk) as C1.
    destruct t as [| | |c|c]; try exact H; cbn in C1.
    assert (Hheld : isEnumerating s = true).
    { apply H. destruct H as (H1 & _). unfold enumerations in *. lia. }
    destruct devices as [devices|].
    + unfold populate.
      destruct (filter isVideoInput devices) as [|camera [|camera' rest]].
      * apply (Locked_released (s := s)); [count|reflexivity|exact H].
      * unfold startCameraStream.
        match goal with
        | |- context [currentStream ?x] => case_eq (currentStream x);
            [intros c Hc|intros Hc]
        end;
          (apply (Locked_same (s := s)); [count|cbn; symmetry; exact Hheld|exact H]).
      * apply (Locked_released (s := s)); [count|reflexivity|exact H].
    + apply (Locked_released (s := s)); [count|reflexivity|exact H].
  - destruct (negb (isProcessingStarted s)); exact H.
  - destruct (startTimers s); exact H.
  - unfold cleanup. case_eq (currentStream s); [intros c Hc|intros Hc]; exact H.
Qed.

Lemma Locked_run (events : list Event) : forall s : State,
  Locked s -> Locked (run events s).
Proof.
  induction events as [|e rest IH]; intros s H; cbn [run].
  - exact H.
  - apply IH, Locked_step, H.
Qed.

(** X28.  The lock of the camera enumeration.  However the calls of
    [enumerateAndPopulateCameras] and [startCameraStream], the settling of
    their promises, the change events and [cleanup] interleave, at most one
    enumeration is in flight at a time, and [isEnumerating] is true exactly
    while one is: the flag is released on every way out of the function (no
    camera, several cameras, a single camera once its stream has started or
    failed, and both errors), and never while the enumeration still runs. *)
Theorem enumeration_lock (events : list Event) :
  let s := run events loaded in
  (enumerations s <= 1)%nat /\
  (isEnumerating s = true <-> enumerations s = 1%nat).
Proof.
  intros s. subst s. apply Locked_run.
  unfold Locked, enumerations. cbn. split; [lia|split; discriminate].
Qed.

(** *** The streams *)

Lemma stop_held (c : nat) : stop c [c] = [].
Proof. unfold stop. cbn. rewrite Nat.eqb_refl. reflexivity. Qed.

Lemma Tracked_same (s s' : State) :
  running s' = running s -> currentStream s' = currentStream s ->
  (startsInFlight s' <= startsInFlight s)%nat -> Tracked s -> Tracked s'.
Proof.
  unfold Tracked, held. intros -> -> Hle (H1 & H2).
  split; [exact H1|]. intros H. apply H2. lia.
Qed.

Lemma Tracked_none (s' : State) :
  running s' = [] -> currentStream s' = None -> Tracked s'.
Proof. unfold Tracked, held. intros -> ->. auto. Qed.

Lemma Tracked_adopted (s' : State) (c : nat) :
  running s' = [c] -> currentStream s' = Some c ->
  startsInFlight s' = 0%nat -> Tracked s'.
Proof.
  unfold Tracked, held. intros -> -> H0. split; [reflexivity|]. intros H. lia.
Qed.

(** The first part of [startCameraStream] leaves no stream running. *)
Lemma Tracked_start (c : Caller) (s : State) :
  Tracked s -> Tracked (startCameraStream c s).
Proof.
  intros (Hr & _). unfold startCameraStream, held in *.
  case_eq (currentStream s); [intros cur Hc|intros Hc]; rewrite Hc in Hr.
  - apply Tracked_none; cbn; [rewrite Hr; apply stop_held|reflexivity].
  - apply Tracked_none; cbn; assumption.
Qed.

(** A step keeps the streams tracked, if at most one start is in flight
    before it. *)
Lemma Tracked_step (e : Event) (s : State) :
  (startsInFlight s <= 1)%nat -> Tracked s -> Tracked (step e s).
Proof.
  intros Hone H.
  destruct e as [|value| |k ok|k devices| | |]; cbn [step].
  - unfold enumerateAndPopulateCameras.
    destruct (isEnumerating s); [exact H|].
    apply (Tracked_same (s := s)); [reflexivity|reflexivity|count|exact H].
  - destruct (negb (String.eqb value String.EmptyString) && negb (isEnumerating s));
      exact H.
  - case_eq (changeTimeout s); [intros v Hv|intros Hv]; [|exact H].
    apply Tracked_start. exact H.
  - case_eq (nth_error (tasks s) k); [intros t Hk|intros Hk]; [|exact H].
    pose proof (count_setTask isStart AwaitsDevices (tasks s) k Hk) as C1.
    pose proof (count_setTask isStart Finished (tasks s) k Hk) as C2.
    pose proof (count_setTask isStart (AwaitsFallback FromChange) (tasks s) k Hk) as C3.
    pose proof (count_setTask isStart (AwaitsFallback FromEnumerate) (tasks s) k Hk) as C4.
    destruct t as [| | |c|c]; try exact H; cbn in C1, C2, C3, C4.
    + destruct ok;
        (apply (Tracked_same (s := s)); [reflexivity|reflexivity|count|exact H]).
    + assert (Hnone : currentStream s = None)
        by (apply H; unfold startsInFlight; lia).
      assert (Hrun : running s = [])
        by (destruct H as (Hr & _); unfold held in Hr; rewrite Hnone in Hr;
            exact Hr).
      unfold startsInFlight in Hone.
      destruct ok, c.
      * apply Tracked_adopted with (c := created s);
          [cbn; rewrite Hrun; reflexivity|reflexivity|count].
      * apply Tracked_adopted with (c := created s);
          [cbn; rewrite Hrun; reflexivity|reflexivity|count].
      * apply (Tracked_same (s := s)); [reflexivity|reflexivity|count|exact H].
      * apply (Tracked_same (s := s)); [reflexivity|reflexivity|count|exact H].
    + assert (Hnone : currentStream s = None)
        by (apply H; unfold startsInFlight; lia).
      assert (Hrun : running s = [])
        by (destruct H as (Hr & _); unfold held in Hr; rewrite Hnone in Hr;
            exact Hr).
      unfold startsInFlight in Hone.
      destruct ok, c.
      * apply Tracked_adopted with (c := created s);
          [cbn; rewrite Hrun; reflexivity|reflexivity|count].
      * apply Tracked_adopted with (c := created s);
          [cbn; rewrite Hrun; reflexivity|reflexivity|count].
      * apply (Tracked_same (s := s)); [reflexivity|reflexivity|count|exact H].
      * apply (Tracked_same (s := s)); [reflexivity|reflexivity|count|exact H].
  - case_eq (nth_error (tasks s) k); [intros t Hk|intros Hk]; [|exact H].
    pose proof (count_setTask isStart Finished (tasks s) k Hk) as C1.
    destruct t as [| | |c|c]; try exact H; cbn in C1.
    destruct devices as [devices|].
    + unfold populate.
      destruct (filter isVideoInput devices) as [|camera [|camera' rest]].
      * apply (Tracked_same (s := s)); [reflexivity|reflexivity|count|exact H].
      * apply Tracked_start.
        apply (Tracked_same (s := s)); [reflexivity|reflexivity|count|exact H].
      * apply (Tracked_same (s := s)); [reflexivity|reflexivity|count|exact H].
    + apply (Tracked_same (s := s)); [reflexivity|reflexivity|count|exact H].
  - destruct (negb (isProcessingStarted s)); exact H.
  - destruct (startTimers s); exact H.
  - destruct H as (Hr & _). unfold cleanup, held in *.
    case_eq (currentStream s); [intros cur Hc|intros Hc]; rewrite Hc in Hr.
    + apply Tracked_none; cbn; [rewrite Hr; apply stop_held|reflexivity].
    + apply Tracked_none; assumption.
Qed.

Lemma Tracked_run (events : list Event) : forall s : State,
  oneStartAtATime events s -> Tracked s -> Tracked (run events s).
Proof.
  induction events as [|e rest IH]; intros s Hone H; cbn [run].
  - exact H.
  - destruct Hone as (H1 & Hrest). apply IH; [exact Hrest|].
    apply Tracked_step; assumption.
Qed.

(** X29.  No camera stream is lost.  In every run in which no call of
    [startCameraStream] begins while another is in flight, the streams that
    are still running are exactly the one in [currentStream], if any: the
    temporary stream of the enumeration and every replaced stream have been
    stopped.  So [cleanup] leaves no stream running. *)
Theorem streams_never_leak (events : list Event) :
  oneStartAtATime events loaded ->
  let s := run events loaded in
  running s = held s /\ running (cleanup s) = [].
Proof.
  intros Hone s. subst s.
  assert (H : Tracked (run events loaded)).
  { apply Tracked_run; [exact Hone|]. split; [reflexivity|reflexivity]. }
  destruct H as (Hr & _). split; [exact Hr|].
  unfold cleanup, held in *.
  destruct (currentStream (run events loaded)) as [c|]; cbn.
  - rewrite Hr. apply stop_held.
  - exact Hr.
Qed.

(** *** The start of the program *)






End CameraFacts.

Section CameraInstances.
Import Camera CameraInvariant CameraExamples.

Lemma oneCamera_sequential : oneStartAtATime oneCamera loaded.
Proof. cbn. repeat split; lia. Qed.

Lemma streams_never_leak_witness :
  running (run oneCamera loaded) = held (run oneCamera loaded).
Proof.
  exact (proj1 (streams_never_leak oneCamera oneCamera_sequential)).
Defined.

End CameraInstances.
